(** * Visual workflow automator: the step model, the recorder, the step
      dialogs, the sub-workflow editor, the main window with its list of
      steps, the run controller, the execution engine and the helper
      functions of [automation.py], embedded in Rocq.

    The Python program keeps a workflow as a list of dictionaries tagged by
    their ["type"] entry.  Here a step is a value of the inductive type
    [Step]; the entries read with [step.get(key, default)] are the fields of
    its constructors.  The calls the program makes to [time.sleep] and to
    [pyautogui] are recorded, in the order they are made, in the [log] of the
    state that every engine function passes along. *)

From Stdlib Require Import ZArith List String Ascii Bool Lia.
From Stdlib Require Import DecimalString DecimalPos.
Import ListNotations.
Open Scope string_scope.
Open Scope Z_scope.
Open Scope list_scope.

Set Implicit Arguments.

(** ** Python strings *)

Module PyStr.

(** [needle in hay] for two Python strings. *)
Fixpoint contains (needle hay : string) : bool :=
  String.prefix needle hay
  || match hay with
     | EmptyString => false
     | String _ hay' => contains needle hay'
     end.

(** The truth value of a string: the empty string is false. *)
Definition truthy (s : string) : bool :=
  match s with
  | EmptyString => false
  | String _ _ => true
  end.

(** Characters removed by [str.strip()] (ASCII range). *)
Definition is_space (c : ascii) : bool :=
  let n := nat_of_ascii c in
  ((9 <=? n) && (n <=? 13) || (28 <=? n) && (n <=? 32))%nat.

Fixpoint lstrip (s : string) : string :=
  match s with
  | EmptyString => EmptyString
  | String c s' => if is_space c then lstrip s' else s
  end.

(** Drops trailing white space. *)
Fixpoint rstrip (s : string) : string :=
  match s with
  | EmptyString => EmptyString
  | String c s' =>
      match rstrip s' with
      | EmptyString => if is_space c then EmptyString else String c EmptyString
      | r => String c r
      end
  end.

Definition strip (s : string) : string := rstrip (lstrip s).

(** [s.split(sep)] for a one-character separator: the pieces between the
    separators, in order; an empty input gives one empty piece. *)
Fixpoint split_from (sep : ascii) (cur : string) (s : string) : list string :=
  match s with
  | EmptyString => [cur]
  | String c s' =>
      if Ascii.eqb c sep then cur :: split_from sep EmptyString s'
      else split_from sep (cur ++ String c EmptyString) s'
  end.

Definition split (sep : ascii) (s : string) : list string :=
  split_from sep EmptyString s.

(** [os.path.basename] (POSIX): what follows the last ["/"]. *)
Fixpoint basename_from (cur : string) (p : string) : string :=
  match p with
  | EmptyString => cur
  | String c p' =>
      if Ascii.eqb c "/" then basename_from EmptyString p'
      else basename_from (cur ++ String c EmptyString) p'
  end.

Definition basename (p : string) : string := basename_from EmptyString p.

(** [str(n)] for an integer. *)
Definition of_Z (n : Z) : string := NilZero.string_of_int (Z.to_int n).

(** [sep.join(pieces)] *)
Fixpoint join (sep : string) (pieces : list string) : string :=
  match pieces with
  | [] => EmptyString
  | [piece] => piece
  | piece :: rest => piece ++ sep ++ join sep rest
  end.

(** Whether the character [c] occurs in [s]. *)
Fixpoint has_char (c : ascii) (s : string) : bool :=
  match s with
  | EmptyString => false
  | String c' s' => Ascii.eqb c' c || has_char c s'
  end.

End PyStr.

(** ** Numbers read from and written to steps

    A delay is a Python [float].  The program only reads delays from text,
    subtracts two clock readings, rounds to three decimals, compares and
    sleeps; a float is modelled by the decimal number [mant * 10 ^ expo] it
    denotes, with exact arithmetic (every finite binary float is such a
    number).  Not-a-number and the infinities are outside the model. *)

Record float : Set := Float { mant : Z; expo : Z }.

Module PyFloat.

(** Mantissa of [a] once written with exponent [e <= expo a]. *)
Definition scaled (e : Z) (a : float) : Z := mant a * 10 ^ (expo a - e).

Definition common (a b : float) : Z := Z.min (expo a) (expo b).

Definition sub (a b : float) : float :=
  let e := common a b in Float (scaled e a - scaled e b) e.

Definition leb (a b : float) : bool :=
  let e := common a b in scaled e a <=? scaled e b.

Definition ltb (a b : float) : bool :=
  let e := common a b in scaled e a <? scaled e b.

Definition zero : float := Float 0 0.

(** [max(0.0, a)] *)
Definition max0 (a : float) : float := if leb zero a then a else zero.

(** [round(a, 3)]: to the nearest multiple of 0.001, ties to the even
    one.  The result is a whole number of milliseconds. *)
Definition round3 (a : float) : float :=
  if -3 <=? expo a then Float (mant a * 10 ^ (expo a + 3)) (-3)
  else
    let p := 10 ^ (-3 - expo a) in
    let q := mant a / p in
    let r := mant a mod p in
    let up := (p <? 2 * r) || ((p =? 2 * r) && Z.odd q) in
    Float (if up then q + 1 else q) (-3).

(** A delay of [n] milliseconds. *)
Definition ms (n : Z) : float := Float n (-3).

(** A whole number of seconds. *)
Definition sec (n : Z) : float := Float n 0.

End PyFloat.

(** ** The step model (the dictionaries of [self.workflow]) *)

Unset Elimination Schemes.

Inductive Step : Set :=
| Mouse (action : string) (x y : Z) (delay : float)
| Keyboard (action : string) (value : string) (delay : float)
| Image (path : string) (delay : float)
| ConditionalRecord (source : string) (cases : list Case)
    (else_steps : list Step) (delay : float)
| Loop (count : Z) (steps : list Step) (delay : float)
with Case : Set :=
| MkCase (case_value : string) (case_steps : list Step).

Set Elimination Schemes.

Definition value_of (c : Case) : string :=
  match c with MkCase v _ => v end.

Definition steps_of (c : Case) : list Step :=
  match c with MkCase _ ss => ss end.

(** [step.get("delay", 0)] *)
Definition delay_of (s : Step) : float :=
  match s with
  | Mouse _ _ _ d | Keyboard _ _ d | Image _ d
  | ConditionalRecord _ _ _ d | Loop _ _ d => d
  end.

(** ** The application state and the calls it makes

    The fields of [AutomationApp] that the engine and the controller read or
    write, and [log], the calls made so far to [time.sleep] and to
    [pyautogui], oldest first.  [threads] counts the execution threads that
    [toggle_run] has started; [selection] is the highlighted row of the
    step list. *)

Inductive Event : Set :=
| Sleep (d : float)                      (* time.sleep(d) *)
| MoveTo (x y : Z)                       (* moveTo(x, y, duration=0.2) *)
| Click                                  (* click() *)
| ClickAt (x y : Z)                      (* click(loc) *)
| Write (text : string)                  (* write(text, interval=0.01) *)
| Press (key : string)                   (* press(key) *)
| Hotkey (keys : list string)            (* hotkey( *keys ) *)
| LocateCenterOnScreen (path : string).  (* ..., confidence=0.8 *)

(** What [pyautogui.locateCenterOnScreen] answers: a point, [None], or an
    exception. *)
Inductive Located : Set :=
| Found (x y : Z)
| NotFound
| Raised.

Record State : Set := mkState {
  workflow : list Step;
  is_running : bool;
  run_button : string;
  status_var : string;
  selection : option nat;
  threads : nat;
  log : list Event
}.

Definition set_is_running (b : bool) (st : State) : State :=
  mkState (workflow st) b (run_button st) (status_var st) (selection st)
    (threads st) (log st).

Definition set_run_button (t : string) (st : State) : State :=
  mkState (workflow st) (is_running st) t (status_var st) (selection st)
    (threads st) (log st).

Definition set_status (t : string) (st : State) : State :=
  mkState (workflow st) (is_running st) (run_button st) t (selection st)
    (threads st) (log st).

Definition selection_set (pc : nat) (st : State) : State :=
  mkState (workflow st) (is_running st) (run_button st) (status_var st)
    (Some pc) (threads st) (log st).

Definition start_thread (st : State) : State :=
  mkState (workflow st) (is_running st) (run_button st) (status_var st)
    (selection st) (S (threads st)) (log st).

Definition append_log (ev : Event) (st : State) : State :=
  mkState (workflow st) (is_running st) (run_button st) (status_var st)
    (selection st) (threads st) (log st ++ [ev]).

Definition set_workflow (wf : list Step) (st : State) : State :=
  mkState wf (is_running st) (run_button st) (status_var st) (selection st)
    (threads st) (log st).

(** The state after [AutomationApp.__init__]. *)
Definition init_app : State :=
  mkState [] false "Run Workflow" "Status: Idle" None 0 [].

(** ** The run controller *)

(** [AutomationApp.toggle_run]: the handler of the one Run/Stop button.
    The thread it starts runs [run_workflow_loop], below. *)
Definition toggle_run (st : State) : State :=
  if is_running st then
    set_status "Status: Stopping..."
      (set_run_button "Run Workflow" (set_is_running false st))
  else
    start_thread (set_run_button "Stop" (set_is_running true st)).

(** ** The execution engine *)

(** How a loop body of the program ends: it falls through to the next
    iteration, or it executes [return] and leaves the enclosing method. *)
Inductive Flow : Set :=
| Continue (st : State)
| Return (st : State).

Definition state_of (f : Flow) : State :=
  match f with Continue st | Return st => st end.

(** [for x in items: body], where [body] may [return]. *)
Fixpoint for_each (A : Type) (body : A -> State -> Flow) (items : list A)
    (st : State) : Flow :=
  match items with
  | [] => Continue st
  | x :: rest =>
      match body x st with
      | Continue st' => for_each body rest st'
      | Return st' => Return st'
      end
  end.

(** The surroundings of a run.  Calls are numbered in the order they are
    made, from 0: the call numbered [t] is the one made when [log] has
    length [t].
    - [locate t path]: the answer of the image search made as call [t];
    - [stop_at t]: whether the user presses the Run/Stop button while call
      [t] is blocking the execution thread;
    - [clipboard t]: the clipboard text when [t] calls have been made,
      [None] when reading it raises [TclError]. *)
Record Surroundings : Type := mkSurroundings {
  locate : nat -> string -> Located;
  stop_at : nat -> bool;
  clipboard : nat -> option string
}.

(** A blocking call of the execution thread: it is logged, and if the
    button is pressed meanwhile, during a run, [toggle_run] has run in the
    foreground by the time the call returns.  (A press between two calls
    acts as a press during one of them: the flag is read only between
    calls.) *)
Definition blocking_call (env : Surroundings) (ev : Event) (st : State)
    : State :=
  let st' := append_log ev st in
  if stop_at env (List.length (log st)) && is_running st then toggle_run st'
  else st'.

Definition image_not_found (path : string) : string :=
  "Status: Image not found '" ++ PyStr.basename path ++ "'".

Definition image_search_error : string :=
  "Status: Image search error. Is OpenCV installed?".

(** [AutomationApp.execute_step].  Of the mouse actions the method shows
    the branch for ["Click"] only; it has no branch for a loop or a
    conditional block, which it leaves alone. *)
Definition execute_step (env : Surroundings) (step : Step) (st : State)
    : State :=
  if negb (is_running st) then st
  else
    match step with
    | Mouse action x y _ =>
        let st1 := blocking_call env (MoveTo x y) st in
        if String.eqb action "Click" then blocking_call env Click st1 else st1
    | Keyboard action value _ =>
        if String.eqb action "Type Text" then
          blocking_call env (Write value) st
        else if String.eqb action "Press Key" then
          blocking_call env (Press value) st
        else if String.eqb action "Hotkey" then
          blocking_call env
            (Hotkey (map PyStr.strip (PyStr.split "+" value))) st
        else st
    | Image path _ =>
        let loc := locate env (List.length (log st)) path in
        let st1 := blocking_call env (LocateCenterOnScreen path) st in
        match loc with
        | Found x y => blocking_call env (ClickAt x y) st1
        | NotFound =>
            set_is_running false (set_status (image_not_found path) st1)
        | Raised =>
            set_is_running false (set_status image_search_error st1)
        end
    | ConditionalRecord _ _ _ _ => st
    | Loop _ _ _ => st
    end.

(** The body shared by the three loops over sub-steps:
    [if not self.is_running: return], the sub-step's delay, then
    [self.execute_step(sub)]. *)
Definition sub_step (env : Surroundings) (sub : Step) (st : State) : Flow :=
  if negb (is_running st) then Return st
  else
    Continue
      (execute_step env sub (blocking_call env (Sleep (delay_of sub)) st)).

(** [case.get("value", "") and case["value"] in source_text] *)
Definition case_matches (source_text : string) (c : Case) : bool :=
  PyStr.truthy (value_of c) && PyStr.contains (value_of c) source_text.

(** The loop over the cases of [execute_conditional_record]; the boolean
    is the variable [matched] when the loop is left. *)
Fixpoint for_cases (env : Surroundings) (source_text : string)
    (cases : list Case) (st : State) : Flow * bool :=
  match cases with
  | [] => (Continue st, false)
  | c :: rest =>
      if case_matches source_text c then
        match for_each (sub_step env) (steps_of c) st with
        | Continue st' => (Continue st', true)     (* matched = True; break *)
        | Return st' => (Return st', false)
        end
      else for_cases env source_text rest st
  end.

(** [self.root.clipboard_get()], and [""] when it raises [tk.TclError]. *)
Definition source_text (env : Surroundings) (st : State) : string :=
  match clipboard env (List.length (log st)) with
  | Some text => text
  | None => ""
  end.

(** [AutomationApp.execute_conditional_record] *)
Definition execute_conditional_record (env : Surroundings) (step : Step)
    (st : State) : State :=
  if negb (is_running st) then st
  else
    match step with
    | ConditionalRecord _ cases else_steps _ =>
        match for_cases env (source_text env st) cases st with
        | (Return st', _) => st'
        | (Continue st', true) => st'
        | (Continue st', false) =>
            state_of (for_each (sub_step env) else_steps st')
        end
    | _ => st
    end.

Definition running_loop (i : nat) (count : Z) : string :=
  "Status: Running Loop " ++ PyStr.of_Z (Z.of_nat i + 1) ++ "/"
    ++ PyStr.of_Z count.

(** One iteration of the outer loop of [execute_loop_block]. *)
Definition iteration (env : Surroundings) (count : Z)
    (steps_to_repeat : list Step) (i : nat) (st : State) : Flow :=
  if negb (is_running st) then Return st
  else
    for_each (sub_step env) steps_to_repeat
      (set_status (running_loop i count) st).

(** [AutomationApp.execute_loop_block]; [range(count)] is empty for a
    count below one. *)
Definition execute_loop_block (env : Surroundings) (loop_step : Step)
    (st : State) : State :=
  match loop_step with
  | Loop count steps_to_repeat _ =>
      state_of
        (for_each (iteration env count steps_to_repeat)
           (seq 0 (Z.to_nat count)) st)
  | _ => st
  end.

(** The dispatcher inside the main loop. *)
Definition dispatch (env : Surroundings) (step : Step) (st : State) : State :=
  match step with
  | ConditionalRecord _ _ _ _ => execute_conditional_record env step st
  | Loop _ _ _ => execute_loop_block env step st
  | _ => execute_step env step st
  end.

(** The [while] loop of [run_workflow_loop], from program counter [pc];
    [fuel] bounds the number of iterations. *)
Fixpoint while_loop (env : Surroundings) (fuel : nat) (pc : nat)
    (st : State) : State :=
  match fuel with
  | O => st
  | S fuel' =>
      if is_running st && (pc <? List.length (workflow st))%nat then
        let st1 := selection_set pc st in
        match nth_error (workflow st1) pc with
        | None => st1
        | Some step =>
            let st2 := blocking_call env (Sleep (delay_of step)) st1 in
            if negb (is_running st2) then st2                 (* break *)
            else while_loop env fuel' (S pc) (dispatch env step st2)
        end
      else st
  end.

(** The clean-up after the main loop. *)
Definition clean_up (st : State) : State :=
  if is_running st then
    set_status "Status: Idle"
      (set_run_button "Run Workflow" (set_is_running false st))
  else st.

(** [AutomationApp.run_workflow_loop].  Every iteration advances [pc], so
    the loop makes at most [len(self.workflow)] iterations
    (see [while_loop_fuel]). *)
Definition run_workflow_loop (env : Surroundings) (st : State) : State :=
  let st1 := set_status "Status: Running..." st in
  clean_up (while_loop env (List.length (workflow st1)) 0 st1).

(** The calls one leaf action makes when nothing stops it, given the
    answer [look path] of the image search: what [execute_step] does past
    its first line.  A loop or a conditional block met as a sub-step makes
    no call. *)
Definition calls_of (look : string -> Located) (step : Step) : list Event :=
  match step with
  | Mouse action x y _ =>
      MoveTo x y :: (if String.eqb action "Click" then [Click] else [])
  | Keyboard action value _ =>
      if String.eqb action "Type Text" then [Write value]
      else if String.eqb action "Press Key" then [Press value]
      else if String.eqb action "Hotkey" then
        [Hotkey (map PyStr.strip (PyStr.split "+" value))]
      else []
  | Image path _ =>
      LocateCenterOnScreen path
        :: match look path with
           | Found x y => [ClickAt x y]
           | NotFound | Raised => []
           end
  | ConditionalRecord _ _ _ _ | Loop _ _ _ => []
  end.

(** ** Properties of states and logs used to state the results *)

(** The status an image search leaves when it fails. *)
Definition failure_status (path : string) (loc : Located) : option string :=
  match loc with
  | Found _ _ => None
  | NotFound => Some (image_not_found path)
  | Raised => Some image_search_error
  end.

(** Every failed search in the log is the last call made, has cleared
    the flag and has left its status. *)
Definition halted_by_image (env : Surroundings) (st : State) : Prop :=
  forall t path msg,
    nth_error (log st) t = Some (LocateCenterOnScreen path) ->
    failure_status path (locate env t path) = Some msg ->
    is_running st = false
    /\ List.length (log st) = S t
    /\ status_var st = msg.

(** For every call during which the button was pressed: the flag is
    clear, at most one more call was made after it, that call is not a
    delay, and if the call is itself a delay nothing at all was called
    after it and the status is the one [toggle_run] left. *)
Definition halted_by_stop (env : Surroundings) (st : State) : Prop :=
  forall t, (t < List.length (log st))%nat -> stop_at env t = true ->
    is_running st = false
    /\ (List.length (log st) <= S (S t))%nat
    /\ (forall d, nth_error (log st) (S t) <> Some (Sleep d))
    /\ (forall d, nth_error (log st) t = Some (Sleep d) ->
          List.length (log st) = S t
          /\ status_var st = "Status: Stopping..."%string).

(** Two states that differ at most in their status text. *)
Definition eq_but_status (a b : State) : Prop :=
  set_status "" a = set_status "" b.

Definition never_stopped (env : Surroundings) : Prop :=
  forall t, stop_at env t = false.

Definition always_found (env : Surroundings) : Prop :=
  forall t path, exists x y, locate env t path = Found x y.

(** [executed_in_order subs evs]: [evs] are the calls of executing the
    sub-steps [subs] one after the other, each leaf action after its own
    delay, every image search finding its target. *)
Inductive executed_in_order : list Step -> list Event -> Prop :=
| executed_nil : executed_in_order [] []
| executed_cons (sub : Step) (rest : list Step) (look : string -> Located)
    (evs : list Event) :
    (forall path, exists x y, look path = Found x y) ->
    executed_in_order rest evs ->
    executed_in_order (sub :: rest)
      (Sleep (delay_of sub) :: calls_of look sub ++ evs).

(** A mouse, keyboard or image step: the kinds [execute_step] acts on. *)
Definition is_leaf (step : Step) : bool :=
  match step with
  | Mouse _ _ _ _ | Keyboard _ _ _ | Image _ _ => true
  | ConditionalRecord _ _ _ _ | Loop _ _ _ => false
  end.

(** [time.sleep] raises [ValueError] on a negative number.  A step whose
    delay, and the delays of whose sub-steps at any depth, are not
    negative. *)
Fixpoint delays_accepted (step : Step) : bool :=
  PyFloat.leb PyFloat.zero (delay_of step)
  && match step with
     | ConditionalRecord _ cases else_steps _ =>
         forallb
           (fun c => match c with MkCase _ ss => forallb delays_accepted ss end)
           cases
         && forallb delays_accepted else_steps
     | Loop _ steps _ => forallb delays_accepted steps
     | _ => true
     end.

(** The image of an image step is found whenever it is searched for. *)
Definition always_finds (env : Surroundings) (step : Step) : Prop :=
  match step with
  | Image path _ => forall t, exists x y, locate env t path = Found x y
  | _ => True
  end.

(** A block emptied of its sub-steps; any other step as it is. *)
Definition hollow (step : Step) : Step :=
  match step with
  | ConditionalRecord source _ _ d => ConditionalRecord source [] [] d
  | Loop count _ d => Loop count [] d
  | _ => step
  end.

(** The ways a run that was started with the flag set can end: the status
    text and the label of the button. *)
Definition ended (st : State) : Prop :=
  status_var st = "Status: Idle"%string
    /\ run_button st = "Run Workflow"%string
  \/ status_var st = "Status: Stopping..."%string
    /\ run_button st = "Run Workflow"%string
  \/ exists path, status_var st = image_not_found path
  \/ status_var st = image_search_error.

(** The state of a run: the flag is set, or the run has ended. *)
Definition running_or_ended (st : State) : Prop :=
  is_running st = true \/ is_running st = false /\ ended st.

(** ** The recorder ([record_mouse_keyboard_session]) *)

Module Recorder.

(** A key as [pynput] reports it: a key with a character, or a named key
    such as [Key.esc] or [Key.enter]; [KeyNamed name] is the key for which
    [str(key).replace('Key.', '')] is [name]. *)
Inductive Key : Set :=
| KeyChar (c : ascii)
| KeyNamed (name : string).

Inductive Button : Set :=
| ButtonLeft
| ButtonRight
| ButtonMiddle.

(** One raw input event, with the reading [now()] gives while its handler
    runs. *)
Inductive RawEvent : Set :=
| KeyPress (key : Key) (time : float)
| MouseClick (x y : Z) (button : Button) (pressed : bool) (time : float).

(** The variables the handlers share, and whether each of the two
    listeners is still running. *)
Record Session : Set := mkSession {
  rec : list Step;
  start_time : option float;
  last_time : option float;
  right_pressed_time : option float;
  kb_listener : bool;
  ms_listener : bool
}.

Definition new_session : Session :=
  mkSession [] None None None true true.

(** [add_delay_and_append(step)]; [step] still lacks its delay. *)
Definition add_delay_and_append (step : float -> Step) (t : float)
    (s : Session) : Session :=
  let delay :=
    match start_time s, last_time s with
    | Some _, Some l => PyFloat.max0 (PyFloat.sub t l)
    | _, _ => PyFloat.zero
    end in
  mkSession (rec s ++ [step (PyFloat.round3 delay)])
    (match start_time s with None => Some t | Some t0 => Some t0 end)
    (Some t) (right_pressed_time s) (kb_listener s) (ms_listener s).

(** [on_press(key)]; the boolean is false when the handler returns
    [False], which stops the keyboard listener. *)
Definition on_press (key : Key) (t : float) (s : Session) : Session * bool :=
  match key with
  | KeyChar c =>
      (add_delay_and_append
         (Keyboard "Type Text" (String c EmptyString)) t s, true)
  | KeyNamed name =>
      if String.eqb name "esc" then (s, false)
      else (add_delay_and_append (Keyboard "Press Key" name) t s, true)
  end.

Definition is_right (b : Button) : bool :=
  match b with ButtonRight => true | _ => false end.

(** [on_click(x, y, button, pressed)]; the boolean is false when the
    handler returns [False], which stops the mouse listener.  A clock
    reading equal to zero counts as no reading, as in Python. *)
Definition on_click (stop_right_hold_sec : float) (x y : Z) (button : Button)
    (pressed : bool) (t : float) (s : Session) : Session * bool :=
  let s1 :=
    if is_right button && pressed then
      mkSession (rec s) (start_time s) (last_time s) (Some t)
        (kb_listener s) (ms_listener s)
    else s in
  let held_long_enough :=
    match right_pressed_time s1 with
    | Some t0 =>
        negb (mant t0 =? 0)
        && PyFloat.leb stop_right_hold_sec (PyFloat.sub t t0)
    | None => false
    end in
  if is_right button && negb pressed && held_long_enough then (s1, false)
  else if pressed then
    (add_delay_and_append (Mouse "Click" x y) t s1, true)
  else (s1, true).

Definition set_kb_listener (b : bool) (s : Session) : Session :=
  mkSession (rec s) (start_time s) (last_time s) (right_pressed_time s)
    b (ms_listener s).

Definition set_ms_listener (b : bool) (s : Session) : Session :=
  mkSession (rec s) (start_time s) (last_time s) (right_pressed_time s)
    (kb_listener s) b.

(** The two listeners at work on the stream of events.  Each listener
    hands its events to its own handler for as long as it runs and stops
    when the handler returns [False]; [kb_listener.join()] and
    [ms_listener.join()] return once both have stopped, and what follows
    in the stream is not seen. *)
Fixpoint listen (stop_right_hold_sec : float) (events : list RawEvent)
    (s : Session) : Session :=
  match events with
  | [] => s
  | ev :: rest =>
      if negb (kb_listener s) && negb (ms_listener s) then s
      else
        match ev with
        | KeyPress key t =>
            if kb_listener s then
              let (s', go) := on_press key t s in
              listen stop_right_hold_sec rest (set_kb_listener go s')
            else listen stop_right_hold_sec rest s
        | MouseClick x y button pressed t =>
            if ms_listener s then
              let (s', go) :=
                on_click stop_right_hold_sec x y button pressed t s in
              listen stop_right_hold_sec rest (set_ms_listener go s')
            else listen stop_right_hold_sec rest s
        end
  end.

(** The variables of the post-processing loop. *)
Record Merge : Set := mkMerge {
  merged : list Step;
  buffer_text : string;
  buffer_delay : float
}.

(** A keyboard step typing exactly one character. *)
Definition single_char (step : Step) : bool :=
  match step with
  | Keyboard action value _ =>
      String.eqb action "Type Text" && (String.length value =? 1)%nat
  | _ => false
  end.

Definition text_of (step : Step) : string :=
  match step with
  | Keyboard _ value _ => value
  | _ => EmptyString
  end.

(** [merged.append(...)] of the buffered text, when there is some. *)
Definition flush (m : Merge) : list Step :=
  if PyStr.truthy (buffer_text m) then
    merged m ++ [Keyboard "Type Text" (buffer_text m) (buffer_delay m)]
  else merged m.

(** The body of [for step in rec]. *)
Definition merge_step (m : Merge) (step : Step) : Merge :=
  if single_char step then
    mkMerge (merged m) (buffer_text m ++ text_of step)
      (if PyStr.truthy (buffer_text m) then buffer_delay m else delay_of step)
  else
    mkMerge (flush m ++ [step]) EmptyString (buffer_delay m).

(** The post-processing of [rec] into [merged]. *)
Definition merge_events (rec : list Step) : list Step :=
  flush (fold_left merge_step rec (mkMerge [] EmptyString PyFloat.zero)).

(** [record_mouse_keyboard_session(stop_key='esc', stop_right_hold_sec)],
    on the stream of events the two listeners receive; without [pynput]
    the result is the empty list. *)
Definition record_mouse_keyboard_session (pynput_available : bool)
    (stop_right_hold_sec : float) (events : list RawEvent) : list Step :=
  if pynput_available then
    merge_events (rec (listen stop_right_hold_sec events new_session))
  else [].

(** The text typed by a run of one-character steps. *)
Definition typed (run : list Step) : string :=
  fold_right (fun step text => (text_of step ++ text)%string) EmptyString run.

(** The post-processing loop from any point on: what [merged] still
    receives when [text] and [delay] are in the buffer and [rec] is left
    to read. *)
Fixpoint merge_from (text : string) (delay : float) (rec : list Step)
    : list Step :=
  match rec with
  | [] => flush (mkMerge [] text delay)
  | step :: rest =>
      if single_char step then
        merge_from (text ++ text_of step)
          (if PyStr.truthy text then delay else delay_of step) rest
      else
        flush (mkMerge [] text delay) ++ step :: merge_from EmptyString delay rest
  end.

(** A keyboard step that types text, of any length. *)
Definition is_type_text (step : Step) : bool :=
  match step with
  | Keyboard action _ _ => String.eqb action "Type Text"
  | _ => false
  end.

(** All the text the "Type Text" steps of a list type, in order. *)
Fixpoint typed_text (steps : list Step) : string :=
  match steps with
  | [] => EmptyString
  | step :: rest =>
      if is_type_text step then (text_of step ++ typed_text rest)%string
      else typed_text rest
  end.

(** No one-character step is followed at once by another one. *)
Fixpoint settled (steps : list Step) : bool :=
  match steps with
  | [] => true
  | step :: rest =>
      negb (single_char step
            && match rest with
               | next :: _ => single_char next
               | [] => false
               end)
      && settled rest
  end.

(** A delay that is a whole number of milliseconds, not negative. *)
Definition whole_ms (d : float) : Prop := expo d = -3 /\ 0 <= mant d.

(** The steps the handlers build: a click, typed text that is not empty,
    or the press of a named key other than Escape. *)
Definition recordable (step : Step) : Prop :=
  match step with
  | Mouse action _ _ _ => action = "Click"%string
  | Keyboard action value _ =>
      action = "Type Text"%string /\ value <> EmptyString
      \/ action = "Press Key"%string /\ value <> "esc"%string
  | _ => False
  end.

(** What holds of the steps recorded so far, at every moment of a
    session. *)
Definition well_recorded (s : Session) : Prop :=
  (rec s = [] -> start_time s = None)
  /\ (forall first rest, rec s = first :: rest ->
        delay_of first = PyFloat.ms 0)
  /\ Forall (fun step => whole_ms (delay_of step)) (rec s)
  /\ Forall recordable (rec s).

Definition is_key_event (ev : RawEvent) : bool :=
  match ev with KeyPress _ _ => true | MouseClick _ _ _ _ _ => false end.

Definition is_mouse_event (ev : RawEvent) : bool :=
  negb (is_key_event ev).

End Recorder.

(** ** The step dialogs and [add_step] *)

(** The Python built-ins the dialogs call: [int(text)] and [float(text)],
    [None] standing for [ValueError], and [os.path.isfile]. *)
Record Builtins : Type := mkBuiltins {
  int_of : string -> option Z;
  float_of : string -> option float;
  isfile : string -> bool
}.

(** Reading decimal text the way [int] and [float] do: white space around
    the number, a sign, digits, and for [float] a fraction and an exponent.
    Digit grouping with [_], digits outside ASCII and the words [inf] and
    [nan] are not covered: on them these readers answer [None]. *)
Module DecimalText.

Definition is_digit (c : ascii) : bool :=
  let n := nat_of_ascii c in (48 <=? n)%nat && (n <=? 57)%nat.

Definition digit (c : ascii) : Z := Z.of_nat (nat_of_ascii c) - 48.

(** The leading digits of [s] appended to the number [acc], how many they
    are on top of [n], and the rest of [s]. *)
Fixpoint span_digits (acc : Z) (n : nat) (s : string) : Z * nat * string :=
  match s with
  | String c s' =>
      if is_digit c then span_digits (10 * acc + digit c) (S n) s'
      else (acc, n, s)
  | EmptyString => (acc, n, s)
  end.

Definition split_sign (s : string) : Z * string :=
  match s with
  | String c r =>
      if Ascii.eqb c "-" then (-1, r)
      else if Ascii.eqb c "+" then (1, r)
      else (1, s)
  | EmptyString => (1, s)
  end.

(** A sign and at least one digit, and nothing else. *)
Definition signed_digits (s : string) : option Z :=
  let (sign, body) := split_sign s in
  match span_digits 0 0 body with
  | (v, S _, EmptyString) => Some (sign * v)
  | _ => None
  end.

Definition read_int (text : string) : option Z :=
  signed_digits (PyStr.strip text).

Definition exponent (s : string) : option Z :=
  match s with
  | EmptyString => Some 0
  | String c r =>
      if Ascii.eqb c "e" || Ascii.eqb c "E" then signed_digits r else None
  end.

Definition read_float (text : string) : option float :=
  let (sign, body) := split_sign (PyStr.strip text) in
  let '(iv, ni, after_int) := span_digits 0 0 body in
  let '(mv, nf, after_frac) :=
    match after_int with
    | String "." r => span_digits iv 0 r
    | _ => (iv, 0%nat, after_int)
    end in
  match (ni + nf)%nat, exponent after_frac with
  | S _, Some e => Some (Float (sign * mv) (e - Z.of_nat nf))
  | _, _ => None
  end.

(** The built-ins on decimal text, every path naming a file. *)
Definition builtins : Builtins := mkBuiltins read_int read_float (fun _ => true).

End DecimalText.

(** What a dialog leaves when OK is pressed: [self.result], and the text
    of the error box if one was shown. *)
Definition Outcome : Set := (option Step * option string)%type.

Module AddMouseStepDialog.

Record Entries : Set := mkEntries {
  action_var : string;
  x_entry : string;
  y_entry : string;
  delay_entry : string
}.

Definition apply (py : Builtins) (e : Entries) : Outcome :=
  match int_of py (x_entry e), int_of py (y_entry e),
        float_of py (delay_entry e) with
  | Some x, Some y, Some delay => (Some (Mouse (action_var e) x y delay), None)
  | _, _, _ =>
      (None, Some "Invalid coordinates or delay. Please enter valid numbers.")
  end.

(** [body]: the widgets as the dialog opens, filled from [init_data], a
    mouse step or nothing; [str_float] is [str] on floats. *)
Definition body (str_float : float -> string) (init_data : option Step)
    : Entries :=
  match init_data with
  | Some (Mouse action x y delay) =>
      mkEntries action (PyStr.of_Z x) (PyStr.of_Z y) (str_float delay)
  | _ => mkEntries "Click" "" "" (str_float (Float 1 (-1)))
  end.

(** [get_coords], once the three seconds are over: the position of the
    pointer replaces what the two coordinate entries held. *)
Definition get_coords (position : Z * Z) (e : Entries) : Entries :=
  mkEntries (action_var e) (PyStr.of_Z (fst position))
    (PyStr.of_Z (snd position)) (delay_entry e).

End AddMouseStepDialog.

Module AddKeyboardStepDialog.

Record Entries : Set := mkEntries {
  action_var : string;
  value_entry : string;
  delay_entry : string
}.

Definition apply (py : Builtins) (e : Entries) : Outcome :=
  if negb (PyStr.truthy (value_entry e)) then
    (None, Some "Value cannot be empty.")
  else
    match float_of py (delay_entry e) with
    | Some delay => (Some (Keyboard (action_var e) (value_entry e) delay), None)
    | None => (None, Some "Invalid delay. Please enter a valid number.")
    end.

(** [body], for [init_data] a keyboard step or nothing. *)
Definition body (str_float : float -> string) (init_data : option Step)
    : Entries :=
  match init_data with
  | Some (Keyboard action value delay) =>
      mkEntries action value (str_float delay)
  | _ => mkEntries "Type Text" "" (str_float (Float 1 (-1)))
  end.

End AddKeyboardStepDialog.

Module AddImageStepDialog.

(** [init_delay] is the ["delay"] entry of [init_data], if any. *)
Record Entries : Set := mkEntries {
  path_var : string;
  init_delay : option float
}.

Definition apply (py : Builtins) (e : Entries) : Outcome :=
  if negb (PyStr.truthy (path_var e)) || negb (isfile py (path_var e)) then
    (None, Some "You must select a valid image file.")
  else
    (Some (Image (path_var e)
             (match init_delay e with Some d => d | None => Float 5 (-1) end)),
     None).

(** [body], for [init_data] an image step or nothing. *)
Definition body (init_data : option Step) : Entries :=
  match init_data with
  | Some (Image path delay) => mkEntries path (Some delay)
  | _ => mkEntries "" None
  end.

End AddImageStepDialog.

Module AddConditionalRecordDialog.

Record Entries : Set := mkEntries {
  cases : list Case;
  else_steps : list Step;
  init_delay : option float
}.

Definition apply (e : Entries) : Outcome :=
  (Some (ConditionalRecord "clipboard" (cases e) (else_steps e)
           (match init_delay e with Some d => d | None => Float 1 (-1) end)),
   None).

(** [__init__], for [init_data] a conditional block or nothing: the
    lists are copied. *)
Definition body (init_data : option Step) : Entries :=
  match init_data with
  | Some (ConditionalRecord _ cases else_steps delay) =>
      mkEntries cases else_steps (Some delay)
  | _ => mkEntries [] [] None
  end.

End AddConditionalRecordDialog.

Module AddLoopDialog.

Record Entries : Set := mkEntries {
  count_entry : string;
  steps : list Step;
  init_delay : option float
}.

Definition apply (py : Builtins) (e : Entries) : Outcome :=
  match int_of py (count_entry e) with
  | Some count =>
      if count <? 0 then
        (None, Some "Invalid repeat count. Must be a positive integer.")
      else
        (Some (Loop count (steps e)
                 (match init_delay e with Some d => d | None => Float 1 (-1) end)),
         None)
  | None => (None, Some "Invalid repeat count. Must be a positive integer.")
  end.

(** [__init__] and [body], for [init_data] a loop block or nothing: the
    steps are copied, the count entry shows the count, 3 by default. *)
Definition body (init_data : option Step) : Entries :=
  match init_data with
  | Some (Loop count steps delay) =>
      mkEntries (PyStr.of_Z count) steps (Some delay)
  | _ => mkEntries "3" [] None
  end.

End AddLoopDialog.

(** The dialog [add_step(step_type)] opens, with what the user has entered
    when pressing OK. *)
Inductive Dialog : Set :=
| MouseDialog (e : AddMouseStepDialog.Entries)
| KeyboardDialog (e : AddKeyboardStepDialog.Entries)
| ImageDialog (e : AddImageStepDialog.Entries)
| ConditionalRecordDialog (e : AddConditionalRecordDialog.Entries)
| LoopDialog (e : AddLoopDialog.Entries).

Definition dialog_outcome (py : Builtins) (d : Dialog) : Outcome :=
  match d with
  | MouseDialog e => AddMouseStepDialog.apply py e
  | KeyboardDialog e => AddKeyboardStepDialog.apply py e
  | ImageDialog e => AddImageStepDialog.apply py e
  | ConditionalRecordDialog e => AddConditionalRecordDialog.apply e
  | LoopDialog e => AddLoopDialog.apply py e
  end.

(** [AutomationApp.add_step]: [if dialog.result: self.workflow.append(...)]. *)
Definition add_step (py : Builtins) (d : Dialog) (st : State) : State :=
  match fst (dialog_outcome py d) with
  | Some step => set_workflow (workflow st ++ [step]) st
  | None => st
  end.

(** ** Saving and loading ([json.dump], [json.load])

    [save_workflow] hands [self.workflow] to [json.dump(..., indent=4)] and
    [load_workflow] takes what [json.load] returns as the new workflow.
    [Json.value] are the Python values the two exchange; [Json.dumps] and
    [Json.loads] follow the [json] module of the standard library: the
    layout of [indent=4], the escapes of [ensure_ascii], and a reader that
    skips white space between tokens.  Characters are bytes here, and a
    float is the decimal pair of [float], which the writer writes in JSON's
    exponent notation ([5e-1] for one half) where Python writes the
    shortest decimal; the reader reads both forms. *)

Module Json.

Unset Elimination Schemes.

Inductive value : Set :=
| Null
| Bool (b : bool)
| Int (n : Z)
| Number (f : float)
| Str (s : string)
| Array (items : list value)
| Object (members : list (string * value)).

Set Elimination Schemes.

(** *** Writing *)

(** The double quote, character 34. *)
Definition double_quote : ascii :=
  Ascii false true false false false true false false.

Definition hex_digit (n : nat) : ascii :=
  ascii_of_nat (if (n <? 10)%nat then 48 + n else 87 + n).

(** One character of a string, as [ensure_ascii] writes it. *)
Definition escape_char (c : ascii) : string :=
  let n := nat_of_ascii c in
  if Ascii.eqb c double_quote then String "\" (String double_quote EmptyString)
  else if Ascii.eqb c "\" then "\\"
  else if (n =? 8)%nat then "\b"
  else if (n =? 9)%nat then "\t"
  else if (n =? 10)%nat then "\n"
  else if (n =? 12)%nat then "\f"
  else if (n =? 13)%nat then "\r"
  else if (n <? 32)%nat || (126 <? n)%nat then
    String "\" (String "u" (String "0" (String "0"
      (String (hex_digit (n / 16)) (String (hex_digit (n mod 16)) EmptyString)))))
  else String c EmptyString.

Fixpoint escape (s : string) : string :=
  match s with
  | EmptyString => EmptyString
  | String c s' => (escape_char c ++ escape s')%string
  end.

Definition quote (s : string) : string :=
  String double_quote (escape s ++ String double_quote EmptyString).

Fixpoint spaces (n : nat) : string :=
  match n with
  | O => EmptyString
  | S n' => String " " (spaces n')
  end.

(** The line break before an item at nesting depth [level]. *)
Definition newline (level : nat) : string :=
  String (ascii_of_nat 10) (spaces (4 * level)).

Definition write_float (f : float) : string :=
  (PyStr.of_Z (mant f) ++ String "e" (PyStr.of_Z (expo f)))%string.

Section Items.

Variable write : value -> string.
Variable sep close : string.

(** The items after the first one, each after a comma and a line break,
    and the closing bracket on a line of its own. *)
Fixpoint more_items (l : list value) : string :=
  match l with
  | [] => close
  | y :: l' => String "," (sep ++ write y ++ more_items l')
  end.

Fixpoint more_members (l : list (string * value)) : string :=
  match l with
  | [] => close
  | (k, y) :: l' =>
      String "," (sep ++ quote k ++ ": " ++ write y ++ more_members l')
  end.

End Items.

(** [json.dumps(v, indent=4)], for a value nested [level] deep. *)
Fixpoint dump (level : nat) (v : value) : string :=
  match v with
  | Null => "null"
  | Bool true => "true"
  | Bool false => "false"
  | Int n => PyStr.of_Z n
  | Number f => write_float f
  | Str s => quote s
  | Array [] => "[]"
  | Array (x :: xs) =>
      String "[" (newline (S level) ++ dump (S level) x
        ++ more_items (dump (S level)) (newline (S level))
             (newline level ++ "]") xs)
  | Object [] => "{}"
  | Object ((k, x) :: xs) =>
      String "{" (newline (S level) ++ quote k ++ ": " ++ dump (S level) x
        ++ more_members (dump (S level)) (newline (S level))
             (newline level ++ "}") xs)
  end.

Definition dumps (v : value) : string := dump 0 v.

(** *** Reading *)

Definition is_ws (c : ascii) : bool :=
  let n := nat_of_ascii c in
  (n =? 32)%nat || (n =? 9)%nat || (n =? 10)%nat || (n =? 13)%nat.

Fixpoint skip_ws (s : string) : string :=
  match s with
  | EmptyString => EmptyString
  | String c s' => if is_ws c then skip_ws s' else s
  end.

Definition hex_value (c : ascii) : option nat :=
  let n := nat_of_ascii c in
  if (48 <=? n)%nat && (n <=? 57)%nat then Some (n - 48)%nat
  else if (97 <=? n)%nat && (n <=? 102)%nat then Some (n - 87)%nat
  else if (65 <=? n)%nat && (n <=? 70)%nat then Some (n - 55)%nat
  else None.

(** The character a backslash escape stands for. *)
Definition unescape (c : ascii) : option ascii :=
  if Ascii.eqb c double_quote then Some c
  else if Ascii.eqb c "\" then Some c
  else if Ascii.eqb c "/" then Some c
  else if Ascii.eqb c "b" then Some (ascii_of_nat 8)
  else if Ascii.eqb c "t" then Some (ascii_of_nat 9)
  else if Ascii.eqb c "n" then Some (ascii_of_nat 10)
  else if Ascii.eqb c "f" then Some (ascii_of_nat 12)
  else if Ascii.eqb c "r" then Some (ascii_of_nat 13)
  else None.

Definition prepend (c : ascii) (r : option (string * string))
    : option (string * string) :=
  match r with
  | Some (s, rest) => Some (String c s, rest)
  | None => None
  end.

(** The characters of a string up to its closing quote, and what follows
    the quote.  A code point above 255 has no byte in this model. *)
Fixpoint read_string (s : string) : option (string * string) :=
  match s with
  | EmptyString => None
  | String c r =>
      if Ascii.eqb c double_quote then Some (EmptyString, r)
      else if Ascii.eqb c "\" then
        match r with
        | String e r1 =>
            if Ascii.eqb e "u" then
              match r1 with
              | String h1 (String h2 (String h3 (String h4 r2))) =>
                  match hex_value h1, hex_value h2, hex_value h3, hex_value h4 with
                  | Some 0%nat, Some 0%nat, Some a, Some b =>
                      prepend (ascii_of_nat (16 * a + b)) (read_string r2)
                  | _, _, _, _ => None
                  end
              | _ => None
              end
            else
              match unescape e with
              | Some c' => prepend c' (read_string r1)
              | None => None
              end
        | EmptyString => None
        end
      else if (nat_of_ascii c <? 32)%nat then None
      else prepend c (read_string r)
  end.

(** What may follow the digits of a number: nothing, or a character that
    is not a digit, a point or an exponent mark. *)
Definition ends_number (rest : string) : bool :=
  match rest with
  | EmptyString => true
  | String c _ =>
      negb (DecimalText.is_digit c || Ascii.eqb c "." || Ascii.eqb c "e"
            || Ascii.eqb c "E")
  end.

(** The exponent of a number, if there is one, after the mantissa [mv]
    with [nf] digits behind the point. *)
Definition read_exponent (sign mv : Z) (nf : nat) (fraction : bool)
    (r2 : string) : option (value * string) :=
  let plain :=
    if fraction then Some (Number (Float (sign * mv) (- Z.of_nat nf)), r2)
    else Some (Int (sign * mv), r2) in
  match r2 with
  | String c r3 =>
      if Ascii.eqb c "e" || Ascii.eqb c "E" then
        let (esign, r4) := DecimalText.split_sign r3 in
        match DecimalText.span_digits 0 0 r4 with
        | (ev, S _, r5) =>
            Some (Number (Float (sign * mv) (esign * ev - Z.of_nat nf)), r5)
        | (_, O, _) => None
        end
      else plain
  | EmptyString => plain
  end.

(** Digits, then an optional fraction and an optional exponent, which
    make the number a float. *)
Definition read_unsigned (sign : Z) (body : string) : option (value * string) :=
  let '(iv, ni, r1) := DecimalText.span_digits 0 0 body in
  if (ni =? 0)%nat then None
  else
    match r1 with
    | String c r =>
        if Ascii.eqb c "." then
          let '(mv, nf, r2) := DecimalText.span_digits iv 0 r in
          if (nf =? 0)%nat then None else read_exponent sign mv nf true r2
        else read_exponent sign iv 0 false r1
    | EmptyString => read_exponent sign iv 0 false r1
    end.

(** A number, with its optional minus sign. *)
Definition read_number (s : string) : option (value * string) :=
  match s with
  | String c r =>
      if Ascii.eqb c "-" then read_unsigned (-1) r else read_unsigned 1 s
  | EmptyString => None
  end.

(** One value, after any white space, and what follows it; an array after
    its first item has been reached; an object likewise.  [fuel] bounds
    the nesting and the number of items. *)
Fixpoint read_value (fuel : nat) (s : string) : option (value * string) :=
  match fuel with
  | O => None
  | S n =>
      match skip_ws s with
      | String "n" (String "u" (String "l" (String "l" r))) => Some (Null, r)
      | String "t" (String "r" (String "u" (String "e" r))) =>
          Some (Bool true, r)
      | String "f" (String "a" (String "l" (String "s" (String "e" r)))) =>
          Some (Bool false, r)
      | String "[" r =>
          match skip_ws r with
          | String "]" r' => Some (Array [], r')
          | r1 =>
              match read_items n r1 with
              | Some (items, r') => Some (Array items, r')
              | None => None
              end
          end
      | String "{" r =>
          match skip_ws r with
          | String "}" r' => Some (Object [], r')
          | r1 =>
              match read_members n r1 with
              | Some (members, r') => Some (Object members, r')
              | None => None
              end
          end
      | String c r =>
          if Ascii.eqb c double_quote then
            match read_string r with
            | Some (text, r') => Some (Str text, r')
            | None => None
            end
          else read_number (String c r)
      | EmptyString => None
      end
  end
with read_items (fuel : nat) (s : string) : option (list value * string) :=
  match fuel with
  | O => None
  | S n =>
      match read_value n s with
      | Some (v, r) =>
          match skip_ws r with
          | String "," r' =>
              match read_items n r' with
              | Some (vs, r'') => Some (v :: vs, r'')
              | None => None
              end
          | String "]" r' => Some ([v], r')
          | _ => None
          end
      | None => None
      end
  end
with read_members (fuel : nat) (s : string)
    : option (list (string * value) * string) :=
  match fuel with
  | O => None
  | S n =>
      match skip_ws s with
      | String c r =>
          if Ascii.eqb c double_quote then
            match read_string r with
            | Some (k, r1) =>
                match skip_ws r1 with
                | String ":" r2 =>
                    match read_value n r2 with
                    | Some (v, r3) =>
                        match skip_ws r3 with
                        | String "," r4 =>
                            match read_members n r4 with
                            | Some (ms, r5) => Some ((k, v) :: ms, r5)
                            | None => None
                            end
                        | String "}" r4 => Some ([(k, v)], r4)
                        | _ => None
                        end
                    | None => None
                    end
                | _ => None
                end
            | None => None
            end
          else None
      | EmptyString => None
      end
  end.

(** [json.loads(text)]: one value and nothing but white space after it.
    No value has more items or deeper nesting than its text has
    characters. *)
Definition loads (text : string) : option value :=
  match read_value (S (String.length text)) text with
  | Some (v, rest) =>
      match skip_ws rest with
      | EmptyString => Some v
      | String _ _ => None
      end
  | None => None
  end.

(** The characters a value can begin with. *)
Definition value_head (c : ascii) : bool :=
  DecimalText.is_digit c || Ascii.eqb c "-" || Ascii.eqb c double_quote
  || Ascii.eqb c "[" || Ascii.eqb c "{" || Ascii.eqb c "n"
  || Ascii.eqb c "t" || Ascii.eqb c "f".

(** [stops rest]: reading digits stops at once on [rest]. *)
Definition stops (rest : string) : Prop :=
  forall acc n, DecimalText.span_digits acc n rest = (acc, n, rest).

(** A bound on the fuel reading a value takes: its nodes and items. *)
Fixpoint size (v : value) : nat :=
  match v with
  | Array items =>
      S ((fix sum (l : list value) : nat :=
            match l with
            | [] => O
            | x :: l' => S (size x + sum l')
            end) items)
  | Object members =>
      S ((fix sum (l : list (string * value)) : nat :=
            match l with
            | [] => O
            | (_, x) :: l' => S (size x + sum l')
            end) members)
  | _ => 1%nat
  end.

Fixpoint items_size (l : list value) : nat :=
  match l with
  | [] => O
  | x :: l' => S (size x + items_size l')
  end.

Fixpoint members_size (l : list (string * value)) : nat :=
  match l with
  | [] => O
  | (_, x) :: l' => S (size x + members_size l')
  end.

(** [reads_back v]: the text of [v], at any depth and before any text that
    cannot continue a number, is read as [v], with enough fuel. *)
Definition reads_back (v : value) : Prop :=
  forall fuel level rest,
    (size v <= fuel)%nat -> ends_number rest = true ->
    read_value fuel (dump level v ++ rest) = Some (v, rest).

End Json.

(** *** The workflow as a document

    A step is held as a dictionary; [Document.of_step] is that dictionary,
    its entries in the order in which the program builds it, and
    [Document.step_of] reads a dictionary back by the names of its entries,
    as the engine does. *)

Module Document.

Import Json.

(** [members[key]], if there is such an entry. *)
Fixpoint get (key : string) (members : list (string * value)) : option value :=
  match members with
  | [] => None
  | (k, x) :: rest => if String.eqb k key then Some x else get key rest
  end.

Section Items.

Variable A : Type.
Variable read : value -> option A.

(** Every item of a list read with [read]. *)
Fixpoint all (items : list value) : option (list A) :=
  match items with
  | [] => Some []
  | x :: rest =>
      match read x, all rest with
      | Some a, Some l => Some (a :: l)
      | _, _ => None
      end
  end.

(** The entry [key], which must be a list, read item by item. *)
Fixpoint items_at (key : string) (members : list (string * value))
    : option (list A) :=
  match members with
  | [] => None
  | (k, x) :: rest =>
      if String.eqb k key then
        match x with
        | Array items => all items
        | _ => None
        end
      else items_at key rest
  end.

End Items.

Fixpoint of_step (step : Step) : value :=
  match step with
  | Mouse action x y delay =>
      Object [("type", Str "mouse"); ("action", Str action); ("x", Int x);
              ("y", Int y); ("delay", Number delay)]
  | Keyboard action text delay =>
      Object [("type", Str "keyboard"); ("action", Str action);
              ("value", Str text); ("delay", Number delay)]
  | Image path delay =>
      Object [("type", Str "image"); ("path", Str path);
              ("delay", Number delay)]
  | ConditionalRecord source cases else_steps delay =>
      Object [("type", Str "conditional_record"); ("source", Str source);
              ("cases", Array (map of_case cases));
              ("else_steps", Array (map of_step else_steps));
              ("delay", Number delay)]
  | Loop count steps delay =>
      Object [("type", Str "loop"); ("count", Int count);
              ("steps", Array (map of_step steps)); ("delay", Number delay)]
  end
with of_case (c : Case) : value :=
  match c with
  | MkCase text steps =>
      Object [("value", Str text); ("steps", Array (map of_step steps))]
  end.

Fixpoint step_of (v : value) : option Step :=
  match v with
  | Object members =>
      match get "type" members, get "delay" members with
      | Some (Str kind), Some (Number delay) =>
          if String.eqb kind "mouse" then
            match get "action" members, get "x" members, get "y" members with
            | Some (Str action), Some (Int x), Some (Int y) =>
                Some (Mouse action x y delay)
            | _, _, _ => None
            end
          else if String.eqb kind "keyboard" then
            match get "action" members, get "value" members with
            | Some (Str action), Some (Str text) =>
                Some (Keyboard action text delay)
            | _, _ => None
            end
          else if String.eqb kind "image" then
            match get "path" members with
            | Some (Str path) => Some (Image path delay)
            | _ => None
            end
          else if String.eqb kind "conditional_record" then
            match get "source" members, items_at case_of "cases" members,
                  items_at step_of "else_steps" members with
            | Some (Str source), Some cases, Some else_steps =>
                Some (ConditionalRecord source cases else_steps delay)
            | _, _, _ => None
            end
          else if String.eqb kind "loop" then
            match get "count" members, items_at step_of "steps" members with
            | Some (Int count), Some steps => Some (Loop count steps delay)
            | _, _ => None
            end
          else None
      | _, _ => None
      end
  | _ => None
  end
with case_of (v : value) : option Case :=
  match v with
  | Object members =>
      match get "value" members, items_at step_of "steps" members with
      | Some (Str text), Some steps => Some (MkCase text steps)
      | _, _ => None
      end
  | _ => None
  end.

(** The workflow as [json.dump] receives it. *)
Definition of_workflow (wf : list Step) : value := Array (map of_step wf).

(** The workflow in what [json.load] returns. *)
Definition workflow_of (v : value) : option (list Step) :=
  match v with
  | Array items => all step_of items
  | _ => None
  end.

End Document.

(** The files of the machine: the text stored under each path. *)
Definition Files : Type := string -> option string.

Definition write_file (path text : string) (files : Files) : Files :=
  fun p => if String.eqb p path then Some text else files p.

(** [AutomationApp.save_workflow], [fp] being the path chosen in the file
    dialog, empty when the dialog is cancelled. *)
Definition save_workflow (fp : string) (st : State) (files : Files) : Files :=
  if PyStr.truthy fp then
    write_file fp (Json.dumps (Document.of_workflow (workflow st))) files
  else files.

(** [AutomationApp.load_workflow]; [None] when opening or reading the file
    raises, or when what is read is not a list of steps. *)
Definition load_workflow (fp : string) (files : Files) (st : State)
    : option State :=
  if PyStr.truthy fp then
    match files fp with
    | Some text =>
        match Json.loads text with
        | Some v =>
            match Document.workflow_of v with
            | Some wf => Some (set_workflow wf st)
            | None => None
            end
        | None => None
        end
    | None => None
    end
  else Some st.

(** A character of plain text: printable ASCII, or the line feed. *)
Definition plain (c : ascii) : bool :=
  let n := nat_of_ascii c in
  ((32 <=? n) && (n <=? 126) || (n =? 10))%nat.

Fixpoint all_plain (s : string) : bool :=
  match s with
  | EmptyString => true
  | String c s' => plain c && all_plain s'
  end.

(** The entries the dialogs refuse: a coordinate or a delay that [int] or
    [float] cannot read, an empty keyboard value, a path that is empty or
    names no file, a repeat count that [int] cannot read or that is
    negative. *)
Definition rejected (py : Builtins) (d : Dialog) : Prop :=
  match d with
  | MouseDialog e =>
      int_of py (AddMouseStepDialog.x_entry e) = None
      \/ int_of py (AddMouseStepDialog.y_entry e) = None
      \/ float_of py (AddMouseStepDialog.delay_entry e) = None
  | KeyboardDialog e =>
      AddKeyboardStepDialog.value_entry e = EmptyString
      \/ float_of py (AddKeyboardStepDialog.delay_entry e) = None
  | ImageDialog e =>
      AddImageStepDialog.path_var e = EmptyString
      \/ isfile py (AddImageStepDialog.path_var e) = false
  | ConditionalRecordDialog _ => False
  | LoopDialog e =>
      int_of py (AddLoopDialog.count_entry e) = None
      \/ exists n, int_of py (AddLoopDialog.count_entry e) = Some n /\ n < 0
  end.

(** The row a run highlights is a row of the workflow. *)
Definition selection_in_range (st : State) : Prop :=
  match selection st with
  | Some idx => (idx < List.length (workflow st))%nat
  | None => True
  end.

(** ** The list of steps on screen *)

(** [get_step_display_text(step)]; [len] counts the bytes of a text
    here. *)
Definition get_step_display_text (step : Step) : string :=
  match step with
  | Mouse action x y _ =>
      "MOUSE " ++ action ++ " at (" ++ PyStr.of_Z x ++ "," ++ PyStr.of_Z y
        ++ ")"
  | Keyboard action value _ =>
      if String.eqb action "Type Text" then
        let preview :=
          if (20 <? String.length value)%nat then
            String.substring 0 20 value ++ "..."
          else value in
        "KEYBOARD " ++ action ++ ": '" ++ preview ++ "'"
      else "KEYBOARD " ++ action ++ ": '" ++ value ++ "'"
  | Image path _ => "IMAGE click '" ++ PyStr.basename path ++ "'"
  | ConditionalRecord source cases else_steps _ =>
      "COND-RECORD (" ++ source ++ ") "
        ++ PyStr.of_Z (Z.of_nat (List.length cases)) ++ " cases, else:"
        ++ PyStr.of_Z (Z.of_nat (List.length else_steps)) ++ " steps"
  | Loop count steps _ =>
      "LOOP BLOCK (" ++ PyStr.of_Z count ++ " times, "
        ++ PyStr.of_Z (Z.of_nat (List.length steps)) ++ " steps)"
  end%string.

(** [step["type"]] *)
Definition type_of (step : Step) : string :=
  match step with
  | Mouse _ _ _ _ => "mouse"
  | Keyboard _ _ _ => "keyboard"
  | Image _ _ => "image"
  | ConditionalRecord _ _ _ _ => "conditional_record"
  | Loop _ _ _ => "loop"
  end.

(** [items[idx] = x] and [del items[idx]], for an index within the list. *)
Definition list_set (A : Type) (idx : nat) (x : A) (items : list A) : list A :=
  firstn idx items ++ x :: skipn (S idx) items.

Definition list_del (A : Type) (idx : nat) (items : list A) : list A :=
  firstn idx items ++ skipn (S idx) items.

(** ** The user at a dialog

    A dialog opens with its widgets filled by [body]; the user changes
    them and presses OK, or cancels.  For each kind of dialog, the user is
    the function from what the widgets show to what they hold when OK is
    pressed, [None] standing for Cancel. *)

Record LeafUser : Type := mkLeafUser {
  at_mouse :
    AddMouseStepDialog.Entries -> option AddMouseStepDialog.Entries;
  at_keyboard :
    AddKeyboardStepDialog.Entries -> option AddKeyboardStepDialog.Entries;
  at_image : string -> option string
}.

(** [dialog.result] of the dialog that the class [dialog_map] of the
    sub-workflow editor has for [step_type], opened on [init_data]; there is
    no dialog, and no result, for another [step_type]. *)
Definition leaf_dialog_result (py : Builtins) (str_float : float -> string)
    (user : LeafUser) (step_type : string) (init_data : option Step)
    : option Step :=
  if String.eqb step_type "mouse" then
    match at_mouse user (AddMouseStepDialog.body str_float init_data) with
    | Some e => fst (AddMouseStepDialog.apply py e)
    | None => None
    end
  else if String.eqb step_type "keyboard" then
    match at_keyboard user
            (AddKeyboardStepDialog.body str_float init_data) with
    | Some e => fst (AddKeyboardStepDialog.apply py e)
    | None => None
    end
  else if String.eqb step_type "image" then
    let shown := AddImageStepDialog.body init_data in
    match at_image user (AddImageStepDialog.path_var shown) with
    | Some path =>
        fst (AddImageStepDialog.apply py
               (AddImageStepDialog.mkEntries path
                  (AddImageStepDialog.init_delay shown)))
    | None => None
    end
  else None.

(** ** The sub-workflow editor *)

Module SubWorkflowEditor.

(** The list the editor works on, which is the list of the dialog that
    opened it, the rows of its list box and the row selected. *)
Record Editor : Set := mkEditor {
  steps : list Step;
  listbox : list string;
  curselection : option nat
}.

(** [refresh_list]: deleting the rows clears the selection. *)
Definition refresh_list (e : Editor) : Editor :=
  mkEditor (steps e) (map get_step_display_text (steps e)) None.

(** [__init__] and [body] *)
Definition open (steps_list : list Step) : Editor :=
  refresh_list (mkEditor steps_list [] None).

Definition set_steps (l : list Step) (e : Editor) : Editor :=
  mkEditor l (listbox e) (curselection e).

(** Every method below answers [None] when it raises. *)

Definition add_step (py : Builtins) (str_float : float -> string)
    (user : LeafUser) (step_type : string) (e : Editor) : option Editor :=
  match leaf_dialog_result py str_float user step_type None with
  | Some result => Some (refresh_list (set_steps (steps e ++ [result]) e))
  | None => Some e
  end.

Definition edit_step (py : Builtins) (str_float : float -> string)
    (user : LeafUser) (e : Editor) : option Editor :=
  match curselection e with
  | None => Some e
  | Some idx =>
      match nth_error (steps e) idx with
      | None => None                                      (* IndexError *)
      | Some step_to_edit =>
          match leaf_dialog_result py str_float user (type_of step_to_edit)
                  (Some step_to_edit) with
          | Some result =>
              Some (refresh_list (set_steps (list_set idx result (steps e)) e))
          | None => Some e
          end
      end
  end.

Definition delete_step (e : Editor) : option Editor :=
  match curselection e with
  | None => Some e
  | Some idx =>
      if (idx <? List.length (steps e))%nat then
        Some (refresh_list (set_steps (list_del idx (steps e)) e))
      else None                                           (* IndexError *)
  end.

(** What the user can do in the editor: select a row that is there, or
    press one of the buttons. *)
Inductive Op : Type :=
| ClickRow (i : nat)
| AddStep (step_type : string) (user : LeafUser)
| EditStep (user : LeafUser)
| DeleteStep.

Definition click_row (i : nat) (e : Editor) : Editor :=
  if (i <? List.length (listbox e))%nat then
    mkEditor (steps e) (listbox e) (Some i)
  else e.

Definition handle (py : Builtins) (str_float : float -> string) (op : Op)
    (e : Editor) : option Editor :=
  match op with
  | ClickRow i => Some (click_row i e)
  | AddStep step_type user => add_step py str_float user step_type e
  | EditStep user => edit_step py str_float user e
  | DeleteStep => delete_step e
  end.

(** The list box shows the steps, row for step, and the selected row, if
    any, is one of its rows. *)
Definition in_step (e : Editor) : Prop :=
  listbox e = map get_step_display_text (steps e)
  /\ match curselection e with
     | Some idx => (idx < List.length (steps e))%nat
     | None => True
     end.

(** One session with the editor, from its opening on [steps_list] to its
    closing; an exception raised by a button's handler is reported and the
    editor goes on as it was. *)
Fixpoint session (py : Builtins) (str_float : float -> string)
    (ops : list Op) (e : Editor) : Editor :=
  match ops with
  | [] => e
  | op :: rest =>
      session py str_float rest
        (match handle py str_float op e with Some e' => e' | None => e end)
  end.

Definition edit (py : Builtins) (str_float : float -> string)
    (ops : list Op) (steps_list : list Step) : list Step :=
  steps (session py str_float ops (open steps_list)).

End SubWorkflowEditor.

(** ** The main window *)

(** The user at the dialogs of the main window: at the three dialogs the
    editor has too; at the conditional dialog, whose editing methods the
    program does not show, so that all that is known is the lists it holds
    when OK is pressed; at the loop dialog, with the text typed into the
    count entry, the sessions with the sub-workflow editor that "Edit
    Steps" opens, and whether the dialog is closed with OK. *)
Record User : Type := mkUser {
  leaf : LeafUser;
  at_conditional : list Case -> list Step -> option (list Case * list Step);
  at_count : string -> string;
  edit_steps : list (list SubWorkflowEditor.Op);
  loop_ok : bool
}.

(** [dialog.result] of the dialog of the main window for [step_type]. *)
Definition dialog_result (py : Builtins) (str_float : float -> string)
    (user : User) (step_type : string) (init_data : option Step)
    : option Step :=
  if String.eqb step_type "conditional_record" then
    let shown := AddConditionalRecordDialog.body init_data in
    match at_conditional user (AddConditionalRecordDialog.cases shown)
            (AddConditionalRecordDialog.else_steps shown) with
    | Some (cases, else_steps) =>
        fst (AddConditionalRecordDialog.apply
               (AddConditionalRecordDialog.mkEntries cases else_steps
                  (AddConditionalRecordDialog.init_delay shown)))
    | None => None
    end
  else if String.eqb step_type "loop" then
    let shown := AddLoopDialog.body init_data in
    let steps :=
      fold_left
        (fun steps_list ops => SubWorkflowEditor.edit py str_float ops steps_list)
        (edit_steps user) (AddLoopDialog.steps shown) in
    if loop_ok user then
      fst (AddLoopDialog.apply py
             (AddLoopDialog.mkEntries
                (at_count user (AddLoopDialog.count_entry shown)) steps
                (AddLoopDialog.init_delay shown)))
    else None
  else leaf_dialog_result py str_float (leaf user) step_type init_data.

(** The user who changes nothing in a dialog and presses OK. *)
Definition untouched_leaf : LeafUser := mkLeafUser Some Some Some.

Definition untouched : User :=
  mkUser untouched_leaf (fun cases else_steps => Some (cases, else_steps))
    (fun text => text) [] true.

(** The steps whose dialog accepts what it shows when it opens on them:
    the numbers read back from their text, the value of a keyboard step
    is not empty, the path of an image step still names a file, a
    conditional block reads the clipboard, a repeat count is not
    negative. *)
Definition reenterable (py : Builtins) (str_float : float -> string)
    (step : Step) : Prop :=
  match step with
  | Mouse _ x y delay =>
      int_of py (PyStr.of_Z x) = Some x /\ int_of py (PyStr.of_Z y) = Some y
      /\ float_of py (str_float delay) = Some delay
  | Keyboard _ value delay =>
      value <> EmptyString /\ float_of py (str_float delay) = Some delay
  | Image path _ => path <> EmptyString /\ isfile py path = true
  | ConditionalRecord source _ _ _ => source = "clipboard"%string
  | Loop count _ _ => int_of py (PyStr.of_Z count) = Some count /\ 0 <= count
  end.

Module App.

(** The application with the rows of its list box on screen. *)
Record Window : Set := mkWindow {
  state : State;
  steps_listbox : list string
}.

Definition selection_clear (st : State) : State :=
  mkState (workflow st) (is_running st) (run_button st) (status_var st)
    None (threads st) (log st).

(** The rows for the steps from the [i]-th on, numbered from [i + 1]. *)
Fixpoint rows (i : nat) (steps : list Step) : list string :=
  match steps with
  | [] => []
  | step :: rest =>
      (PyStr.of_Z (Z.of_nat i + 1) ++ ". " ++ get_step_display_text step)%string
        :: rows (S i) rest
  end.

(** [refresh_steps_list]: deleting the rows clears the selection. *)
Definition refresh_steps_list (w : Window) : Window :=
  mkWindow (selection_clear (state w)) (rows 0 (workflow (state w))).

Definition set_state (st : State) (w : Window) : Window :=
  mkWindow st (steps_listbox w).

(** Every method below answers [None] when it raises. *)

Definition add_step (py : Builtins) (str_float : float -> string)
    (user : User) (step_type : string) (w : Window) : option Window :=
  match dialog_result py str_float user step_type None with
  | Some result =>
      Some (refresh_steps_list
              (set_state
                 (set_workflow (workflow (state w) ++ [result]) (state w)) w))
  | None => Some w
  end.

Definition edit_selected_step (py : Builtins) (str_float : float -> string)
    (user : User) (w : Window) : option Window :=
  match selection (state w) with
  | None => Some w
  | Some idx =>
      match nth_error (workflow (state w)) idx with
      | None => None                                      (* IndexError *)
      | Some step_to_edit =>
          match dialog_result py str_float user (type_of step_to_edit)
                  (Some step_to_edit) with
          | Some result =>
              Some (refresh_steps_list
                      (set_state
                         (set_workflow
                            (list_set idx result (workflow (state w)))
                            (state w)) w))
          | None => Some w
          end
      end
  end.

(** [delete_selected_step]; [yes] is the answer to "Are you sure you want
    to delete this step?". *)
Definition delete_selected_step (yes : bool) (w : Window) : option Window :=
  match selection (state w) with
  | None => Some w
  | Some idx =>
      if yes then
        if (idx <? List.length (workflow (state w)))%nat then
          Some (refresh_steps_list
                  (set_state
                     (set_workflow (list_del idx (workflow (state w)))
                        (state w)) w))
        else None                                         (* IndexError *)
      else Some w
  end.

(** [load_workflow] with the refreshing of the list that follows it. *)
Definition load_workflow (fp : string) (files : Files) (w : Window)
    : option Window :=
  if PyStr.truthy fp then
    match load_workflow fp files (state w) with
    | Some st => Some (refresh_steps_list (set_state st w))
    | None => None
    end
  else Some w.

(** What the user can do in the main window: select a row that is there,
    press one of the buttons, or press Run and let the run go to its
    end.  A run in which [time.sleep] raises is not followed: [handle]
    answers [None] for it. *)
Inductive Op : Type :=
| ClickRow (i : nat)
| AddStep (step_type : string) (user : User)
| EditSelectedStep (user : User)
| DeleteSelectedStep (yes : bool)
| LoadWorkflow (fp : string) (files : Files)
| RunWorkflow (env : Surroundings).

Definition click_row (i : nat) (w : Window) : Window :=
  if (i <? List.length (steps_listbox w))%nat then
    set_state (selection_set i (state w)) w
  else w.

Definition handle (py : Builtins) (str_float : float -> string) (op : Op)
    (w : Window) : option Window :=
  match op with
  | ClickRow i => Some (click_row i w)
  | AddStep step_type user => add_step py str_float user step_type w
  | EditSelectedStep user => edit_selected_step py str_float user w
  | DeleteSelectedStep yes => delete_selected_step yes w
  | LoadWorkflow fp files => load_workflow fp files w
  | RunWorkflow env =>
      if forallb delays_accepted (workflow (state w)) then
        Some (set_state (run_workflow_loop env (toggle_run (state w))) w)
      else None                            (* [time.sleep] would raise *)
  end.

(** The window after [__init__]. *)
Definition init_window : Window := mkWindow init_app [].

(** The list box shows the workflow, row for step, and the selected row,
    if any, is one of its rows. *)
Definition in_step (w : Window) : Prop :=
  steps_listbox w = rows 0 (workflow (state w))
  /\ match selection (state w) with
     | Some idx => (idx < List.length (workflow (state w)))%nat
     | None => True
     end.

(** The windows the user can reach from the first one, one action after
    the other. *)
Inductive reachable (py : Builtins) (str_float : float -> string)
    : Window -> Prop :=
| reachable_init : reachable py str_float init_window
| reachable_step (op : Op) (w w' : Window) :
    reachable py str_float w -> handle py str_float op w = Some w' ->
    reachable py str_float w'.

End App.

(** ** The helper functions *)

(** What the helpers read of the machine: [os.sys.platform], the
    environment, whether [import Xlib] succeeds, and the exit status of
    [which scrot]. *)
Record Machine : Type := mkMachine {
  sys_platform : string;
  environ : string -> option string;
  xlib_importable : bool;
  which_scrot : Z
}.

Definition is_macos (m : Machine) : bool :=
  String.eqb (sys_platform m) "darwin".

(** [os.sys.platform.startswith("linux")] *)
Definition is_linux (m : Machine) : bool :=
  String.prefix "linux" (sys_platform m).

Definition get_hotkey_modifier (m : Machine) : string :=
  if is_macos m then "command" else "ctrl".

(** The truth value of what [running_on_wayland()] returns. *)
Definition running_on_wayland (m : Machine) : bool :=
  let session_is_wayland :=
    match environ m "XDG_SESSION_TYPE" with
    | Some v => String.eqb v "wayland"
    | None => false
    end in
  match environ m "WAYLAND_DISPLAY" with
  | Some v => if PyStr.truthy v then true else session_is_wayland
  | None => session_is_wayland
  end.

Definition missing_packages (m : Machine) : list string :=
  (if xlib_importable m then [] else ["python3-xlib"%string])
  ++ (if which_scrot m =? 0 then [] else ["scrot"%string]).

Definition wayland_notice : string :=
  "Detected Wayland session. Some desktop environments restrict simulated input. If hotkeys fail, try an X11 session or enable automation permissions.".

Definition line_feed : string := String (ascii_of_nat 10) EmptyString.

(** [warn_linux_requirements()]: the title and the text of the warning
    box, if one is asked for. *)
Definition warn_linux_requirements (m : Machine) : option (string * string) :=
  let missing := missing_packages m in
  let msgs :=
    (if running_on_wayland m then [wayland_notice] else [])
    ++ (if match missing with [] => false | _ :: _ => true end then
          [("Missing packages: " ++ PyStr.join ", " missing
            ++ ". Install for best compatibility.")%string]
        else []) in
  match msgs with
  | [] => None
  | _ :: _ =>
      Some ("Linux environment notice"%string,
            PyStr.join (line_feed ++ line_feed) msgs)
  end.

(** The warning [AutomationApp.__init__] schedules: on Linux only. *)
Definition startup_warning (m : Machine) : option (string * string) :=
  if is_linux m then warn_linux_requirements m else None.

(** ** Sample surroundings and states *)

(** Surroundings in which the button is never pressed and the clipboard
    cannot be read, for a given answer of every image search. *)
Definition quiet (answer : Located) : Surroundings :=
  mkSurroundings (fun _ _ => answer) (fun _ => false) (fun _ => None).

(** Surroundings in which the button is never pressed, every image is
    found at the origin and the clipboard holds [text]. *)
Definition with_clipboard (text : string) : Surroundings :=
  mkSurroundings (fun _ _ => Found 0 0) (fun _ => false) (fun _ => Some text).

(** Surroundings in which the button is pressed during call [t], and only
    then. *)
Definition pressed_during (t : nat) : Surroundings :=
  mkSurroundings (fun _ _ => Found 0 0) (fun t' => Nat.eqb t' t) (fun _ => None).

(** A workflow loaded into a fresh application whose Run button has just
    been pressed. *)
Definition started (wf : list Step) : State :=
  toggle_run (set_workflow wf init_app).

Definition ok_button : Step := Image "/home/user/ok_button.png" (Float 5 (-1)).

Definition type_text (text : string) : Step :=
  Keyboard "Type Text" text PyFloat.zero.

(** A user who, whatever a dialog shows, enters a click at (10, 20), the
    text [text] to type and the image [ok_button], each with the delay
    0.5 where there is an entry for it, puts one case and three repeats
    into the blocks, and fills the loop in one session with the editor. *)
Definition typist (text : string) : User :=
  mkUser
    (mkLeafUser
       (fun _ => Some (AddMouseStepDialog.mkEntries "Click" "10" "20" "0.5"))
       (fun _ =>
          Some (AddKeyboardStepDialog.mkEntries "Type Text" text "0.5"))
       (fun _ => Some "/home/user/ok_button.png"%string))
    (fun _ _ => Some ([MkCase "yes" [type_text "Y"]], [type_text "N"]))
    (fun _ => "3"%string)
    [[SubWorkflowEditor.AddStep "keyboard"
        (mkLeafUser (fun _ => None)
           (fun _ =>
              Some (AddKeyboardStepDialog.mkEntries "Type Text" text "0.5"))
           (fun _ => None))]]
    true.

(** The window after "Add Keyboard Step" with the text "hi" and a click on
    the row it made. *)
Definition sample_window : App.Window :=
  App.mkWindow
    (mkState [Keyboard "Type Text" "hi" (Float 5 (-1))] false "Run Workflow"
       "Status: Idle" (Some 0%nat) 0 [])
    ["1. KEYBOARD Type Text: 'hi'"%string].

(** * Results about the string helpers *)

Lemma prefix_app (n b : string) : String.prefix n (n ++ b) = true.
Proof.
  induction n as [|c n IH]; simpl; [destruct b; reflexivity|].
  destruct (ascii_dec c c); [exact IH|congruence].
Qed.

Lemma prefix_inv (n h : string) :
  String.prefix n h = true -> exists b, h = (n ++ b)%string.
Proof.
  revert h. induction n as [|c n IH]; intros h H.
  - exists h. reflexivity.
  - destruct h as [|c' h]; simpl in H; [discriminate|].
    destruct (ascii_dec c c') as [->|]; [|discriminate].
    destruct (IH _ H) as [b ->]. exists b. reflexivity.
Qed.

Lemma contains_unfold (n h : string) :
  PyStr.contains n h =
    String.prefix n h
    || match h with
       | EmptyString => false
       | String _ h' => PyStr.contains n h'
       end.
Proof. destruct h; reflexivity. Qed.

(** [PyStr.contains] is the substring test. *)
Lemma contains_spec (n h : string) :
  PyStr.contains n h = true <-> exists a b, h = (a ++ n ++ b)%string.
Proof.
  split.
  - induction h as [|c h IH]; rewrite contains_unfold, orb_true_iff.
    + intros [H|H]; [|discriminate].
      destruct (prefix_inv _ _ H) as [b ->]. exists EmptyString, b. reflexivity.
    + intros [H|H].
      * destruct (prefix_inv _ _ H) as [b ->]. exists EmptyString, b. reflexivity.
      * destruct (IH H) as (a & b & ->). exists (String c a), b. reflexivity.
  - intros (a & b & ->). induction a as [|c a IH].
    + rewrite contains_unfold. simpl. rewrite prefix_app. reflexivity.
    + rewrite contains_unfold. cbn [append]. rewrite IH. apply orb_true_r.
Qed.

Lemma contains_empty (h : string) : PyStr.contains "" h = true.
Proof. apply contains_spec. exists EmptyString, h. reflexivity. Qed.

(** * Results about the execution engine *)

Section EngineFacts.

Variable env : Surroundings.

(** *** Basic facts about the engine *)

Lemma blocking_call_eq (ev : Event) (st : State) :
  blocking_call env ev st =
    if stop_at env (List.length (log st)) && is_running st then
      set_status "Status: Stopping..."
        (set_run_button "Run Workflow"
           (set_is_running false (append_log ev st)))
    else append_log ev st.
Proof.
  unfold blocking_call, toggle_run.
  destruct (stop_at env (List.length (log st))); simpl; [|reflexivity].
  destruct (is_running st); reflexivity.
Qed.

Lemma log_blocking_call (ev : Event) (st : State) :
  log (blocking_call env ev st) = log st ++ [ev].
Proof.
  rewrite blocking_call_eq.
  destruct (stop_at env (List.length (log st)) && is_running st); reflexivity.
Qed.

Lemma is_running_blocking_call (ev : Event) (st : State) :
  is_running (blocking_call env ev st) =
    is_running st && negb (stop_at env (List.length (log st))).
Proof.
  rewrite blocking_call_eq.
  destruct (stop_at env (List.length (log st))), (is_running st) eqn:E;
    simpl; auto.
Qed.

Lemma workflow_blocking_call (ev : Event) (st : State) :
  workflow (blocking_call env ev st) = workflow st.
Proof.
  rewrite blocking_call_eq.
  destruct (stop_at env (List.length (log st)) && is_running st); reflexivity.
Qed.

(** Once the flag is clear, no engine method does anything. *)

Lemma execute_step_idle (step : Step) (st : State) :
  is_running st = false -> execute_step env step st = st.
Proof. intros H. unfold execute_step. rewrite H. reflexivity. Qed.

Lemma for_each_sub_step_idle (subs : list Step) (st : State) :
  is_running st = false -> state_of (for_each (sub_step env) subs st) = st.
Proof.
  intros H. destruct subs as [|sub rest]; simpl; [reflexivity|].
  unfold sub_step. rewrite H. reflexivity.
Qed.

Lemma execute_conditional_record_idle (step : Step) (st : State) :
  is_running st = false -> execute_conditional_record env step st = st.
Proof. intros H. unfold execute_conditional_record. rewrite H. reflexivity. Qed.

Lemma execute_loop_block_idle (step : Step) (st : State) :
  is_running st = false -> execute_loop_block env step st = st.
Proof.
  intros H. destruct step; simpl; try reflexivity.
  destruct (seq 0 (Z.to_nat count)) as [|i rest]; simpl; [reflexivity|].
  unfold iteration. rewrite H. reflexivity.
Qed.

Lemma dispatch_idle (step : Step) (st : State) :
  is_running st = false -> dispatch env step st = st.
Proof.
  intros H. destruct step; unfold dispatch;
    first [ apply execute_step_idle
          | apply execute_conditional_record_idle
          | apply execute_loop_block_idle ]; exact H.
Qed.

Lemma while_loop_idle (fuel pc : nat) (st : State) :
  is_running st = false -> while_loop env fuel pc st = st.
Proof. intros H. destruct fuel; simpl; [reflexivity|]. rewrite H. reflexivity. Qed.

(** *** Invariants of a run

    A property of the state that survives a delay, a leaf action, a
    status or selection update and the clean-up, each started while the
    flag is set, survives every method of the engine. *)

Section Invariants.

Variable I : State -> Prop.

Hypothesis I_sleep : forall d st,
  is_running st = true -> I st -> I (blocking_call env (Sleep d) st).
Hypothesis I_step : forall step st,
  is_running st = true -> I st -> I (execute_step env step st).
Hypothesis I_status : forall msg st,
  is_running st = true -> I st -> I (set_status msg st).
Hypothesis I_select : forall pc st,
  is_running st = true -> I st -> I (selection_set pc st).
Hypothesis I_clean_up : forall st,
  is_running st = true -> I st -> I (clean_up st).

Lemma I_execute_step (step : Step) (st : State) :
  I st -> I (execute_step env step st).
Proof.
  intros H. destruct (is_running st) eqn:E; [auto|].
  rewrite execute_step_idle; assumption.
Qed.

Lemma I_sub_step (sub : Step) (st : State) :
  I st -> I (state_of (sub_step env sub st)).
Proof.
  intros H. unfold sub_step.
  destruct (is_running st) eqn:E; simpl; [|assumption].
  apply I_execute_step. auto.
Qed.

Lemma I_for_each (A : Type) (body : A -> State -> Flow) (items : list A) :
  (forall x st, I st -> I (state_of (body x st))) ->
  forall st, I st -> I (state_of (for_each body items st)).
Proof.
  intros Hbody. induction items as [|x rest IH]; intros st H; simpl.
  - assumption.
  - specialize (Hbody x st H).
    destruct (body x st) as [st'|st']; simpl in *; auto.
Qed.

Lemma I_for_cases (source_text : string) (cases : list Case) (st : State) :
  I st -> I (state_of (fst (for_cases env source_text cases st))).
Proof.
  intros H. induction cases as [|c rest IH]; simpl; [assumption|].
  destruct (case_matches source_text c); [|assumption].
  pose proof (@I_for_each _ (sub_step env) (steps_of c) I_sub_step st H) as Hc.
  destruct (for_each (sub_step env) (steps_of c) st); assumption.
Qed.

Lemma I_execute_conditional_record (step : Step) (st : State) :
  I st -> I (execute_conditional_record env step st).
Proof.
  intros H. unfold execute_conditional_record.
  destruct (is_running st); simpl; [|assumption].
  destruct step; try assumption.
  match goal with
  | |- context [for_cases env ?src ?cs ?s] =>
      pose proof (@I_for_cases src cs s H) as Hc;
      destruct (for_cases env src cs s) as [[st'|st'] [|]]
  end; simpl in *; try assumption.
  apply I_for_each; [apply I_sub_step | assumption].
Qed.

Lemma I_iteration (count : Z) (body : list Step) (i : nat) (st : State) :
  I st -> I (state_of (iteration env count body i st)).
Proof.
  intros H. unfold iteration.
  destruct (is_running st) eqn:E; simpl; [|assumption].
  apply I_for_each; [apply I_sub_step | auto].
Qed.

Lemma I_execute_loop_block (step : Step) (st : State) :
  I st -> I (execute_loop_block env step st).
Proof.
  intros H. destruct step; simpl; try assumption.
  apply I_for_each; [apply I_iteration | assumption].
Qed.

Lemma I_dispatch (step : Step) (st : State) :
  I st -> I (dispatch env step st).
Proof.
  intros H. destruct step; unfold dispatch;
    first [ apply I_execute_step
          | apply I_execute_conditional_record
          | apply I_execute_loop_block ]; exact H.
Qed.

Lemma I_while_loop (fuel pc : nat) (st : State) :
  I st -> I (while_loop env fuel pc st).
Proof.
  revert pc st. induction fuel as [|fuel IH]; intros pc st H; simpl.
  - assumption.
  - destruct (is_running st) eqn:E; simpl; [|assumption].
    destruct (pc <? List.length (workflow st))%nat; [|assumption].
    destruct (nth_error (workflow st) pc) as [step|]; [|auto].
    assert (I (blocking_call env (Sleep (delay_of step)) (selection_set pc st)))
      as H2 by (apply I_sleep; auto).
    destruct (is_running (blocking_call env _ _)); simpl; [|assumption].
    apply IH, I_dispatch, H2.
Qed.

Lemma I_run_workflow_loop (st : State) :
  I (set_status "Status: Running..." st) -> I (run_workflow_loop env st).
Proof.
  intros H. unfold run_workflow_loop.
  match goal with
  | |- I (clean_up ?s) =>
      assert (I s) as Hw by (apply I_while_loop, H);
      destruct (is_running s) eqn:E; [auto|]
  end.
  unfold clean_up. rewrite E. assumption.
Qed.

End Invariants.

(** *** What a leaf action adds to the log *)

Lemma log_execute_step (step : Step) (st : State) :
  is_running st = true ->
  log (execute_step env step st) =
    log st ++ calls_of (locate env (List.length (log st))) step.
Proof.
  intros H. unfold execute_step, calls_of. rewrite H. simpl.
  destruct step; simpl.
  - destruct (String.eqb action "Click");
      rewrite ?log_blocking_call, <- ?app_assoc; reflexivity.
  - destruct (String.eqb action "Type Text");
      [rewrite log_blocking_call; reflexivity|].
    destruct (String.eqb action "Press Key");
      [rewrite log_blocking_call; reflexivity|].
    destruct (String.eqb action "Hotkey");
      [rewrite log_blocking_call; reflexivity|].
    rewrite app_nil_r. reflexivity.
  - destruct (locate env (List.length (log st)) path); simpl;
      rewrite ?log_blocking_call, <- ?app_assoc; reflexivity.
  - rewrite app_nil_r. reflexivity.
  - rewrite app_nil_r. reflexivity.
Qed.

Lemma calls_of_length (look : string -> Located) (step : Step) :
  (List.length (calls_of look step) <= 2)%nat.
Proof.
  destruct step; simpl; auto.
  - destruct (String.eqb action "Click"); simpl; lia.
  - destruct (String.eqb action "Type Text"); simpl; [lia|].
    destruct (String.eqb action "Press Key"); simpl; [lia|].
    destruct (String.eqb action "Hotkey"); simpl; lia.
  - destruct (look path); simpl; lia.
Qed.

Lemma calls_of_no_sleep (look : string -> Located) (step : Step) (d : float) :
  ~ In (Sleep d) (calls_of look step).
Proof.
  destruct step; simpl; try tauto.
  - destruct (String.eqb action "Click"); simpl; intuition discriminate.
  - destruct (String.eqb action "Type Text"); simpl; [intuition discriminate|].
    destruct (String.eqb action "Press Key"); simpl; [intuition discriminate|].
    destruct (String.eqb action "Hotkey"); simpl; intuition discriminate.
  - destruct (look path); simpl; intuition discriminate.
Qed.

(** A leaf action that returns with the flag set was not interrupted:
    the button was pressed during none of its calls. *)
Lemma execute_step_still_running (step : Step) (st : State) (t : nat) :
  is_running (execute_step env step st) = true ->
  (List.length (log st) <= t < List.length (log (execute_step env step st)))%nat ->
  stop_at env t = false.
Proof.
  intros Hrun Ht.
  destruct (is_running st) eqn:E;
    [|rewrite execute_step_idle in Ht by assumption; lia].
  revert Hrun Ht. unfold execute_step. rewrite E. simpl.
  destruct step; simpl.
  - destruct (String.eqb action "Click");
      rewrite ?is_running_blocking_call, ?log_blocking_call, ?length_app;
      simpl; rewrite ?andb_true_iff, ?negb_true_iff; intros Hr Ht;
      assert (t = List.length (log st) \/ t = S (List.length (log st)))
        as [->| ->] by lia; try tauto; try lia.
    replace (S (List.length (log st))) with (List.length (log st) + 1)%nat
      by lia. tauto.
  - destruct (String.eqb action "Type Text");
      [|destruct (String.eqb action "Press Key");
        [|destruct (String.eqb action "Hotkey")]];
      rewrite ?is_running_blocking_call, ?log_blocking_call, ?length_app;
      simpl; rewrite ?andb_true_iff, ?negb_true_iff; intros Hr Ht;
      try lia; assert (t = List.length (log st)) as -> by lia; tauto.
  - destruct (locate env (List.length (log st)) path); simpl;
      try discriminate.
    rewrite ?is_running_blocking_call, ?log_blocking_call, ?length_app;
      simpl; rewrite ?andb_true_iff, ?negb_true_iff; intros Hr Ht.
    assert (t = List.length (log st) \/ t = (List.length (log st) + 1)%nat)
      as [->| ->] by lia; tauto.
  - lia.
  - lia.
Qed.

(** *** A failed image search ends the run *)

Lemma nth_error_snoc (A : Type) (l : list A) (x y : A) (t : nat) :
  nth_error (l ++ [x]) t = Some y ->
  (t < List.length l)%nat /\ nth_error l t = Some y
  \/ t = List.length l /\ y = x.
Proof.
  intros H. destruct (Nat.lt_ge_cases t (List.length l)) as [Hlt|Hge].
  - left. rewrite nth_error_app1 in H by assumption. auto.
  - right. rewrite nth_error_app2 in H by assumption.
    destruct (t - List.length l)%nat as [|k] eqn:E; simpl in H.
    + split; [lia|congruence].
    + destruct k; discriminate.
Qed.

Lemma halted_by_image_sleep (d : float) (st : State) :
  is_running st = true -> halted_by_image env st ->
  halted_by_image env (blocking_call env (Sleep d) st).
Proof.
  intros Hrun HI t path msg Hn Hf. rewrite log_blocking_call in Hn.
  apply nth_error_snoc in Hn as [[_ Hn]|[_ Heq]]; [|discriminate].
  destruct (HI _ _ _ Hn Hf) as [Hstop _]. congruence.
Qed.

Lemma halted_by_image_step (step : Step) (st : State) :
  is_running st = true -> halted_by_image env st ->
  halted_by_image env (execute_step env step st).
Proof.
  intros Hrun HI t path msg Hn Hf.
  rewrite log_execute_step in Hn by assumption.
  destruct (Nat.lt_ge_cases t (List.length (log st))) as [Hlt|Hge].
  { rewrite nth_error_app1 in Hn by assumption.
    destruct (HI _ _ _ Hn Hf) as [Hstop _]. congruence. }
  rewrite nth_error_app2 in Hn by assumption.
  destruct step; simpl in Hn.
  - destruct (t - List.length (log st))%nat as [|[|k]];
      destruct (String.eqb action "Click"); simpl in Hn;
      try discriminate; destruct k; discriminate.
  - destruct (String.eqb action "Type Text");
      [|destruct (String.eqb action "Press Key");
        [|destruct (String.eqb action "Hotkey")]];
      destruct (t - List.length (log st))%nat as [|[|k]];
      simpl in Hn; discriminate.
  - destruct (t - List.length (log st))%nat as [|k] eqn:Et; simpl in Hn.
    + assert (t = List.length (log st)) as -> by lia.
      injection Hn as ->.
      unfold execute_step. rewrite Hrun. simpl.
      destruct (locate env (List.length (log st)) path); simpl in Hf;
        [discriminate| |]; injection Hf as <-; simpl;
        rewrite log_blocking_call, length_app; simpl;
        repeat split; lia.
    + destruct (locate env (List.length (log st)) path0);
        destruct k as [|[|k]]; simpl in Hn; discriminate.
  - destruct (t - List.length (log st))%nat; discriminate.
  - destruct (t - List.length (log st))%nat; discriminate.
Qed.

Lemma halted_by_image_running (st st' : State) :
  is_running st = true -> halted_by_image env st -> log st' = log st ->
  halted_by_image env st'.
Proof.
  intros Hrun HI Hlog t path msg Hn Hf. rewrite Hlog in Hn.
  destruct (HI _ _ _ Hn Hf) as [Hstop _]. congruence.
Qed.

Lemma halted_by_image_run (st : State) :
  log st = [] -> halted_by_image env (run_workflow_loop env st).
Proof.
  intros Hlog. apply I_run_workflow_loop.
  - apply halted_by_image_sleep.
  - apply halted_by_image_step.
  - intros msg s Hrun HI.
    eapply halted_by_image_running; [exact Hrun|exact HI|reflexivity].
  - intros pc s Hrun HI.
    eapply halted_by_image_running; [exact Hrun|exact HI|reflexivity].
  - intros s Hrun HI.
    eapply halted_by_image_running; [exact Hrun|exact HI|].
    unfold clean_up. rewrite Hrun. reflexivity.
  - intros t path msg Hn. simpl in Hn. rewrite Hlog in Hn.
    destruct t; discriminate.
Qed.

(** *** Pressing the button during a call ends the run *)

Lemma halted_by_stop_sleep (d : float) (st : State) :
  is_running st = true -> halted_by_stop env st ->
  halted_by_stop env (blocking_call env (Sleep d) st).
Proof.
  intros Hrun HI t Ht Hstop.
  rewrite log_blocking_call, length_app in *. simpl in Ht.
  destruct (Nat.lt_ge_cases t (List.length (log st))) as [Hlt|Hge].
  { destruct (HI _ Hlt Hstop) as [Hoff _]. congruence. }
  assert (t = List.length (log st)) as -> by lia.
  rewrite is_running_blocking_call, Hstop, Hrun. cbn [andb negb].
  repeat split; try (simpl; lia).
  - intros d' Hn. apply nth_error_snoc in Hn as [[Hlt _]|[Heq _]]; lia.
  - rewrite blocking_call_eq, Hstop, Hrun. reflexivity.
Qed.

Lemma halted_by_stop_step (step : Step) (st : State) :
  is_running st = true -> halted_by_stop env st ->
  halted_by_stop env (execute_step env step st).
Proof.
  intros Hrun HI t Ht Hstop.
  destruct (Nat.lt_ge_cases t (List.length (log st))) as [Hlt|Hge].
  { destruct (HI _ Hlt Hstop) as [Hoff _]. congruence. }
  split.
  { destruct (is_running (execute_step env step st)) eqn:E; [|reflexivity].
    rewrite (@execute_step_still_running step st t E) in Hstop
      by lia. discriminate. }
  rewrite log_execute_step in * by assumption.
  rewrite length_app in *.
  pose proof (calls_of_length (locate env (List.length (log st))) step).
  split; [lia|]. split.
  - intros d Hn. rewrite nth_error_app2 in Hn by lia.
    apply nth_error_In in Hn. exact (calls_of_no_sleep _ _ _ Hn).
  - intros d Hn. rewrite nth_error_app2 in Hn by lia.
    apply nth_error_In in Hn. destruct (calls_of_no_sleep _ _ _ Hn).
Qed.

Lemma halted_by_stop_running (st st' : State) :
  is_running st = true -> halted_by_stop env st -> log st' = log st ->
  halted_by_stop env st'.
Proof.
  intros Hrun HI Hlog t Ht Hstop. rewrite Hlog in Ht.
  destruct (HI _ Ht Hstop) as [Hoff _]. congruence.
Qed.

Lemma halted_by_stop_run (st : State) :
  log st = [] -> halted_by_stop env (run_workflow_loop env st).
Proof.
  intros Hlog. apply I_run_workflow_loop.
  - apply halted_by_stop_sleep.
  - apply halted_by_stop_step.
  - intros msg s Hrun HI.
    eapply halted_by_stop_running; [exact Hrun|exact HI|reflexivity].
  - intros pc s Hrun HI.
    eapply halted_by_stop_running; [exact Hrun|exact HI|reflexivity].
  - intros s Hrun HI.
    eapply halted_by_stop_running; [exact Hrun|exact HI|].
    unfold clean_up. rewrite Hrun. reflexivity.
  - intros t Ht. simpl in Ht. rewrite Hlog in Ht. simpl in Ht. lia.
Qed.

(** *** The main loop ends within [len(self.workflow)] iterations *)

Lemma workflow_execute_step (step : Step) (st : State) :
  workflow (execute_step env step st) = workflow st.
Proof.
  unfold execute_step. destruct (is_running st); simpl; [|reflexivity].
  destruct step; simpl; try reflexivity.
  - destruct (String.eqb action "Click");
      rewrite ?workflow_blocking_call; reflexivity.
  - destruct (String.eqb action "Type Text");
      [|destruct (String.eqb action "Press Key");
        [|destruct (String.eqb action "Hotkey")]];
      rewrite ?workflow_blocking_call; reflexivity.
  - destruct (locate env (List.length (log st)) path); simpl;
      rewrite ?workflow_blocking_call; reflexivity.
Qed.

(** The engine reads [self.workflow] and never writes it. *)
Lemma workflow_dispatch (step : Step) (st : State) :
  workflow (dispatch env step st) = workflow st.
Proof.
  apply (@I_dispatch (fun s => workflow s = workflow st)); try reflexivity.
  - intros d s _ H. rewrite workflow_blocking_call. exact H.
  - intros sub s _ H. rewrite workflow_execute_step. exact H.
  - intros msg s _ H. exact H.
Qed.

Lemma while_loop_S (fuel pc : nat) (st : State) :
  while_loop env (S fuel) pc st =
    if is_running st && (pc <? List.length (workflow st))%nat then
      match nth_error (workflow st) pc with
      | None => selection_set pc st
      | Some step =>
          let st2 := blocking_call env (Sleep (delay_of step)) (selection_set pc st) in
          if negb (is_running st2) then st2
          else while_loop env fuel (S pc) (dispatch env step st2)
      end
    else st.
Proof. reflexivity. Qed.

(** Fuel beyond the number of steps left is never used. *)
Lemma while_loop_fuel (fuel pc : nat) (st : State) :
  (List.length (workflow st) - pc <= fuel)%nat ->
  while_loop env (S fuel) pc st = while_loop env fuel pc st.
Proof.
  revert pc st. induction fuel as [|fuel IH]; intros pc st Hfuel.
  - rewrite while_loop_S. simpl.
    replace (pc <? List.length (workflow st))%nat with false
      by (symmetry; apply Nat.ltb_ge; lia).
    rewrite andb_false_r. reflexivity.
  - rewrite (while_loop_S (S fuel)), (while_loop_S fuel).
    destruct (is_running st && (pc <? List.length (workflow st))%nat);
      [|reflexivity].
    destruct (nth_error (workflow st) pc) as [step|]; [|reflexivity].
    cbv zeta. destruct (negb (is_running _)); [reflexivity|].
    apply IH.
    rewrite workflow_dispatch, workflow_blocking_call. simpl. lia.
Qed.

Lemma while_loop_enough_fuel (extra : nat) (st : State) :
  while_loop env (List.length (workflow st) + extra) 0 st =
    while_loop env (List.length (workflow st)) 0 st.
Proof.
  induction extra as [|extra IH].
  - rewrite Nat.add_0_r. reflexivity.
  - rewrite Nat.add_succ_r, while_loop_fuel by lia. exact IH.
Qed.

(** *** The status text does not steer the engine *)

Lemma eq_but_status_refl (a : State) : eq_but_status a a.
Proof. reflexivity. Qed.

Lemma eq_but_status_trans (a b c : State) :
  eq_but_status a b -> eq_but_status b c -> eq_but_status a c.
Proof. unfold eq_but_status. congruence. Qed.

Lemma eq_but_status_set_status (msg : string) (a : State) :
  eq_but_status (set_status msg a) a.
Proof. reflexivity. Qed.

Lemma eq_but_status_log (a b : State) : eq_but_status a b -> log a = log b.
Proof. intros H. apply (f_equal log) in H. exact H. Qed.

Lemma eq_but_status_is_running (a b : State) :
  eq_but_status a b -> is_running a = is_running b.
Proof. intros H. apply (f_equal is_running) in H. exact H. Qed.

Ltac same_fields a b H :=
  destruct a, b; unfold eq_but_status in H; simpl in H;
  injection H as -> -> -> -> -> ->.

Lemma eq_but_status_blocking_call (ev : Event) (a b : State) :
  eq_but_status a b ->
  eq_but_status (blocking_call env ev a) (blocking_call env ev b).
Proof.
  intros H. rewrite !blocking_call_eq. same_fields a b H. simpl.
  destruct (stop_at env _ && _); reflexivity.
Qed.

Lemma eq_but_status_failed (msg : string) (a b : State) :
  eq_but_status a b ->
  eq_but_status (set_is_running false (set_status msg a))
    (set_is_running false (set_status msg b)).
Proof. intros H. same_fields a b H. reflexivity. Qed.

Lemma eq_but_status_execute_step (step : Step) (a b : State) :
  eq_but_status a b ->
  eq_but_status (execute_step env step a) (execute_step env step b).
Proof.
  intros H. unfold execute_step.
  rewrite (eq_but_status_is_running H), (eq_but_status_log H).
  destruct (is_running b); simpl; [|exact H].
  destruct step; try exact H.
  - destruct (String.eqb action "Click");
      repeat apply eq_but_status_blocking_call; exact H.
  - destruct (String.eqb action "Type Text");
      [|destruct (String.eqb action "Press Key");
        [|destruct (String.eqb action "Hotkey")]];
      try apply eq_but_status_blocking_call; exact H.
  - destruct (locate env (List.length (log b)) path).
    + repeat apply eq_but_status_blocking_call. exact H.
    + apply eq_but_status_failed, eq_but_status_blocking_call, H.
    + apply eq_but_status_failed, eq_but_status_blocking_call, H.
Qed.

(** *** Loops over sub-steps *)

Lemma for_each_sub_step_return (subs : list Step) (st st' : State) :
  for_each (sub_step env) subs st = Return st' -> is_running st' = false.
Proof.
  revert st. induction subs as [|sub rest IH]; intros st; simpl.
  - discriminate.
  - unfold sub_step at 1. destruct (is_running st) eqn:E; simpl.
    + apply IH.
    + intros [= <-]. exact E.
Qed.

Lemma for_each_sub_step_cons (sub : Step) (rest : list Step) (st : State) :
  is_running st = true ->
  for_each (sub_step env) (sub :: rest) st =
    for_each (sub_step env) rest
      (execute_step env sub (blocking_call env (Sleep (delay_of sub)) st)).
Proof. intros H. simpl. unfold sub_step at 1. rewrite H. reflexivity. Qed.

(** Running two lists of sub-steps one after the other is running their
    concatenation. *)
Lemma for_each_sub_step_app (subs1 subs2 : list Step) (st : State) :
  state_of (for_each (sub_step env) (subs1 ++ subs2) st) =
    state_of (for_each (sub_step env) subs2 (state_of (for_each (sub_step env) subs1 st))).
Proof.
  revert st. induction subs1 as [|sub rest IH]; intros st.
  - reflexivity.
  - destruct (is_running st) eqn:E.
    + rewrite <- app_comm_cons, !for_each_sub_step_cons by assumption.
      apply IH.
    + rewrite (@for_each_sub_step_idle (sub :: rest) st E).
      rewrite !for_each_sub_step_idle by assumption. reflexivity.
Qed.

Lemma eq_but_status_for_each (subs : list Step) (a b : State) :
  eq_but_status a b ->
  eq_but_status (state_of (for_each (sub_step env) subs a))
    (state_of (for_each (sub_step env) subs b)).
Proof.
  revert a b. induction subs as [|sub rest IH]; intros a b H.
  - exact H.
  - pose proof (eq_but_status_is_running H) as Hr.
    destruct (is_running b) eqn:E.
    + rewrite !for_each_sub_step_cons by assumption.
      apply IH, eq_but_status_execute_step, eq_but_status_blocking_call, H.
    + rewrite !for_each_sub_step_idle by assumption. exact H.
Qed.

Lemma eq_but_status_sym (a b : State) :
  eq_but_status a b -> eq_but_status b a.
Proof. unfold eq_but_status. congruence. Qed.

(** The iterations of [execute_loop_block] make the calls of one flat
    loop over the body written out [n] times. *)
Lemma for_each_iteration_flat (count : Z) (body : list Step) (n a : nat)
    (st : State) :
  eq_but_status
    (state_of (for_each (iteration env count body) (seq a n) st))
    (state_of (for_each (sub_step env) (List.concat (repeat body n)) st)).
Proof.
  revert a st. induction n as [|n IH]; intros a st.
  - apply eq_but_status_refl.
  - change (List.concat (repeat body (S n))) with (body ++ List.concat (repeat body n)).
    rewrite for_each_sub_step_app.
    change (seq a (S n)) with (a :: seq (S a) n).
    cbn [for_each].
    replace (iteration env count body a st) with
      (if negb (is_running st) then Return st
       else for_each (sub_step env) body (set_status (running_loop a count) st))
      by reflexivity.
    destruct (is_running st) eqn:E; cbn [negb].
    + pose proof (eq_but_status_for_each body
                    (eq_but_status_set_status (running_loop a count) st)) as Hb.
      destruct (for_each (sub_step env) body (set_status _ st)) as [st'|st'] eqn:F;
        cbn [state_of] in *.
      * eapply eq_but_status_trans; [apply IH|].
        apply eq_but_status_for_each, Hb.
      * apply for_each_sub_step_return in F.
        rewrite for_each_sub_step_idle; [exact Hb|].
        rewrite <- (eq_but_status_is_running Hb). exact F.
    + cbn [state_of].
      rewrite (@for_each_sub_step_idle body st E).
      rewrite (@for_each_sub_step_idle _ st E).
      apply eq_but_status_refl.
Qed.

(** *** Runs that nothing interrupts *)

Lemma blocking_call_never_stopped (ev : Event) (st : State) :
  never_stopped env -> blocking_call env ev st = append_log ev st.
Proof. intros H. rewrite blocking_call_eq, H. reflexivity. Qed.

Lemma execute_step_uninterrupted (step : Step) (st : State) :
  never_stopped env -> always_found env -> is_running st = true ->
  is_running (execute_step env step st) = true
  /\ status_var (execute_step env step st) = status_var st.
Proof.
  intros Hs Hf Hrun. unfold execute_step. rewrite Hrun. simpl.
  destruct step; simpl; auto.
  - destruct (String.eqb action "Click");
      rewrite !blocking_call_never_stopped by assumption; auto.
  - destruct (String.eqb action "Type Text");
      [|destruct (String.eqb action "Press Key");
        [|destruct (String.eqb action "Hotkey")]];
      rewrite ?blocking_call_never_stopped by assumption; auto.
  - destruct (Hf (List.length (log st)) path) as (x & y & ->).
    rewrite !blocking_call_never_stopped by assumption. auto.
Qed.

Lemma for_each_sub_step_uninterrupted (subs : list Step) (st : State) :
  never_stopped env -> always_found env -> is_running st = true ->
  exists st' evs,
    for_each (sub_step env) subs st = Continue st'
    /\ log st' = log st ++ evs
    /\ executed_in_order subs evs
    /\ is_running st' = true
    /\ status_var st' = status_var st.
Proof.
  intros Hs Hf. revert st. induction subs as [|sub rest IH]; intros st Hrun.
  - exists st, []. rewrite app_nil_r. repeat split; auto. constructor.
  - rewrite for_each_sub_step_cons by assumption.
    set (st1 := blocking_call env (Sleep (delay_of sub)) st).
    assert (st1 = append_log (Sleep (delay_of sub)) st) as E1
      by (apply blocking_call_never_stopped; assumption).
    assert (is_running st1 = true) as Hrun1 by (rewrite E1; exact Hrun).
    destruct (@execute_step_uninterrupted sub st1 Hs Hf Hrun1) as [Hrun2 Hst2].
    destruct (IH _ Hrun2) as (st' & evs & Hfor & Hlog & Hex & Hrun' & Hst').
    exists st', (Sleep (delay_of sub)
                   :: calls_of (locate env (List.length (log st1))) sub ++ evs).
    repeat split; auto.
    + rewrite Hlog, log_execute_step by assumption.
      rewrite E1. simpl. rewrite <- !app_assoc. reflexivity.
    + constructor; [apply Hf | exact Hex].
    + rewrite Hst', Hst2, E1. reflexivity.
Qed.

(** *** Conditional blocks *)

Lemma for_cases_no_match (text : string) (cases : list Case) (st : State) :
  Forall (fun c => case_matches text c = false) cases ->
  for_cases env text cases st = (Continue st, false).
Proof.
  induction 1 as [|c rest Hc _ IH]; simpl; [reflexivity|].
  rewrite Hc. exact IH.
Qed.

Lemma for_cases_first_match (text : string) (pre : list Case) (c : Case)
    (post : list Case) (st : State) :
  Forall (fun c' => case_matches text c' = false) pre ->
  case_matches text c = true ->
  for_cases env text (pre ++ c :: post) st =
    match for_each (sub_step env) (steps_of c) st with
    | Continue st' => (Continue st', true)
    | Return st' => (Return st', false)
    end.
Proof.
  intros Hpre Hc. induction Hpre as [|c' rest Hc' _ IH]; simpl.
  - rewrite Hc. reflexivity.
  - rewrite Hc'. exact IH.
Qed.

Lemma for_cases_skip (text : string) (pre : list Case) (c : Case)
    (post : list Case) (st : State) :
  case_matches text c = false ->
  for_cases env text (pre ++ c :: post) st = for_cases env text (pre ++ post) st.
Proof.
  intros Hc. induction pre as [|c' rest IH]; simpl.
  - rewrite Hc. reflexivity.
  - destruct (case_matches text c'); [reflexivity|exact IH].
Qed.

Lemma execute_conditional_record_first_match (source : string)
    (pre : list Case) (c : Case) (post : list Case) (else_steps : list Step)
    (d : float) (st : State) :
  is_running st = true ->
  Forall (fun c' => case_matches (source_text env st) c' = false) pre ->
  case_matches (source_text env st) c = true ->
  execute_conditional_record env
    (ConditionalRecord source (pre ++ c :: post) else_steps d) st =
    state_of (for_each (sub_step env) (steps_of c) st).
Proof.
  intros Hrun Hpre Hc. unfold execute_conditional_record.
  rewrite Hrun, for_cases_first_match by assumption. simpl.
  destruct (for_each (sub_step env) (steps_of c) st); reflexivity.
Qed.

Lemma execute_conditional_record_no_match (source : string)
    (cases : list Case) (else_steps : list Step) (d : float) (st : State) :
  is_running st = true ->
  Forall (fun c => case_matches (source_text env st) c = false) cases ->
  execute_conditional_record env
    (ConditionalRecord source cases else_steps d) st =
    state_of (for_each (sub_step env) else_steps st).
Proof.
  intros Hrun Hno. unfold execute_conditional_record.
  rewrite Hrun, for_cases_no_match by assumption. reflexivity.
Qed.

Lemma executed_when_uninterrupted (subs : list Step) (st : State) :
  never_stopped env -> always_found env -> is_running st = true ->
  exists evs,
    log (state_of (for_each (sub_step env) subs st)) = log st ++ evs
    /\ executed_in_order subs evs.
Proof.
  intros Hs Hf Hrun.
  destruct (@for_each_sub_step_uninterrupted subs st Hs Hf Hrun)
    as (st' & evs & -> & Hlog & Hex & _).
  exists evs. auto.
Qed.

Lemma contains_basename (path : string) :
  PyStr.contains (PyStr.basename path) (image_not_found path) = true.
Proof.
  apply contains_spec.
  exists "Status: Image not found '"%string, "'"%string. reflexivity.
Qed.

(** *** The claims about the engine *)

(** C1 (amended): in every run started with an empty log, an image search
    that answers [None] (NotFound) or raises is the last call the run ever
    makes: no delay and no leaf action follows it, and the run ends with
    the flag clear.  After NotFound the final status is
    ["Status: Image not found '<base name>'"], which names the base name of
    the image file; after an exception it is the fixed text
    ["Status: Image search error. Is OpenCV installed?"]. *)
Theorem image_failure_halts_run (st : State) (t : nat) (path : string) :
  log st = [] ->
  nth_error (log (run_workflow_loop env st)) t
    = Some (LocateCenterOnScreen path) ->
  (locate env t path = NotFound ->
     is_running (run_workflow_loop env st) = false
     /\ List.length (log (run_workflow_loop env st)) = S t
     /\ status_var (run_workflow_loop env st)
        = ("Status: Image not found '" ++ PyStr.basename path ++ "'")%string
     /\ PyStr.contains (PyStr.basename path)
          (status_var (run_workflow_loop env st)) = true)
  /\ (locate env t path = Raised ->
     is_running (run_workflow_loop env st) = false
     /\ List.length (log (run_workflow_loop env st)) = S t
     /\ status_var (run_workflow_loop env st)
        = "Status: Image search error. Is OpenCV installed?"%string).
Proof.
  intros Hlog Hn. pose proof (@halted_by_image_run st Hlog t path) as H.
  split; intros Hloc.
  - destruct (H (image_not_found path) Hn) as (Hoff & Hlen & Hst).
    { rewrite Hloc. reflexivity. }
    repeat split; try assumption.
    rewrite Hst. apply contains_basename.
  - destruct (H image_search_error Hn) as (Hoff & Hlen & Hst).
    { rewrite Hloc. reflexivity. }
    repeat split; assumption.
Qed.




(** C10: a case whose value is the empty string never matches, although
    the empty string is a substring of every text: the conditional block
    behaves as if the case were not there, so its sub-steps never run.  A
    case that matches has a non-empty value. *)
Theorem empty_case_value_never_matches (c : Case) :
  value_of c = ""%string ->
  (forall text,
     PyStr.contains (value_of c) text = true
     /\ case_matches text c = false)
  /\ (forall source pre post else_steps d st,
        execute_conditional_record env
          (ConditionalRecord source (pre ++ c :: post) else_steps d) st
        = execute_conditional_record env
            (ConditionalRecord source (pre ++ post) else_steps d) st)
  /\ (forall text c', case_matches text c' = true -> value_of c' <> ""%string).
Proof.
  intros Hc.
  assert (forall text, case_matches text c = false) as Hno
    by (intros text; unfold case_matches; rewrite Hc; reflexivity).
  split; [|split].
  - intros text. split; [rewrite Hc; apply contains_empty | apply Hno].
  - intros source pre post else_steps d st. unfold execute_conditional_record.
    rewrite for_cases_skip by apply Hno. reflexivity.
  - intros text c' H. unfold case_matches in H.
    destruct (value_of c'); [discriminate|congruence].
Qed.

End EngineFacts.

(** * Results about the recorder *)

Section RecorderFacts.

Import Recorder.

Lemma single_char_inv (step : Step) :
  single_char step = true <->
  exists c delay, step = Keyboard "Type Text" (String c EmptyString) delay.
Proof.
  split.
  - destruct step; simpl; try discriminate.
    rewrite andb_true_iff, String.eqb_eq, Nat.eqb_eq. intros [-> Hlen].
    destruct value as [|c [|c' value]]; simpl in Hlen; try discriminate.
    exists c, delay. reflexivity.
  - intros (c & delay & ->). reflexivity.
Qed.

Lemma truthy_app_single (text : string) (step : Step) :
  single_char step = true -> PyStr.truthy (text ++ text_of step) = true.
Proof.
  intros H. apply single_char_inv in H as (c & delay & ->).
  destruct text; reflexivity.
Qed.

Lemma truthy_typed (first : Step) (more : list Step) :
  single_char first = true ->
  PyStr.truthy (typed (first :: more)) = true.
Proof.
  intros H. apply single_char_inv in H as (c & delay & ->). reflexivity.
Qed.

Lemma flush_merged (m : Merge) :
  flush m = merged m ++ flush (mkMerge [] (buffer_text m) (buffer_delay m)).
Proof.
  unfold flush. simpl. destruct (PyStr.truthy (buffer_text m)).
  - reflexivity.
  - rewrite app_nil_r. reflexivity.
Qed.

Lemma merge_step_single (m : Merge) (step : Step) :
  single_char step = true ->
  merge_step m step =
    mkMerge (merged m) (buffer_text m ++ text_of step)
      (if PyStr.truthy (buffer_text m) then buffer_delay m else delay_of step).
Proof. intros H. unfold merge_step. rewrite H. reflexivity. Qed.

Lemma merge_step_other (m : Merge) (step : Step) :
  single_char step = false ->
  merge_step m step = mkMerge (flush m ++ [step]) EmptyString (buffer_delay m).
Proof. intros H. unfold merge_step. rewrite H. reflexivity. Qed.

(** What has been appended to [merged] stays in front. *)
Lemma fold_merge_step_merged (steps : list Step) (m : Merge) :
  flush (fold_left merge_step steps m) =
    merged m
    ++ flush (fold_left merge_step steps
                (mkMerge [] (buffer_text m) (buffer_delay m))).
Proof.
  revert m. induction steps as [|step rest IH]; intros m; cbn [fold_left].
  - apply flush_merged.
  - destruct (single_char step) eqn:E.
    + rewrite !(merge_step_single _ _ E). cbn [merged buffer_text buffer_delay].
      apply IH.
    + rewrite !(merge_step_other _ _ E). cbn [merged buffer_text buffer_delay].
      etransitivity; [apply IH|]. symmetry.
      etransitivity; [apply f_equal, IH|].
      cbn [merged buffer_text buffer_delay].
      rewrite (flush_merged m), <- !app_assoc. reflexivity.
Qed.

(** With an empty buffer the remembered delay is never read. *)
Lemma fold_merge_step_stale_delay (steps : list Step) (done : list Step)
    (d1 d2 : float) :
  flush (fold_left merge_step steps (mkMerge done EmptyString d1)) =
    flush (fold_left merge_step steps (mkMerge done EmptyString d2)).
Proof.
  revert done. induction steps as [|step rest IH]; intros done;
    cbn [fold_left].
  - reflexivity.
  - destruct (single_char step) eqn:E.
    + rewrite !(merge_step_single _ _ E). reflexivity.
    + rewrite !(merge_step_other _ _ E). apply IH.
Qed.

(** A run of one-character steps only fills the buffer. *)
Lemma fold_merge_step_run (run : list Step) (m : Merge) :
  Forall (fun s => single_char s = true) run ->
  fold_left merge_step run m =
    mkMerge (merged m) (buffer_text m ++ typed run)
      (match run with
       | [] => buffer_delay m
       | first :: _ =>
           if PyStr.truthy (buffer_text m) then buffer_delay m
           else delay_of first
       end).
Proof.
  intros Hrun. revert m.
  induction Hrun as [|step rest Hstep _ IH]; intros m; simpl.
  - destruct m as [done text delay]. simpl.
    replace (text ++ "")%string with text; [reflexivity|].
    induction text as [|c text IHt]; simpl; congruence.
  - rewrite (merge_step_single _ _ Hstep), IH.
    cbn [merged buffer_text buffer_delay].
    rewrite (truthy_app_single _ _ Hstep).
    f_equal.
    + clear. induction (buffer_text m) as [|c text IHt]; simpl; congruence.
    + destruct rest; reflexivity.
Qed.

Lemma merge_events_run_then_other (first : Step) (more : list Step)
    (other : Step) (rest : list Step) :
  Forall (fun s => single_char s = true) (first :: more) ->
  single_char other = false ->
  merge_events ((first :: more) ++ other :: rest) =
    Keyboard "Type Text" (typed (first :: more)) (delay_of first)
      :: other :: merge_events rest.
Proof.
  intros Hrun Hother. unfold merge_events.
  rewrite fold_left_app, (fold_merge_step_run _ Hrun).
  cbn [fold_left merged buffer_text buffer_delay PyStr.truthy append].
  rewrite (merge_step_other _ _ Hother), fold_merge_step_merged.
  cbn [merged buffer_text buffer_delay].
  unfold flush at 1. cbn [merged buffer_text buffer_delay].
  assert (PyStr.truthy (typed (first :: more)) = true) as ->
    by (apply truthy_typed; inversion Hrun; assumption).
  rewrite (fold_merge_step_stale_delay rest [] _ PyFloat.zero).
  reflexivity.
Qed.

Lemma merge_events_run (first : Step) (more : list Step) :
  Forall (fun s => single_char s = true) (first :: more) ->
  merge_events (first :: more) =
    [Keyboard "Type Text" (typed (first :: more)) (delay_of first)].
Proof.
  intros Hrun. unfold merge_events.
  rewrite (fold_merge_step_run _ Hrun).
  unfold flush. cbn [merged buffer_text buffer_delay PyStr.truthy append].
  assert (PyStr.truthy (typed (first :: more)) = true) as ->
    by (apply truthy_typed; inversion Hrun; assumption).
  reflexivity.
Qed.

Lemma merge_events_other (other : Step) (rest : list Step) :
  single_char other = false ->
  merge_events (other :: rest) = other :: merge_events rest.
Proof.
  intros Hother. unfold merge_events. cbn [fold_left].
  rewrite (merge_step_other _ _ Hother), fold_merge_step_merged.
  reflexivity.
Qed.

End RecorderFacts.

(** *** The claims about the recorder *)

(** C6: the post-processing pass turns every maximal run of consecutive
    one-character "Type Text" steps into one "Type Text" step whose value
    is the characters of the run in order and whose delay is the delay of
    the first step of the run; a step of any other kind makes the pending
    text come out first and then comes out itself, unchanged; text still
    pending at the end of the list comes out last.  On
    [a, 100 ms] [b, 50 ms] [click] [c, 80 ms] the result is
    "ab" with 100 ms, the click, "c" with 80 ms. *)
Theorem coalescing_pass_merges_runs :
  (forall first more other rest,
     Forall (fun s => Recorder.single_char s = true) (first :: more) ->
     Recorder.single_char other = false ->
     Recorder.merge_events ((first :: more) ++ other :: rest) =
       Keyboard "Type Text" (Recorder.typed (first :: more)) (delay_of first)
         :: other :: Recorder.merge_events rest)
  /\ (forall other rest,
        Recorder.single_char other = false ->
        Recorder.merge_events (other :: rest) =
          other :: Recorder.merge_events rest)
  /\ (forall first more,
        Forall (fun s => Recorder.single_char s = true) (first :: more) ->
        Recorder.merge_events (first :: more) =
          [Keyboard "Type Text" (Recorder.typed (first :: more))
             (delay_of first)])
  /\ Recorder.merge_events [] = []
  /\ (forall x y d,
        Recorder.merge_events
          [Keyboard "Type Text" "a" (PyFloat.ms 100);
           Keyboard "Type Text" "b" (PyFloat.ms 50);
           Mouse "Click" x y d;
           Keyboard "Type Text" "c" (PyFloat.ms 80)]
        = [Keyboard "Type Text" "ab" (PyFloat.ms 100);
           Mouse "Click" x y d;
           Keyboard "Type Text" "c" (PyFloat.ms 80)]).
Proof.
  split; [|split; [|split; [|split]]].
  - apply merge_events_run_then_other.
  - apply merge_events_other.
  - apply merge_events_run.
  - reflexivity.
  - reflexivity.
Qed.

(** C7 (the code departs from the claim): one recording session, with a
    two-second threshold.  The user types "h", presses Escape, clicks the
    left button at (5, 5), holds the right button at (7, 7) for three
    seconds and releases it, then clicks at (9, 9).  Escape stops only the
    keyboard listener: the click at (5, 5), made after Escape, is recorded,
    and so is the press that begins the closing right-button hold, as a
    "Click" at (7, 7).  Only what follows the release is not recorded. *)
Theorem recording_goes_on_after_escape :
  Recorder.record_mouse_keyboard_session true (PyFloat.sec 2)
    [Recorder.KeyPress (Recorder.KeyChar "h") (PyFloat.sec 1000);
     Recorder.KeyPress (Recorder.KeyNamed "esc") (PyFloat.sec 1001);
     Recorder.MouseClick 5 5 Recorder.ButtonLeft true (PyFloat.sec 1002);
     Recorder.MouseClick 5 5 Recorder.ButtonLeft false (PyFloat.sec 1002);
     Recorder.MouseClick 7 7 Recorder.ButtonRight true (PyFloat.sec 1003);
     Recorder.MouseClick 7 7 Recorder.ButtonRight false (PyFloat.sec 1006);
     Recorder.MouseClick 9 9 Recorder.ButtonLeft true (PyFloat.sec 1007)]
  = [Keyboard "Type Text" "h" (PyFloat.ms 0);
     Mouse "Click" 5 5 (PyFloat.ms 2000);
     Mouse "Click" 7 7 (PyFloat.ms 1000)].
Proof. vm_compute. reflexivity. Qed.

(** * Results about the run controller and the dialogs *)

(** C5 (amended): [toggle_run] is the handler of one button.  Invoked
    while the flag is set it starts no execution thread: it clears the
    flag, sets the status to ["Status: Stopping..."] and the button to
    ["Run Workflow"].  Invoked while the flag is clear it sets the flag,
    sets the button to ["Stop"] and starts one execution thread.  In both
    cases the workflow and the log are left as they are. *)
Theorem toggle_run_stops_or_starts (st : State) :
  (is_running st = true ->
     is_running (toggle_run st) = false
     /\ threads (toggle_run st) = threads st
     /\ status_var (toggle_run st) = "Status: Stopping..."%string
     /\ run_button (toggle_run st) = "Run Workflow"%string)
  /\ (is_running st = false ->
        is_running (toggle_run st) = true
        /\ threads (toggle_run st) = S (threads st)
        /\ status_var (toggle_run st) = status_var st
        /\ run_button (toggle_run st) = "Stop"%string)
  /\ workflow (toggle_run st) = workflow st
  /\ log (toggle_run st) = log st.
Proof.
  unfold toggle_run.
  destruct (is_running st); simpl; repeat split; intros; try discriminate;
    repeat split.
Qed.

(** C8 (amended): a dialog confirmed with a coordinate or a delay that is
    not a number, an empty keyboard value, a repeat count that is not an
    integer or is negative, or a path that names no file, leaves no step
    and shows an error box, and [add_step] leaves the state, so the
    workflow, as it was.  Whenever a dialog leaves no step nothing is
    appended.  A repeat count of zero is accepted.  Entries with none of
    these faults yield a step, which is appended at the end of the
    workflow: the sign of a delay is not examined. *)
Theorem rejected_entries_append_nothing (py : Builtins) (d : Dialog)
    (st : State) :
  (rejected py d ->
     fst (dialog_outcome py d) = None
     /\ (exists message, snd (dialog_outcome py d) = Some message)
     /\ add_step py d st = st)
  /\ (fst (dialog_outcome py d) = None -> add_step py d st = st)
  /\ (forall e,
        d = LoopDialog e ->
        int_of py (AddLoopDialog.count_entry e) = Some 0 ->
        exists delay,
          dialog_outcome py d
            = (Some (Loop 0 (AddLoopDialog.steps e) delay), None))
  /\ (~ rejected py d ->
        exists step,
          dialog_outcome py d = (Some step, None)
          /\ workflow (add_step py d st) = workflow st ++ [step]).
Proof.
  split; [|split; [|split]].
  - intros Hrej.
    assert (exists message, dialog_outcome py d = (None, Some message)) as [m Hm].
    { destruct d as [e|e|e|e|e]; simpl in *.
      - unfold AddMouseStepDialog.apply.
        destruct (int_of py (AddMouseStepDialog.x_entry e));
          [|eexists; reflexivity].
        destruct (int_of py (AddMouseStepDialog.y_entry e));
          [|eexists; reflexivity].
        destruct (float_of py (AddMouseStepDialog.delay_entry e));
          [|eexists; reflexivity].
        destruct Hrej as [H|[H|H]]; discriminate.
      - unfold AddKeyboardStepDialog.apply.
        destruct (AddKeyboardStepDialog.value_entry e) eqn:Ev; simpl;
          [eexists; reflexivity|].
        destruct (float_of py (AddKeyboardStepDialog.delay_entry e));
          [|eexists; reflexivity].
        destruct Hrej as [H|H]; discriminate.
      - unfold AddImageStepDialog.apply.
        destruct Hrej as [-> | ->]; simpl; [eexists; reflexivity|].
        rewrite orb_true_r. eexists; reflexivity.
      - destruct Hrej.
      - unfold AddLoopDialog.apply.
        destruct Hrej as [-> |(n & -> & Hn)]; [eexists; reflexivity|].
        apply Z.ltb_lt in Hn. rewrite Hn. eexists; reflexivity. }
    unfold add_step. rewrite Hm. simpl. eauto.
  - intros Hnone. unfold add_step. rewrite Hnone. reflexivity.
  - intros e -> Hcount. simpl. unfold AddLoopDialog.apply.
    rewrite Hcount. simpl. eexists; reflexivity.
  - intros Hok.
    assert (exists step, dialog_outcome py d = (Some step, None)) as [s Hs].
    { destruct d as [e|e|e|e|e]; simpl in *.
      - unfold AddMouseStepDialog.apply.
        destruct (int_of py (AddMouseStepDialog.x_entry e)); [|tauto].
        destruct (int_of py (AddMouseStepDialog.y_entry e)); [|tauto].
        destruct (float_of py (AddMouseStepDialog.delay_entry e)); [|tauto].
        eexists; reflexivity.
      - unfold AddKeyboardStepDialog.apply.
        destruct (AddKeyboardStepDialog.value_entry e) eqn:Ev; simpl; [tauto|].
        destruct (float_of py (AddKeyboardStepDialog.delay_entry e)); [|tauto].
        eexists; reflexivity.
      - unfold AddImageStepDialog.apply.
        destruct (AddImageStepDialog.path_var e) eqn:Ep; simpl; [tauto|].
        destruct (isfile py (String a s)); simpl; [|tauto].
        eexists; reflexivity.
      - eexists; reflexivity.
      - unfold AddLoopDialog.apply.
        destruct (int_of py (AddLoopDialog.count_entry e)) as [n|]; [|tauto].
        destruct (n <? 0) eqn:En; [|eexists; reflexivity].
        apply Z.ltb_lt in En. exfalso. apply Hok. right. eauto. }
    exists s. split; [exact Hs|]. unfold add_step. rewrite Hs. reflexivity.
Qed.

(** * Results about saving and loading *)

Unset Implicit Arguments.

Section JsonFacts.

Import Json.

Lemma string_app_assoc (a b c : string) :
  ((a ++ b) ++ c)%string = (a ++ (b ++ c))%string.
Proof. induction a as [|x a IH]; simpl; congruence. Qed.

(** An induction principle that reaches the items of arrays and the
    members of objects. *)
Lemma value_induction (P : value -> Prop) :
  P Null ->
  (forall b, P (Bool b)) ->
  (forall n, P (Int n)) ->
  (forall f, P (Number f)) ->
  (forall s, P (Str s)) ->
  (forall items, Forall P items -> P (Array items)) ->
  (forall members, Forall (fun m => P (snd m)) members -> P (Object members)) ->
  forall v, P v.
Proof.
  intros HNull HBool HInt HNumber HStr HArray HObject.
  fix IH 1. intros [ |b|n|f|s|items|members].
  - exact HNull.
  - apply HBool.
  - apply HInt.
  - apply HNumber.
  - apply HStr.
  - apply HArray. induction items as [|x items IHitems]; constructor.
    + apply IH.
    + exact IHitems.
  - apply HObject. induction members as [|[k x] members IHmembers]; constructor.
    + apply IH.
    + exact IHmembers.
Qed.

(** *** White space *)

Lemma skip_ws_spaces (n : nat) (s : string) :
  skip_ws (spaces n ++ s) = skip_ws s.
Proof. induction n as [|n IH]; simpl; [reflexivity|exact IH]. Qed.

Lemma skip_ws_newline (level : nat) (s : string) :
  skip_ws (newline level ++ s) = skip_ws s.
Proof. unfold newline. simpl. apply skip_ws_spaces. Qed.

(** *** Strings *)

Lemma read_string_escape_char (c : ascii) (s : string) :
  read_string (escape_char c ++ s) = prepend c (read_string s).
Proof.
  destruct c as [[|] [|] [|] [|] [|] [|] [|] [|]]; reflexivity.
Qed.

Lemma read_string_escape (s rest : string) :
  read_string (escape s ++ String double_quote rest) = Some (s, rest).
Proof.
  induction s as [|c s IH]; simpl.
  - reflexivity.
  - rewrite string_app_assoc, read_string_escape_char, IH. reflexivity.
Qed.

Lemma quote_eq (s rest : string) :
  (quote s ++ rest)%string =
    String double_quote (escape s ++ String double_quote rest).
Proof. unfold quote. simpl. rewrite string_app_assoc. reflexivity. Qed.

(** *** Numbers *)

Lemma ends_number_stops (rest : string) :
  ends_number rest = true -> stops rest.
Proof.
  intros H acc n. destruct rest as [|c rest]; [reflexivity|].
  simpl in *. destruct (DecimalText.is_digit c); [discriminate|reflexivity].
Qed.

Lemma span_digits_uint_pos (u : Decimal.uint) (a : positive) (n : nat)
    (rest : string) :
  stops rest ->
  DecimalText.span_digits (Z.pos a) n (NilEmpty.string_of_uint u ++ rest) =
    (Z.pos (Pos.of_uint_acc u a),
     (n + String.length (NilEmpty.string_of_uint u))%nat, rest).
Proof.
  intros Hrest. revert a n.
  induction u as [|u IH|u IH|u IH|u IH|u IH|u IH|u IH|u IH|u IH|u IH];
    intros a n;
    cbn [NilEmpty.string_of_uint String.length append Pos.of_uint_acc];
    [rewrite Hrest, Nat.add_0_r; reflexivity|..];
    cbn [DecimalText.span_digits];
    match goal with
    | |- context [DecimalText.is_digit ?c] =>
        change (DecimalText.is_digit c) with true; cbv iota
    end;
    match goal with
    | |- context [DecimalText.digit ?c] =>
        let d := eval vm_compute in (DecimalText.digit c) in
        change (DecimalText.digit c) with d
    end;
    match goal with
    | |- DecimalText.span_digits ?acc _ _ = (Z.pos (Pos.of_uint_acc _ ?b), _, _) =>
        replace acc with (Z.pos b) by lia
    end;
    rewrite IH; f_equal; f_equal; lia.
Qed.

Lemma span_digits_uint (u : Decimal.uint) (n : nat) (rest : string) :
  stops rest ->
  DecimalText.span_digits 0 n (NilEmpty.string_of_uint u ++ rest) =
    (Z.of_N (Pos.of_uint u),
     (n + String.length (NilEmpty.string_of_uint u))%nat, rest).
Proof.
  intros Hrest. revert n.
  induction u as [|u IH|u IH|u IH|u IH|u IH|u IH|u IH|u IH|u IH|u IH];
    intros n; cbn [NilEmpty.string_of_uint String.length append Pos.of_uint];
    [rewrite Hrest, Nat.add_0_r; reflexivity|..];
    cbn [DecimalText.span_digits];
    match goal with
    | |- context [DecimalText.is_digit ?c] =>
        change (DecimalText.is_digit c) with true; cbv iota
    end;
    match goal with
    | |- context [DecimalText.digit ?c] =>
        let d := eval vm_compute in (DecimalText.digit c) in
        change (DecimalText.digit c) with d
    end;
    change (10 * 0 + 0) with 0;
    [rewrite IH; f_equal; f_equal; lia|..];
    match goal with
    | |- DecimalText.span_digits ?acc _ _ = _ =>
        let p := eval vm_compute in acc in change acc with p
    end;
    rewrite span_digits_uint_pos by assumption; f_equal; f_equal; lia.
Qed.

(** The text of a positive number: its digits, the first of them ahead. *)
Lemma of_Z_pos (p : positive) :
  PyStr.of_Z (Z.pos p) = NilEmpty.string_of_uint (Pos.to_uint p).
Proof.
  unfold PyStr.of_Z. simpl.
  pose proof (DecimalPos.Unsigned.to_uint_nonnil p) as H.
  unfold NilZero.string_of_uint. destruct (Pos.to_uint p); congruence.
Qed.

Lemma of_Z_neg (p : positive) :
  PyStr.of_Z (Z.neg p) = String "-" (PyStr.of_Z (Z.pos p)).
Proof. reflexivity. Qed.

Lemma of_Z_head (z : Z) :
  0 <= z ->
  exists c s, PyStr.of_Z z = String c s /\ DecimalText.is_digit c = true.
Proof.
  intros Hz. destruct z as [|p|p]; [| |lia].
  - exists "0"%char, EmptyString. split; reflexivity.
  - rewrite of_Z_pos.
    pose proof (DecimalPos.Unsigned.to_uint_nonnil p) as H.
    destruct (Pos.to_uint p); try congruence;
      eexists; eexists; split; reflexivity.
Qed.

Lemma of_Z_head_signed (z : Z) (rest : string) :
  exists c s,
    (PyStr.of_Z z ++ rest)%string = String c s
    /\ DecimalText.is_digit c || Ascii.eqb c "-" = true.
Proof.
  destruct z as [|p|p].
  - eexists; eexists; split; reflexivity.
  - destruct (of_Z_head (Z.pos p)) as (c & s & Hs & Hc); [lia|].
    exists c, (s ++ rest)%string. rewrite Hs, Hc. split; reflexivity.
  - eexists; eexists; split; reflexivity.
Qed.

Lemma span_digits_of_Z (z : Z) (rest : string) :
  0 <= z -> stops rest ->
  exists k, DecimalText.span_digits 0 0 (PyStr.of_Z z ++ rest) = (z, S k, rest).
Proof.
  intros Hz Hrest. destruct z as [|p|p]; [| |lia].
  - exists 0%nat. change (PyStr.of_Z 0) with "0"%string. simpl.
    rewrite Hrest. reflexivity.
  - rewrite of_Z_pos, span_digits_uint by assumption.
    rewrite DecimalPos.Unsigned.of_to.
    destruct (of_Z_head (Z.pos p)) as (c & s & Hs & _); [lia|].
    rewrite of_Z_pos in Hs. rewrite Hs. simpl. eauto.
Qed.

Lemma digit_not_mark (c : ascii) :
  DecimalText.is_digit c = true ->
  Ascii.eqb c "-" = false /\ Ascii.eqb c "+" = false
  /\ Json.is_ws c = false.
Proof.
  destruct c as [[|] [|] [|] [|] [|] [|] [|] [|]]; try discriminate;
    repeat split.
Qed.

Lemma read_exponent_plain (sign mv : Z) (rest : string) :
  ends_number rest = true ->
  read_exponent sign mv 0 false rest = Some (Int (sign * mv), rest).
Proof.
  intros H. destruct rest as [|c rest]; [reflexivity|].
  simpl in *. destruct (Ascii.eqb c "e"), (Ascii.eqb c "E");
    rewrite ?orb_true_r in H; simpl in H; try discriminate; reflexivity.
Qed.

Lemma read_unsigned_int (sign z : Z) (rest : string) :
  0 <= z -> ends_number rest = true ->
  read_unsigned sign (PyStr.of_Z z ++ rest) = Some (Int (sign * z), rest).
Proof.
  intros Hz Hrest. unfold read_unsigned.
  destruct (span_digits_of_Z z rest Hz (ends_number_stops _ Hrest)) as [k ->].
  cbn [Nat.eqb].
  destruct rest as [|c rest]; [reflexivity|].
  replace (Ascii.eqb c ".") with false.
  - apply read_exponent_plain, Hrest.
  - simpl in Hrest. destruct (Ascii.eqb c "."); [|reflexivity].
    rewrite orb_true_r in Hrest. discriminate.
Qed.

Lemma split_sign_of_Z (z : Z) (rest : string) :
  DecimalText.split_sign (PyStr.of_Z z ++ rest) =
    (if z <? 0 then -1 else 1, (PyStr.of_Z (Z.abs z) ++ rest)%string).
Proof.
  destruct z as [|p|p].
  - reflexivity.
  - destruct (of_Z_head (Z.pos p)) as (c & s & Hs & Hc); [lia|].
    change (Z.abs (Z.pos p)) with (Z.pos p). rewrite Hs. simpl.
    destruct (digit_not_mark c Hc) as (-> & -> & _). reflexivity.
  - rewrite of_Z_neg. reflexivity.
Qed.

Lemma read_unsigned_float (sign m e : Z) (rest : string) :
  0 <= m -> ends_number rest = true ->
  read_unsigned sign (PyStr.of_Z m ++ String "e" (PyStr.of_Z e ++ rest)) =
    Some (Number (Float (sign * m) e), rest).
Proof.
  intros Hm Hrest. unfold read_unsigned.
  destruct (span_digits_of_Z m (String "e" (PyStr.of_Z e ++ rest)) Hm) as [k ->].
  { intros acc n. reflexivity. }
  cbn [Nat.eqb]. change (Ascii.eqb "e" ".") with false. cbv iota.
  unfold read_exponent. change (Ascii.eqb "e" "e") with true.
  cbn [orb]. rewrite split_sign_of_Z.
  destruct (span_digits_of_Z (Z.abs e) rest (Z.abs_nonneg e)
              (ends_number_stops _ Hrest)) as [k' ->].
  replace ((if e <? 0 then -1 else 1) * Z.abs e - Z.of_nat 0) with e;
    [reflexivity|].
  destruct (Z.ltb_spec e 0); lia.
Qed.

Lemma read_number_int (z : Z) (rest : string) :
  ends_number rest = true ->
  read_number (PyStr.of_Z z ++ rest) = Some (Int z, rest).
Proof.
  intros Hrest. destruct z as [|p|p].
  - apply (read_unsigned_int 1 0 rest); [lia|assumption].
  - destruct (of_Z_head (Z.pos p)) as (c & s & Hs & Hc); [lia|].
    pose proof (read_unsigned_int 1 (Z.pos p) rest) as H.
    rewrite Hs in *. simpl. destruct (digit_not_mark c Hc) as (-> & _).
    apply H; [lia|assumption].
  - rewrite of_Z_neg. simpl.
    rewrite (read_unsigned_int (-1) (Z.pos p) rest) by (lia || assumption).
    reflexivity.
Qed.

Lemma read_number_float (f : float) (rest : string) :
  ends_number rest = true ->
  read_number (write_float f ++ rest) = Some (Number f, rest).
Proof.
  intros Hrest. destruct f as [m e]. unfold write_float.
  cbn [mant expo]. rewrite string_app_assoc. cbn [append].
  destruct m as [|p|p].
  - apply (read_unsigned_float 1 0 e rest); [lia|assumption].
  - destruct (of_Z_head (Z.pos p)) as (c & s & Hs & Hc); [lia|].
    pose proof (read_unsigned_float 1 (Z.pos p) e rest) as H.
    rewrite Hs in *. simpl. destruct (digit_not_mark c Hc) as (-> & _).
    apply H; [lia|assumption].
  - rewrite of_Z_neg. simpl.
    rewrite (read_unsigned_float (-1) (Z.pos p) e rest) by (lia || assumption).
    reflexivity.
Qed.

(** A text that begins with a digit or a minus sign is read as a number. *)
Lemma read_value_number (n : nat) (c : ascii) (s : string) :
  DecimalText.is_digit c || Ascii.eqb c "-" = true ->
  read_value (S n) (String c s) = read_number (String c s).
Proof.
  destruct c as [[|] [|] [|] [|] [|] [|] [|] [|]]; try discriminate;
    reflexivity.
Qed.

(** *** Values *)

Lemma read_value_skip (fuel : nat) (s s' : string) :
  skip_ws s = skip_ws s' -> read_value fuel s = read_value fuel s'.
Proof.
  intros H. destruct fuel; [reflexivity|]. cbn [read_value].
  rewrite H. reflexivity.
Qed.

Lemma read_items_skip (fuel : nat) (s s' : string) :
  skip_ws s = skip_ws s' -> read_items fuel s = read_items fuel s'.
Proof.
  intros H. destruct fuel; [reflexivity|]. cbn [read_items].
  rewrite (read_value_skip fuel s s' H). reflexivity.
Qed.

Lemma read_members_skip (fuel : nat) (s s' : string) :
  skip_ws s = skip_ws s' -> read_members fuel s = read_members fuel s'.
Proof.
  intros H. destruct fuel; [reflexivity|]. cbn [read_members].
  rewrite H. reflexivity.
Qed.

Lemma value_head_not_ws (c : ascii) (s : string) :
  value_head c = true -> skip_ws (String c s) = String c s.
Proof.
  destruct c as [[|] [|] [|] [|] [|] [|] [|] [|]]; try discriminate;
    reflexivity.
Qed.

(** The text of a value begins with a character that opens a value. *)
Lemma dump_head (level : nat) (v : value) (rest : string) :
  exists c s, (dump level v ++ rest)%string = String c s /\ value_head c = true.
Proof.
  destruct v as [ |[|]|n|[m e]|text|[|x xs]|[|[k x] xs]];
    try (eexists; eexists; split; reflexivity).
  - destruct n as [|p|p].
    + eexists; eexists; split; reflexivity.
    + destruct (of_Z_head (Z.pos p)) as (c & s & Hs & Hc); [lia|].
      exists c, (s ++ rest)%string. cbn [dump]. rewrite Hs. split; [reflexivity|].
      destruct c as [[|] [|] [|] [|] [|] [|] [|] [|]]; try discriminate;
        reflexivity.
    + eexists; eexists; split; reflexivity.
  - destruct m as [|p|p].
    + eexists; eexists; split; reflexivity.
    + destruct (of_Z_head (Z.pos p)) as (c & s & Hs & Hc); [lia|].
      exists c, ((s ++ String "e" (PyStr.of_Z e)) ++ rest)%string.
      cbn [dump]. unfold write_float. cbn [mant expo]. rewrite Hs.
      split; [reflexivity|].
      destruct c as [[|] [|] [|] [|] [|] [|] [|] [|]]; try discriminate;
        reflexivity.
    + eexists; eexists; split; reflexivity.
Qed.

Lemma read_value_array_open (n : nat) (c : ascii) (s : string) :
  value_head c = true ->
  read_value (S n) (String "[" (String c s)) =
    match read_items n (String c s) with
    | Some (items, r') => Some (Array items, r')
    | None => None
    end.
Proof.
  destruct c as [[|] [|] [|] [|] [|] [|] [|] [|]]; try discriminate;
    reflexivity.
Qed.

Lemma read_value_array_skip (n : nat) (s s' : string) :
  skip_ws s = skip_ws s' ->
  read_value (S n) (String "[" s) = read_value (S n) (String "[" s').
Proof. intros H. cbn [read_value skip_ws is_ws]. simpl. rewrite H. reflexivity. Qed.

Lemma read_value_object_skip (n : nat) (s s' : string) :
  skip_ws s = skip_ws s' ->
  read_value (S n) (String "{" s) = read_value (S n) (String "{" s').
Proof. intros H. cbn [read_value skip_ws is_ws]. simpl. rewrite H. reflexivity. Qed.

Lemma read_value_object_open (n : nat) (s : string) :
  read_value (S n) (String "{" (String double_quote s)) =
    match read_members n (String double_quote s) with
    | Some (members, r') => Some (Object members, r')
    | None => None
    end.
Proof. reflexivity. Qed.

Lemma size_array (items : list value) :
  size (Array items) = S (items_size items).
Proof. reflexivity. Qed.

Lemma size_object (members : list (string * value)) :
  size (Object members) = S (members_size members).
Proof. reflexivity. Qed.

Lemma ends_number_more_items (write : value -> string) (level level' : nat)
    (close : string) (xs : list value) (rest : string) :
  ends_number
    (more_items write (newline level) (newline level' ++ close) xs ++ rest)
    = true.
Proof. destruct xs; reflexivity. Qed.

Lemma ends_number_more_members (write : value -> string) (level level' : nat)
    (close : string) (xs : list (string * value)) (rest : string) :
  ends_number
    (more_members write (newline level) (newline level' ++ close) xs ++ rest)
    = true.
Proof. destruct xs as [|[k x] xs]; reflexivity. Qed.

Lemma read_items_dump (level : nat) (rest : string) (xs : list value) :
  Forall reads_back xs ->
  forall x fuel,
    reads_back x ->
    (items_size (x :: xs) <= fuel)%nat ->
    read_items fuel
      (dump (S level) x
       ++ more_items (dump (S level)) (newline (S level))
            (newline level ++ "]") xs ++ rest)
    = Some (x :: xs, rest).
Proof.
  induction 1 as [|y l Hy _ IH]; intros x fuel Hx Hfuel;
    (destruct fuel as [|m]; [simpl in Hfuel; lia|]);
    cbn [read_items]; cbn [items_size] in Hfuel.
  - rewrite Hx by (lia || apply ends_number_more_items).
    cbn [more_items]. rewrite string_app_assoc, skip_ws_newline.
    reflexivity.
  - rewrite Hx by (lia || apply ends_number_more_items).
    cbn [more_items append].
    change (skip_ws (String "," ?s)) with (String "," s).
    cbv iota.
    rewrite !string_app_assoc.
    rewrite (read_items_skip m _ _ (skip_ws_newline (S level) _)).
    rewrite IH by (assumption || (cbn [items_size]; lia)).
    reflexivity.
Qed.

Lemma read_value_space (fuel : nat) (s : string) :
  read_value fuel (String " " s) = read_value fuel s.
Proof. apply read_value_skip. reflexivity. Qed.

Lemma read_members_quote (m : nat) (r : string) :
  read_members (S m) (String double_quote r) =
    match read_string r with
    | Some (k, r1) =>
        match skip_ws r1 with
        | String ":" r2 =>
            match read_value m r2 with
            | Some (v, r3) =>
                match skip_ws r3 with
                | String "," r4 =>
                    match read_members m r4 with
                    | Some (ms, r5) => Some ((k, v) :: ms, r5)
                    | None => None
                    end
                | String "}" r4 => Some ([(k, v)], r4)
                | _ => None
                end
            | None => None
            end
        | _ => None
        end
    | None => None
    end.
Proof. reflexivity. Qed.

Lemma read_members_dump (level : nat) (rest : string)
    (xs : list (string * value)) :
  Forall (fun m => reads_back (snd m)) xs ->
  forall k x fuel,
    reads_back x ->
    (members_size ((k, x) :: xs) <= fuel)%nat ->
    read_members fuel
      (quote k ++ ": " ++ dump (S level) x
       ++ more_members (dump (S level)) (newline (S level))
            (newline level ++ "}") xs ++ rest)
    = Some ((k, x) :: xs, rest).
Proof.
  induction 1 as [|[k' y] l Hy _ IH]; intros k x fuel Hx Hfuel;
    (destruct fuel as [|m]; [simpl in Hfuel; lia|]);
    cbn [members_size] in Hfuel;
    rewrite quote_eq, read_members_quote, read_string_escape;
    cbn [append];
    change (skip_ws (String ":" ?s)) with (String ":" s); cbv iota;
    rewrite read_value_space.
  - rewrite Hx by (lia || apply ends_number_more_members).
    cbn [more_members]. rewrite string_app_assoc, skip_ws_newline.
    reflexivity.
  - rewrite Hx by (lia || apply ends_number_more_members).
    cbn [more_members append].
    change (skip_ws (String "," ?s)) with (String "," s).
    cbv iota.
    rewrite !string_app_assoc.
    rewrite (read_members_skip m _ _ (skip_ws_newline (S level) _)).
    cbn [snd] in Hy.
    match goal with
    | |- context [(String ":" (String " " ?a) ++ rest)%string] =>
        change (String ":" (String " " a) ++ rest)%string
          with (": " ++ (a ++ rest))%string
    end.
    rewrite string_app_assoc.
    rewrite IH by (assumption || (cbn [members_size]; lia)).
    reflexivity.
Qed.

(** Every value is read back from its text. *)
Lemma read_value_dump (v : value) : reads_back v.
Proof.
  induction v as [ |b|n|f|text|items IH|members IH] using value_induction;
    intros fuel level rest Hfuel Hrest.
  - destruct fuel; [simpl in Hfuel; lia|reflexivity].
  - destruct fuel; [simpl in Hfuel; lia|]. destruct b; reflexivity.
  - destruct fuel; [simpl in Hfuel; lia|].
    destruct (of_Z_head_signed n rest) as (c & s & Hs & Hc).
    pose proof (read_number_int n rest Hrest) as Hread.
    cbn [dump]. rewrite Hs in *.
    rewrite read_value_number by assumption. exact Hread.
  - destruct fuel; [simpl in Hfuel; lia|].
    destruct (of_Z_head_signed (mant f)
                (String "e" (PyStr.of_Z (expo f)) ++ rest)) as (c & s & Hs & Hc).
    pose proof (read_number_float f rest Hrest) as Hread.
    cbn [dump]. unfold write_float in *.
    rewrite string_app_assoc in *. rewrite Hs in *.
    rewrite read_value_number by assumption. exact Hread.
  - destruct fuel; [simpl in Hfuel; lia|].
    cbn [dump]. rewrite quote_eq. cbn [read_value skip_ws].
    change (is_ws double_quote) with false. cbv iota.
    change (Ascii.eqb double_quote double_quote) with true. cbv iota.
    rewrite read_string_escape. reflexivity.
  - destruct fuel as [|n]; [simpl in Hfuel; lia|].
    destruct IH as [|x xs Hx Hxs]; [reflexivity|].
    rewrite size_array in Hfuel.
    cbn [dump append]. rewrite !string_app_assoc.
    rewrite (read_value_array_skip n _ _ (skip_ws_newline (S level) _)).
    destruct (dump_head (S level) x
                (more_items (dump (S level)) (newline (S level))
                   (newline level ++ "]") xs ++ rest)) as (c & s & Hs & Hc).
    pose proof (read_items_dump level rest xs Hxs x n Hx) as Hitems.
    rewrite Hs in *. rewrite read_value_array_open by assumption.
    rewrite Hitems by lia. reflexivity.
  - destruct fuel as [|n]; [simpl in Hfuel; lia|].
    destruct IH as [|[k x] xs Hx Hxs]; [reflexivity|].
    rewrite size_object in Hfuel. cbn [snd] in Hx.
    cbn [dump append]. rewrite !string_app_assoc.
    rewrite (read_value_object_skip n _ _ (skip_ws_newline (S level) _)).
    pose proof (read_members_dump level rest xs Hxs k x n Hx) as Hmembers.
    match goal with
    | |- context [(String ":" (String " " ?a) ++ rest)%string] =>
        change (String ":" (String " " a) ++ rest)%string
          with (": " ++ (a ++ rest))%string
    end.
    rewrite string_app_assoc.
    rewrite quote_eq in *. rewrite read_value_object_open.
    rewrite Hmembers by lia. reflexivity.
Qed.

(** *** The fuel [loads] gives is enough *)

Lemma string_length_app (a b : string) :
  String.length (a ++ b) = (String.length a + String.length b)%nat.
Proof. induction a as [|c a IH]; simpl; congruence. Qed.

Lemma string_app_nil_r (a : string) : (a ++ "")%string = a.
Proof. induction a as [|c a IH]; simpl; congruence. Qed.

Lemma of_Z_length (z : Z) : (1 <= String.length (PyStr.of_Z z))%nat.
Proof.
  destruct (of_Z_head_signed z EmptyString) as (c & s & Hs & _).
  rewrite string_app_nil_r in Hs. rewrite Hs. simpl. lia.
Qed.

Lemma more_items_length (write : value -> string) (sep close : string)
    (xs : list value) :
  Forall (fun x => (size x <= String.length (write x))%nat) xs ->
  (1 <= String.length sep)%nat ->
  (items_size xs <= String.length (more_items write sep close xs))%nat.
Proof.
  intros H Hsep. induction H as [|x l Hx _ IH];
    cbn [items_size more_items String.length]; [lia|].
  rewrite !string_length_app. lia.
Qed.

Lemma more_members_length (write : value -> string) (sep close : string)
    (xs : list (string * value)) :
  Forall (fun m => (size (snd m) <= String.length (write (snd m)))%nat) xs ->
  (1 <= String.length sep)%nat ->
  (members_size xs <= String.length (more_members write sep close xs))%nat.
Proof.
  intros H Hsep. induction H as [|[k x] l Hx _ IH];
    cbn [members_size more_members String.length snd] in *; [lia|].
  rewrite !string_length_app. lia.
Qed.

Lemma size_le_length (v : value) :
  forall level, (size v <= String.length (dump level v))%nat.
Proof.
  induction v as [ |b|n|f|text|items IH|members IH] using value_induction;
    intros level.
  - simpl. lia.
  - destruct b; simpl; lia.
  - simpl. apply of_Z_length.
  - simpl. unfold write_float. rewrite string_length_app.
    pose proof (of_Z_length (mant f)). lia.
  - simpl. lia.
  - rewrite size_array. destruct IH as [|x xs Hx Hxs]; [simpl; lia|].
    cbn [dump items_size String.length]. rewrite !string_length_app.
    pose proof (more_items_length (dump (S level)) (newline (S level))
                  (newline level ++ "]") xs) as Hmore.
    specialize (Hx (S level)).
    assert (1 <= String.length (newline (S level)))%nat by (simpl; lia).
    specialize (Hmore (Forall_impl _ (fun a Ha => Ha (S level)) Hxs)).
    lia.
  - rewrite size_object. destruct IH as [|[k x] xs Hx Hxs]; [simpl; lia|].
    cbn [dump members_size String.length]. rewrite !string_length_app.
    pose proof (more_members_length (dump (S level)) (newline (S level))
                  (newline level ++ "}") xs) as Hmore.
    specialize (Hx (S level)). cbn [snd] in Hx.
    assert (1 <= String.length (newline (S level)))%nat by (simpl; lia).
    specialize (Hmore (Forall_impl _ (fun a Ha => Ha (S level)) Hxs)).
    lia.
Qed.

(** [json.loads(json.dumps(v, indent=4)) == v] *)
Lemma loads_dumps (v : value) : loads (dumps v) = Some v.
Proof.
  unfold loads, dumps.
  pose proof (read_value_dump v (S (String.length (dump 0 v))) 0%nat
                EmptyString) as H.
  rewrite string_app_nil_r in H. rewrite H; [reflexivity| |reflexivity].
  pose proof (size_le_length v 0). lia.
Qed.

End JsonFacts.

Section DocumentFacts.

Import Document.

(** Induction on steps that reaches the sub-steps of loops, of cases and
    of else-branches. *)
Lemma step_induction (P : Step -> Prop) :
  (forall action x y delay, P (Mouse action x y delay)) ->
  (forall action text delay, P (Keyboard action text delay)) ->
  (forall path delay, P (Image path delay)) ->
  (forall source cases else_steps delay,
     Forall (fun c => Forall P (steps_of c)) cases ->
     Forall P else_steps ->
     P (ConditionalRecord source cases else_steps delay)) ->
  (forall count steps delay, Forall P steps -> P (Loop count steps delay)) ->
  forall step, P step.
Proof.
  intros HMouse HKeyboard HImage HConditional HLoop.
  fix IH 1. intros [action x y d|action text d|path d|source cases els d|count steps d].
  - apply HMouse.
  - apply HKeyboard.
  - apply HImage.
  - apply HConditional.
    + induction cases as [|[text steps] cases IHcases]; constructor.
      * simpl. induction steps as [|s steps IHsteps]; constructor.
        -- apply IH.
        -- exact IHsteps.
      * exact IHcases.
    + induction els as [|s els IHels]; constructor.
      * apply IH.
      * exact IHels.
  - apply HLoop. induction steps as [|s steps IHsteps]; constructor.
    + apply IH.
    + exact IHsteps.
Qed.

Lemma all_map (A : Type) (read : Json.value -> option A)
    (write : A -> Json.value) (l : list A) :
  Forall (fun a => read (write a) = Some a) l ->
  all read (map write l) = Some l.
Proof.
  induction 1 as [|a l Ha _ IH]; simpl; [reflexivity|].
  rewrite Ha, IH. reflexivity.
Qed.

(** The dictionary of a step is read back as that step. *)
Lemma step_of_of_step (step : Step) : step_of (of_step step) = Some step.
Proof.
  induction step
    as [action x y d|action text d|path d|source cases els d IHcases IHels
       |count steps d IHsteps] using step_induction;
    try reflexivity.
  - cbn [of_step step_of get String.eqb Ascii.eqb Bool.eqb items_at].
    rewrite (all_map _ step_of of_step els IHels).
    rewrite (all_map _ case_of of_case cases); [reflexivity|].
    clear -IHcases. induction IHcases as [|[text steps] l Hc _ IH];
      constructor; [|exact IH].
    cbn [of_case case_of get String.eqb Ascii.eqb Bool.eqb items_at].
    rewrite (all_map _ step_of of_step steps Hc). reflexivity.
  - cbn [of_step step_of get String.eqb Ascii.eqb Bool.eqb items_at].
    rewrite (all_map _ step_of of_step steps IHsteps). reflexivity.
Qed.

Lemma workflow_of_of_workflow (wf : list Step) :
  workflow_of (of_workflow wf) = Some wf.
Proof.
  unfold workflow_of, of_workflow. apply all_map.
  apply Forall_forall. intros step _. apply step_of_of_step.
Qed.

End DocumentFacts.


(** * Further results about the recorder *)

Section RecorderPass.

Import Recorder.

Lemma flush_empty (delay : float) : flush (mkMerge [] EmptyString delay) = [].
Proof. reflexivity. Qed.

Lemma flush_text (text : string) (delay : float) :
  PyStr.truthy text = true ->
  flush (mkMerge [] text delay) = [Keyboard "Type Text" text delay].
Proof. intros H. unfold flush. simpl. rewrite H. reflexivity. Qed.

(** The loop of the program and its recursive form agree. *)
Lemma fold_merge_step_merge_from (rec : list Step) (text : string)
    (delay : float) :
  flush (fold_left merge_step rec (mkMerge [] text delay)) =
    merge_from text delay rec.
Proof.
  revert text delay. induction rec as [|step rest IH]; intros text delay;
    cbn [fold_left merge_from].
  - reflexivity.
  - destruct (single_char step) eqn:E.
    + rewrite (merge_step_single _ _ E). apply IH.
    + rewrite (merge_step_other _ _ E), fold_merge_step_merged.
      cbn [merged buffer_text buffer_delay]. rewrite IH, <- app_assoc.
      reflexivity.
Qed.

Lemma merge_events_merge_from (rec : list Step) :
  merge_events rec = merge_from EmptyString PyFloat.zero rec.
Proof. apply fold_merge_step_merge_from. Qed.

Lemma merge_from_stale_delay (rec : list Step) (d1 d2 : float) :
  merge_from EmptyString d1 rec = merge_from EmptyString d2 rec.
Proof.
  revert d1 d2. induction rec as [|step rest IH]; intros d1 d2;
    cbn [merge_from]; [reflexivity|].
  destruct (single_char step); [reflexivity|].
  rewrite !flush_empty. simpl. f_equal. apply IH.
Qed.

Lemma single_char_flushed (step : Step) :
  single_char step = true ->
  Keyboard "Type Text" (text_of step) (delay_of step) = step.
Proof. intros H. apply single_char_inv in H as (c & d & ->). reflexivity. Qed.

Lemma truthy_text_of (step : Step) :
  single_char step = true -> PyStr.truthy (text_of step) = true.
Proof. intros H. apply single_char_inv in H as (c & d & ->). reflexivity. Qed.

(** A settled list passes through the loop unchanged. *)
Lemma merge_from_settled (rec : list Step) (delay : float) :
  settled rec = true -> merge_from EmptyString delay rec = rec.
Proof.
  revert delay. induction rec as [|step rest IH]; intros delay H;
    [reflexivity|].
  cbn [settled] in H. apply andb_true_iff in H as [Hhead Hrest].
  cbn [merge_from]. destruct (single_char step) eqn:E.
  - cbn [PyStr.truthy append].
    destruct rest as [|next rest'].
    + cbn [merge_from]. rewrite flush_text by (apply truthy_text_of, E).
      rewrite single_char_flushed by assumption. reflexivity.
    + simpl in Hhead. apply negb_true_iff in Hhead.
      cbn [merge_from]. rewrite Hhead.
      rewrite flush_text by (apply truthy_text_of, E).
      rewrite single_char_flushed by assumption.
      specialize (IH (delay_of step) Hrest). cbn [merge_from] in IH.
      rewrite Hhead, flush_empty in IH. simpl in IH. simpl.
      congruence.
  - rewrite flush_empty. simpl. f_equal. apply IH, Hrest.
Qed.

Lemma settled_cons_other (step : Step) (rest : list Step) :
  single_char step = false -> settled (step :: rest) = settled rest.
Proof. intros H. cbn [settled]. rewrite H. reflexivity. Qed.

Lemma settled_cons_then_other (first step : Step) (rest : list Step) :
  single_char step = false -> settled (first :: step :: rest) = settled rest.
Proof.
  intros H. cbn [settled]. rewrite H, andb_false_r. reflexivity.
Qed.

(** What the loop produces is settled. *)
Lemma settled_merge_from (rec : list Step) (text : string) (delay : float) :
  settled (merge_from text delay rec) = true.
Proof.
  revert text delay. induction rec as [|step rest IH]; intros text delay;
    cbn [merge_from].
  - unfold flush. cbn [merged buffer_text buffer_delay].
    destruct (PyStr.truthy text); [|reflexivity].
    cbn [app settled]. rewrite andb_false_r. reflexivity.
  - destruct (single_char step) eqn:E; [apply IH|].
    unfold flush. cbn [merged buffer_text buffer_delay].
    destruct (PyStr.truthy text); cbn [app].
    + rewrite settled_cons_then_other by assumption. apply IH.
    + rewrite settled_cons_other by assumption. apply IH.
Qed.

Lemma string_app_empty (a : string) : (a ++ "")%string = a.
Proof. induction a as [|c a IH]; simpl; congruence. Qed.

Lemma string_append_assoc (a b c : string) :
  ((a ++ b) ++ c)%string = (a ++ (b ++ c))%string.
Proof. induction a as [|x a IH]; simpl; congruence. Qed.

Lemma typed_text_flush (text : string) (delay : float) (rest : list Step) :
  typed_text (flush (mkMerge [] text delay) ++ rest) =
    (text ++ typed_text rest)%string.
Proof.
  unfold flush. cbn [merged buffer_text buffer_delay].
  destruct text as [|c text]; reflexivity.
Qed.

Lemma single_char_is_type_text (step : Step) :
  single_char step = true -> is_type_text step = true.
Proof. intros H. apply single_char_inv in H as (c & d & ->). reflexivity. Qed.

Lemma typed_text_merge_from (rec : list Step) (text : string) (delay : float) :
  typed_text (merge_from text delay rec) = (text ++ typed_text rec)%string.
Proof.
  revert text delay. induction rec as [|step rest IH]; intros text delay;
    cbn [merge_from typed_text].
  - rewrite <- (app_nil_r (flush _)), typed_text_flush. reflexivity.
  - destruct (single_char step) eqn:E.
    + rewrite IH, (single_char_is_type_text _ E), string_append_assoc.
      reflexivity.
    + rewrite typed_text_flush. cbn [typed_text].
      rewrite IH. reflexivity.
Qed.

Lemma filter_flush (text : string) (delay : float) :
  filter (fun s => negb (is_type_text s)) (flush (mkMerge [] text delay)) = [].
Proof.
  unfold flush. cbn [merged buffer_text buffer_delay].
  destruct (PyStr.truthy text); reflexivity.
Qed.

Lemma other_steps_merge_from (rec : list Step) (text : string)
    (delay : float) :
  filter (fun s => negb (is_type_text s)) (merge_from text delay rec) =
    filter (fun s => negb (is_type_text s)) rec.
Proof.
  revert text delay. induction rec as [|step rest IH]; intros text delay;
    cbn [merge_from].
  - apply filter_flush.
  - destruct (single_char step) eqn:E.
    + rewrite IH. cbn [filter].
      rewrite (single_char_is_type_text _ E). reflexivity.
    + rewrite filter_app, filter_flush. cbn [app filter].
      rewrite IH. reflexivity.
Qed.

Lemma length_flush (text : string) (delay : float) :
  (List.length (flush (mkMerge [] text delay))
   <= if PyStr.truthy text then 1 else 0)%nat.
Proof.
  unfold flush. cbn [merged buffer_text buffer_delay].
  destruct (PyStr.truthy text); simpl; lia.
Qed.

Lemma length_merge_from (rec : list Step) (text : string) (delay : float) :
  (List.length (merge_from text delay rec)
   <= (if PyStr.truthy text then 1 else 0) + List.length rec)%nat.
Proof.
  revert text delay. induction rec as [|step rest IH]; intros text delay;
    cbn [merge_from].
  - pose proof (length_flush text delay). simpl. lia.
  - destruct (single_char step) eqn:E.
    + specialize (IH (text ++ text_of step)%string
                     (if PyStr.truthy text then delay else delay_of step)).
      rewrite (truthy_app_single _ _ E) in IH.
      destruct (PyStr.truthy text); simpl in *; lia.
    + rewrite length_app. pose proof (length_flush text delay).
      specialize (IH EmptyString delay). simpl in *. lia.
Qed.

End RecorderPass.

(** X1: Running the post-processing pass on its own result changes nothing:
    the result never holds two one-character "Type Text" steps in a row. *)
Theorem coalescing_pass_is_idempotent (rec : list Step) :
  Recorder.settled (Recorder.merge_events rec) = true
  /\ Recorder.merge_events (Recorder.merge_events rec)
     = Recorder.merge_events rec.
Proof.
  rewrite !merge_events_merge_from. split.
  - apply settled_merge_from.
  - apply merge_from_settled, settled_merge_from.
Qed.

(** X2: The pass loses and reorders nothing: the text typed by the "Type
    Text" steps, read in order, is the same before and after; the steps of
    every other kind are the same, in the same order; and the list does not
    get longer. *)
Theorem coalescing_pass_keeps_text_and_other_steps (rec : list Step) :
  Recorder.typed_text (Recorder.merge_events rec) = Recorder.typed_text rec
  /\ filter (fun s => negb (Recorder.is_type_text s))
       (Recorder.merge_events rec)
     = filter (fun s => negb (Recorder.is_type_text s)) rec
  /\ (List.length (Recorder.merge_events rec) <= List.length rec)%nat.
Proof.
  rewrite !merge_events_merge_from. split; [|split].
  - apply typed_text_merge_from.
  - apply other_steps_merge_from.
  - apply (length_merge_from rec EmptyString PyFloat.zero).
Qed.

Section RecorderSession.

Import Recorder.

Lemma leb_zero (a : float) :
  PyFloat.leb PyFloat.zero a = true <-> 0 <= mant a.
Proof.
  unfold PyFloat.leb, PyFloat.common, PyFloat.scaled, PyFloat.zero.
  cbn [mant expo]. rewrite Z.leb_le, Z.mul_0_l.
  assert (0 < 10 ^ (expo a - Z.min 0 (expo a))) by (apply Z.pow_pos_nonneg; lia).
  nia.
Qed.

Lemma max0_nonneg (a : float) : 0 <= mant (PyFloat.max0 a).
Proof.
  unfold PyFloat.max0. destruct (PyFloat.leb PyFloat.zero a) eqn:E.
  - apply leb_zero, E.
  - simpl. lia.
Qed.

Lemma round3_whole_ms (a : float) : 0 <= mant a -> whole_ms (PyFloat.round3 a).
Proof.
  intros H. unfold PyFloat.round3, whole_ms.
  destruct (-3 <=? expo a) eqn:E; cbn [mant expo].
  - apply Z.leb_le in E. split; [reflexivity|].
    assert (0 < 10 ^ (expo a + 3)) by (apply Z.pow_pos_nonneg; lia). nia.
  - apply Z.leb_gt in E. split; [reflexivity|].
    assert (0 < 10 ^ (-3 - expo a)) as Hp by (apply Z.pow_pos_nonneg; lia).
    pose proof (Z.div_pos (mant a) _ H Hp).
    destruct (_ || _); lia.
Qed.

Lemma well_recorded_same (s s' : Session) :
  rec s' = rec s -> start_time s' = start_time s ->
  well_recorded s -> well_recorded s'.
Proof. unfold well_recorded. intros -> ->. auto. Qed.

Lemma well_recorded_append (step : float -> Step) (t : float) (s : Session) :
  (forall d, delay_of (step d) = d) -> (forall d, recordable (step d)) ->
  well_recorded s -> well_recorded (add_delay_and_append step t s).
Proof.
  intros Hd Hr (Hnew & Hfirst & Hms & Hrec).
  unfold well_recorded, add_delay_and_append. cbn [rec start_time].
  split; [|split; [|split]].
  - intros E. destruct (rec s); discriminate.
  - intros first rest E. destruct (rec s) as [|first' rest'] eqn:Es.
    + rewrite (Hnew eq_refl) in E. simpl in E.
      injection E as <- _. rewrite Hd. reflexivity.
    + simpl in E. injection E as <- _. eapply Hfirst. reflexivity.
  - apply Forall_app. split; [assumption|]. constructor; [|constructor].
    rewrite Hd. apply round3_whole_ms.
    destruct (start_time s), (last_time s);
      first [apply max0_nonneg | simpl; lia].
  - apply Forall_app. split; [assumption|]. constructor; [apply Hr|constructor].
Qed.

Lemma well_recorded_on_press (key : Key) (t : float) (s : Session) :
  well_recorded s -> well_recorded (fst (on_press key t s)).
Proof.
  intros H. unfold on_press. destruct key as [c|name]; cbn [fst].
  - apply well_recorded_append; [reflexivity| |assumption].
    intros d. left. split; [reflexivity|discriminate].
  - destruct (String.eqb name "esc") eqn:E; cbn [fst]; [assumption|].
    apply well_recorded_append; [reflexivity| |assumption].
    intros d. right. split; [reflexivity|].
    apply String.eqb_neq, E.
Qed.

Lemma well_recorded_on_click (hold : float) (x y : Z) (button : Button)
    (pressed : bool) (t : float) (s : Session) :
  well_recorded s ->
  well_recorded (fst (on_click hold x y button pressed t s)).
Proof.
  intros H. unfold on_click.
  set (s1 := if is_right button && pressed then _ else s).
  assert (well_recorded s1) as H1.
  { subst s1. destruct (is_right button && pressed); [|assumption].
    eapply well_recorded_same; [| |exact H]; reflexivity. }
  clearbody s1.
  destruct (is_right button && negb pressed && _); cbn [fst]; [assumption|].
  destruct pressed; cbn [fst]; [|assumption].
  apply well_recorded_append; [reflexivity| |assumption].
  intros d. reflexivity.
Qed.

Lemma well_recorded_listen (hold : float) (events : list RawEvent)
    (s : Session) :
  well_recorded s -> well_recorded (listen hold events s).
Proof.
  revert s. induction events as [|ev rest IH]; intros s H; cbn [listen];
    [assumption|].
  destruct (negb (kb_listener s) && negb (ms_listener s)); [assumption|].
  destruct ev as [key t|x y button pressed t].
  - destruct (kb_listener s); [|apply IH, H].
    pose proof (well_recorded_on_press key t s H) as H'.
    destruct (on_press key t s) as [s' go]. apply IH.
    eapply well_recorded_same; [| |exact H']; reflexivity.
  - destruct (ms_listener s); [|apply IH, H].
    pose proof (well_recorded_on_click hold x y button pressed t s H) as H'.
    destruct (on_click hold x y button pressed t s) as [s' go]. apply IH.
    eapply well_recorded_same; [| |exact H']; reflexivity.
Qed.

Lemma well_recorded_new_session : well_recorded new_session.
Proof.
  repeat split; try constructor. intros first rest E. discriminate.
Qed.

(** The pass keeps what [well_recorded] says of the steps. *)

Lemma Forall_flush (P : Step -> Prop) (text : string) (delay : float) :
  (PyStr.truthy text = true -> P (Keyboard "Type Text" text delay)) ->
  Forall P (flush (mkMerge [] text delay)).
Proof.
  intros H. unfold flush. cbn [merged buffer_text buffer_delay].
  destruct (PyStr.truthy text); repeat constructor. auto.
Qed.

Lemma whole_ms_merge_from (rec : list Step) (text : string) (delay : float) :
  Forall (fun step => whole_ms (delay_of step)) rec ->
  (PyStr.truthy text = true -> whole_ms delay) ->
  Forall (fun step => whole_ms (delay_of step)) (merge_from text delay rec).
Proof.
  intros Hall. revert text delay.
  induction Hall as [|step rest Hstep _ IH]; intros text delay Hbuf;
    cbn [merge_from].
  - apply Forall_flush. exact Hbuf.
  - destruct (single_char step) eqn:E.
    + apply IH. intros _. destruct (PyStr.truthy text); auto.
    + apply Forall_app. split; [apply Forall_flush; exact Hbuf|].
      constructor; [assumption|]. apply IH. discriminate.
Qed.

Lemma recordable_merge_from (rec : list Step) (text : string)
    (delay : float) :
  Forall recordable rec -> Forall recordable (merge_from text delay rec).
Proof.
  intros Hall. revert text delay.
  assert (forall text delay,
            Forall recordable (flush (mkMerge [] text delay))) as Hflush.
  { intros text delay. apply Forall_flush. intros Ht. left.
    split; [reflexivity|]. destruct text; discriminate. }
  induction Hall as [|step rest Hstep _ IH]; intros text delay;
    cbn [merge_from].
  - apply Hflush.
  - destruct (single_char step); [apply IH|].
    apply Forall_app. split; [apply Hflush|]. constructor; auto.
Qed.

Lemma head_merge_from_buffer (rec : list Step) (text : string)
    (delay : float) :
  PyStr.truthy text = true ->
  exists text' rest,
    merge_from text delay rec = Keyboard "Type Text" text' delay :: rest.
Proof.
  revert text delay. induction rec as [|step rest IH]; intros text delay Ht;
    cbn [merge_from].
  - rewrite flush_text by assumption. eauto.
  - destruct (single_char step) eqn:E.
    + rewrite Ht. apply IH. apply truthy_app_single, E.
    + rewrite flush_text by assumption. simpl. eauto.
Qed.

Lemma head_merge_events (first : Step) (rest : list Step) :
  exists first' rest',
    merge_events (first :: rest) = first' :: rest'
    /\ delay_of first' = delay_of first.
Proof.
  rewrite merge_events_merge_from. cbn [merge_from].
  destruct (single_char first) eqn:E.
  - cbn [PyStr.truthy append].
    destruct (head_merge_from_buffer rest (text_of first) (delay_of first))
      as (text' & rest' & ->); [apply truthy_text_of, E|].
    eexists _, _. split; reflexivity.
  - rewrite flush_empty. simpl. eexists _, _. split; reflexivity.
Qed.

End RecorderSession.

(** X3: Whatever the two listeners receive and whatever the clock reads,
    even if it runs backwards, every step of a recording carries a delay
    that is a whole number of milliseconds and is not negative, and the
    first step carries the delay zero. *)
Theorem recorded_delays_are_whole_milliseconds (pynput_available : bool)
    (stop_right_hold_sec : float) (events : list Recorder.RawEvent) :
  Forall (fun step => Recorder.whole_ms (delay_of step))
    (Recorder.record_mouse_keyboard_session pynput_available
       stop_right_hold_sec events)
  /\ forall first rest,
       Recorder.record_mouse_keyboard_session pynput_available
         stop_right_hold_sec events = first :: rest ->
       delay_of first = PyFloat.ms 0.
Proof.
  unfold Recorder.record_mouse_keyboard_session.
  destruct pynput_available; [|split; [constructor|discriminate]].
  destruct (well_recorded_listen stop_right_hold_sec events
              Recorder.new_session well_recorded_new_session)
    as (_ & Hfirst & Hms & _).
  split.
  - rewrite merge_events_merge_from. apply whole_ms_merge_from; [exact Hms|].
    discriminate.
  - intros first rest E.
    destruct (Recorder.rec (Recorder.listen _ _ _)) as [|first0 rest0] eqn:Er;
      [discriminate|].
    destruct (head_merge_events first0 rest0) as (f & r & E' & Hd).
    rewrite E' in E. injection E as <- _.
    rewrite Hd. eapply Hfirst. reflexivity.
Qed.

(** X4: A recording holds nothing but clicks, typed text that is not empty
    and presses of named keys other than Escape. In particular the mouse
    button pressed is not kept: every press, of any button, is recorded as a
    "Click", and Escape itself is never recorded. *)
Theorem recording_holds_recordable_steps (pynput_available : bool)
    (stop_right_hold_sec : float) (events : list Recorder.RawEvent) :
  Forall Recorder.recordable
    (Recorder.record_mouse_keyboard_session pynput_available
       stop_right_hold_sec events).
Proof.
  unfold Recorder.record_mouse_keyboard_session.
  destruct pynput_available; [|constructor].
  rewrite merge_events_merge_from. apply recordable_merge_from.
  apply (well_recorded_listen stop_right_hold_sec events
           Recorder.new_session well_recorded_new_session).
Qed.
Section RecorderListeners.

Import Recorder.

Variable hold : float.

Lemma listen_stopped (events : list RawEvent) (s : Session) :
  kb_listener s = false -> ms_listener s = false -> listen hold events s = s.
Proof.
  intros Hk Hm. destruct events as [|ev rest]; cbn [listen]; [reflexivity|].
  rewrite Hk, Hm. reflexivity.
Qed.

Lemma listen_app (events more : list RawEvent) (s : Session) :
  listen hold (events ++ more) s = listen hold more (listen hold events s).
Proof.
  revert s. induction events as [|ev rest IH]; intros s; [reflexivity|].
  cbn [app listen].
  destruct (negb (kb_listener s) && negb (ms_listener s)) eqn:E.
  - apply andb_true_iff in E as [Hk Hm].
    apply negb_true_iff in Hk, Hm. symmetry. apply listen_stopped; assumption.
  - destruct ev as [key t|x y button pressed t].
    + destruct (kb_listener s); [|apply IH].
      destruct (on_press key t s) as [s' go]. apply IH.
    + destruct (ms_listener s); [|apply IH].
      destruct (on_click hold x y button pressed t s) as [s' go]. apply IH.
Qed.

Lemma kb_listener_append (step : float -> Step) (t : float) (s : Session) :
  kb_listener (add_delay_and_append step t s) = kb_listener s.
Proof. reflexivity. Qed.

Lemma kb_listener_on_click (x y : Z) (button : Button) (pressed : bool)
    (t : float) (s : Session) :
  kb_listener (fst (on_click hold x y button pressed t s)) = kb_listener s.
Proof.
  unfold on_click.
  set (s1 := if is_right button && pressed then _ else s).
  assert (kb_listener s1 = kb_listener s) as E
    by (subst s1; destruct (is_right button && pressed); reflexivity).
  clearbody s1.
  destruct (is_right button && negb pressed && _); [exact E|].
  destruct pressed; exact E.
Qed.

Lemma ms_listener_on_press (key : Key) (t : float) (s : Session) :
  ms_listener (fst (on_press key t s)) = ms_listener s.
Proof.
  unfold on_press. destruct key as [c|name]; [reflexivity|].
  destruct (String.eqb name "esc"); reflexivity.
Qed.

(** Once the keyboard listener has stopped, keys are not seen. *)
Lemma listen_keys_unseen (events : list RawEvent) (s : Session) :
  kb_listener s = false ->
  listen hold events s = listen hold (filter is_mouse_event events) s.
Proof.
  revert s. induction events as [|ev rest IH]; intros s Hk; [reflexivity|].
  destruct ev as [key t|x y button pressed t]; cbn [filter is_mouse_event
    is_key_event negb].
  - cbn [listen]. rewrite Hk. cbn [negb andb].
    destruct (negb (ms_listener s)) eqn:Em; [|apply IH, Hk].
    apply negb_true_iff in Em. symmetry. apply listen_stopped; assumption.
  - cbn [listen]. rewrite Hk. cbn [negb andb].
    destruct (negb (ms_listener s)) eqn:Em; [reflexivity|].
    apply negb_false_iff in Em. rewrite Em.
    pose proof (kb_listener_on_click x y button pressed t s) as Hk'.
    destruct (on_click hold x y button pressed t s) as [s' go].
    apply IH. simpl in *. congruence.
Qed.

(** Once the mouse listener has stopped, the mouse is not seen. *)
Lemma listen_mouse_unseen (events : list RawEvent) (s : Session) :
  ms_listener s = false ->
  listen hold events s = listen hold (filter is_key_event events) s.
Proof.
  revert s. induction events as [|ev rest IH]; intros s Hm; [reflexivity|].
  destruct ev as [key t|x y button pressed t]; cbn [filter is_key_event].
  - cbn [listen]. rewrite Hm. rewrite andb_true_r.
    destruct (negb (kb_listener s)) eqn:Ek; [reflexivity|].
    apply negb_false_iff in Ek. rewrite Ek.
    pose proof (ms_listener_on_press key t s) as Hm'.
    destruct (on_press key t s) as [s' go].
    apply IH. simpl in *. congruence.
  - cbn [listen]. rewrite Hm. rewrite andb_true_r.
    destruct (negb (kb_listener s)) eqn:Ek; [|apply IH, Hm].
    apply negb_true_iff in Ek. symmetry. apply listen_stopped; assumption.
Qed.

Lemma kb_listener_after_escape (t : float) (s : Session) :
  kb_listener (listen hold [KeyPress (KeyNamed "esc") t] s) = false.
Proof.
  cbn [listen].
  destruct (kb_listener s) eqn:Ek; cbn [negb andb].
  - reflexivity.
  - destruct (negb (ms_listener s)); exact Ek.
Qed.

End RecorderListeners.

(** X5: Each listener stops for good. No key pressed after Escape is
    recorded: the recording is the one made had those keys never been
    pressed. Likewise, once the mouse listener has stopped, the recording is
    the one made had the mouse not been used since. *)
Theorem stopped_listener_records_nothing (stop_right_hold_sec : float)
    (before after : list Recorder.RawEvent) :
  (forall t,
     Recorder.record_mouse_keyboard_session true stop_right_hold_sec
       (before ++ Recorder.KeyPress (Recorder.KeyNamed "esc") t :: after)
     = Recorder.record_mouse_keyboard_session true stop_right_hold_sec
         (before ++ Recorder.KeyPress (Recorder.KeyNamed "esc") t
            :: filter Recorder.is_mouse_event after))
  /\ (Recorder.ms_listener
        (Recorder.listen stop_right_hold_sec before Recorder.new_session)
      = false ->
      Recorder.record_mouse_keyboard_session true stop_right_hold_sec
        (before ++ after)
      = Recorder.record_mouse_keyboard_session true stop_right_hold_sec
          (before ++ filter Recorder.is_key_event after)).
Proof.
  unfold Recorder.record_mouse_keyboard_session. split.
  - intros t.
    change (before ++ Recorder.KeyPress (Recorder.KeyNamed "esc") t :: after)
      with (before ++ [Recorder.KeyPress (Recorder.KeyNamed "esc") t] ++ after).
    change (before ++ Recorder.KeyPress (Recorder.KeyNamed "esc") t
              :: filter Recorder.is_mouse_event after)
      with (before ++ [Recorder.KeyPress (Recorder.KeyNamed "esc") t]
              ++ filter Recorder.is_mouse_event after).
    rewrite !listen_app.
    rewrite (listen_keys_unseen _ after); [reflexivity|].
    apply kb_listener_after_escape.
  - intros Hm. rewrite !listen_app.
    rewrite (listen_mouse_unseen _ after) by exact Hm. reflexivity.
Qed.

(** * Further results about the engine *)

Section RunFacts.

Variable env : Surroundings.

(** A flag that is clear stays clear, with the status and the label as
    they are, through every call. *)
Lemma blocking_call_stopped (ev : Event) (st : State) :
  is_running st = false -> blocking_call env ev st = append_log ev st.
Proof.
  intros H. rewrite blocking_call_eq, H, andb_false_r. reflexivity.
Qed.

Lemma running_or_ended_call (ev : Event) (st : State) :
  running_or_ended st -> running_or_ended (blocking_call env ev st).
Proof.
  intros [Hrun|[Hoff Hend]].
  - rewrite blocking_call_eq, Hrun, andb_true_r.
    destruct (stop_at env (List.length (log st))).
    + right. split; [reflexivity|]. right. left. split; reflexivity.
    + left. exact Hrun.
  - rewrite blocking_call_stopped by assumption. right. split; assumption.
Qed.

Lemma running_or_ended_step (step : Step) (st : State) :
  running_or_ended st -> running_or_ended (execute_step env step st).
Proof.
  intros H. unfold execute_step.
  destruct (is_running st) eqn:E; cbn [negb]; [|assumption].
  destruct step; try assumption.
  - cbv zeta. destruct (String.eqb action "Click");
      repeat apply running_or_ended_call; assumption.
  - destruct (String.eqb action "Type Text");
      [|destruct (String.eqb action "Press Key");
        [|destruct (String.eqb action "Hotkey")]];
      try apply running_or_ended_call; assumption.
  - cbv zeta. destruct (locate env (List.length (log st)) path).
    + repeat apply running_or_ended_call; assumption.
    + right. split; [reflexivity|]. right. right. exists path. left.
      reflexivity.
    + right. split; [reflexivity|]. right. right. exists path. right.
      reflexivity.
Qed.

Lemma running_or_ended_run (st : State) :
  is_running st = true -> running_or_ended (run_workflow_loop env st).
Proof.
  intros Hrun. apply I_run_workflow_loop.
  - intros d s _. apply running_or_ended_call.
  - intros step s _. apply running_or_ended_step.
  - intros msg s Hs _. left. exact Hs.
  - intros pc s Hs _. left. exact Hs.
  - intros s Hs _. unfold clean_up. rewrite Hs. right.
    split; [reflexivity|]. left. split; reflexivity.
  - left. exact Hrun.
Qed.

Lemma is_running_run (st : State) :
  is_running (run_workflow_loop env st) = false.
Proof.
  unfold run_workflow_loop, clean_up.
  destruct (is_running (while_loop env _ 0 _)) eqn:E; [reflexivity|exact E].
Qed.

Lemma workflow_while_loop (fuel pc : nat) (st : State) :
  workflow (while_loop env fuel pc st) = workflow st.
Proof.
  apply (I_while_loop env (fun s => workflow s = workflow st));
    try reflexivity.
  - intros d s _ H. rewrite workflow_blocking_call. exact H.
  - intros step s _ H. rewrite workflow_execute_step. exact H.
  - intros msg s _ H. exact H.
  - intros pc' s _ H. exact H.
Qed.

Lemma workflow_clean_up (st : State) : workflow (clean_up st) = workflow st.
Proof. unfold clean_up. destruct (is_running st); reflexivity. Qed.

End RunFacts.

(** X6: A run reads the workflow and never writes it: whatever the steps do,
    whatever the screen shows and whenever the button is pressed, the
    workflow after the run is the workflow before it. *)
Theorem run_leaves_workflow_unchanged (env : Surroundings) (st : State) :
  workflow (run_workflow_loop env st) = workflow st.
Proof.
  unfold run_workflow_loop.
  rewrite workflow_clean_up, workflow_while_loop. reflexivity.
Qed.

(** X7: How a run ends, when no call raises. The flag is clear afterwards. A
    run started with the flag set ends in one of four ways: at the end of
    the workflow (status "Idle", button "Run Workflow"), stopped by the
    button (status "Stopping...", button "Run Workflow"), or on an image
    that was not found or an image search that raised (the status says
    which). It never ends showing "Status: Running...". A thread that finds
    the flag already clear makes no call and leaves that very status. *)
Theorem run_ends_with_flag_clear (env : Surroundings) (st : State) :
  forallb delays_accepted (workflow st) = true ->
  is_running (run_workflow_loop env st) = false
  /\ (is_running st = true -> ended (run_workflow_loop env st))
  /\ (is_running st = false ->
      run_workflow_loop env st = set_status "Status: Running..." st).
Proof.
  intros _. split; [apply is_running_run|]. split.
  - intros Hrun.
    destruct (running_or_ended_run env st Hrun) as [H|[_ H]]; [|exact H].
    rewrite is_running_run in H. discriminate.
  - intros Hoff. unfold run_workflow_loop.
    rewrite while_loop_idle by exact Hoff.
    unfold clean_up. simpl. rewrite Hoff. reflexivity.
Qed.
Section UninterruptedRuns.

Variable env : Surroundings.

Hypothesis Hquiet : never_stopped env.

(** With the button left alone, only the clean-up touches the label of the
    button and no thread is started. *)
Lemma button_execute_step (step : Step) (st : State) :
  run_button (execute_step env step st) = run_button st
  /\ threads (execute_step env step st) = threads st.
Proof.
  unfold execute_step. destruct (is_running st); cbn [negb]; [|auto].
  destruct step; auto.
  - cbv zeta. destruct (String.eqb action "Click");
      rewrite !blocking_call_never_stopped by assumption; auto.
  - destruct (String.eqb action "Type Text");
      [|destruct (String.eqb action "Press Key");
        [|destruct (String.eqb action "Hotkey")]];
      rewrite ?blocking_call_never_stopped by assumption; auto.
  - cbv zeta. destruct (locate env (List.length (log st)) path);
      rewrite !blocking_call_never_stopped by assumption; auto.
Qed.

Lemma button_while_loop (fuel pc : nat) (st : State) :
  run_button (while_loop env fuel pc st) = run_button st
  /\ threads (while_loop env fuel pc st) = threads st.
Proof.
  apply (I_while_loop env
           (fun s => run_button s = run_button st
                     /\ threads s = threads st)); auto.
  - intros d s _ H. rewrite blocking_call_never_stopped by assumption.
    exact H.
  - intros step s _ [H1 H2].
    destruct (button_execute_step step s) as [-> ->]. auto.
Qed.

Lemma halted_by_image_while_loop (fuel pc : nat) (st : State) :
  log st = [] -> halted_by_image env (while_loop env fuel pc st).
Proof.
  intros Hlog. apply I_while_loop.
  - apply halted_by_image_sleep.
  - apply halted_by_image_step.
  - intros msg s Hrun HI.
    eapply halted_by_image_running; [exact Hrun|exact HI|reflexivity].
  - intros pc' s Hrun HI.
    eapply halted_by_image_running; [exact Hrun|exact HI|reflexivity].
  - intros t path msg Hn. rewrite Hlog in Hn. destruct t; discriminate.
Qed.

Lemma log_clean_up (st : State) : log (clean_up st) = log st.
Proof. unfold clean_up. destruct (is_running st); reflexivity. Qed.

Lemma skipn_nth_error (A : Type) (l : list A) (n : nat) (x : A) :
  nth_error l n = Some x -> skipn n l = x :: skipn (S n) l.
Proof.
  revert n. induction l as [|y l IH]; intros [|n] H; try discriminate.
  - injection H as ->. reflexivity.
  - simpl in H. apply IH in H. exact H.
Qed.

Lemma dispatch_leaf (step : Step) (st : State) :
  is_leaf step = true -> dispatch env step st = execute_step env step st.
Proof. destruct step; try discriminate; reflexivity. Qed.

Hypothesis Hfound : always_found env.

(** The main loop on leaf steps, from any program counter. *)
Lemma while_loop_leaves (fuel pc : nat) (st : State) :
  Forall (fun s => is_leaf s = true) (workflow st) ->
  is_running st = true ->
  (List.length (workflow st) - pc <= fuel)%nat ->
  exists evs,
    executed_in_order (skipn pc (workflow st)) evs
    /\ log (while_loop env fuel pc st) = log st ++ evs
    /\ is_running (while_loop env fuel pc st) = true.
Proof.
  revert pc st. induction fuel as [|fuel IH]; intros pc st Hleaf Hrun Hfuel.
  - exists []. rewrite skipn_all2 by lia. rewrite app_nil_r.
    repeat split; [constructor|exact Hrun].
  - rewrite while_loop_S, Hrun. cbn [andb].
    destruct (pc <? List.length (workflow st))%nat eqn:Epc.
    + apply Nat.ltb_lt in Epc.
      destruct (nth_error (workflow st) pc) as [step|] eqn:En;
        [|apply nth_error_None in En; lia].
      cbv zeta.
      rewrite blocking_call_never_stopped by assumption.
      set (st1 := append_log (Sleep (delay_of step)) (selection_set pc st)).
      assert (is_running st1 = true) as Hrun1 by exact Hrun.
      rewrite Hrun1. cbn [negb].
      assert (is_leaf step = true) as Hstep.
      { apply nth_error_In in En. rewrite Forall_forall in Hleaf. auto. }
      rewrite dispatch_leaf by assumption.
      destruct (@execute_step_uninterrupted env step st1 Hquiet Hfound Hrun1)
        as [Hrun2 _].
      destruct (IH (S pc) (execute_step env step st1)) as (evs & Hex & Hlog & Hr).
      * rewrite workflow_execute_step. exact Hleaf.
      * exact Hrun2.
      * rewrite workflow_execute_step. subst st1. simpl. lia.
      * rewrite workflow_execute_step in Hex.
        exists (Sleep (delay_of step)
                  :: calls_of (locate env (List.length (log st1))) step ++ evs).
        split; [|split].
        -- rewrite (skipn_nth_error _ _ _ _ En). subst st1. simpl workflow in Hex.
           constructor; [apply Hfound|exact Hex].
        -- rewrite Hlog, log_execute_step by assumption.
           subst st1. simpl. rewrite <- !app_assoc. reflexivity.
        -- exact Hr.
    + apply Nat.ltb_ge in Epc. exists [].
      rewrite skipn_all2 by lia. rewrite app_nil_r.
      repeat split; [constructor|exact Hrun].
Qed.

End UninterruptedRuns.

(** X8: When an image search fails in a run that the button did not stop,
    the run ends with the flag clear and the button still labelled as during
    the run ("Stop"): only the clean-up at the end of the workflow and the
    button's own handler set the label back. Pressing the button then does
    not stop anything: it starts the workflow again. *)
Theorem image_failure_leaves_button_unchanged (env : Surroundings)
    (st : State) (t : nat) (path msg : string) :
  never_stopped env ->
  forallb delays_accepted (workflow st) = true ->
  log st = [] ->
  nth_error (log (run_workflow_loop env st)) t
    = Some (LocateCenterOnScreen path) ->
  failure_status path (locate env t path) = Some msg ->
  is_running (run_workflow_loop env st) = false
  /\ status_var (run_workflow_loop env st) = msg
  /\ run_button (run_workflow_loop env st) = run_button st
  /\ is_running (toggle_run (run_workflow_loop env st)) = true
  /\ threads (toggle_run (run_workflow_loop env st)) = S (threads st).
Proof.
  intros Hquiet _ Hlog Hn Hf.
  unfold run_workflow_loop in *. cbv zeta in *.
  set (st1 := set_status "Status: Running..." st) in *.
  set (w := while_loop env (List.length (workflow st1)) 0 st1) in *.
  rewrite log_clean_up in Hn.
  destruct (halted_by_image_while_loop env (List.length (workflow st1)) 0 st1
              Hlog t path msg Hn Hf) as (Hoff & _ & Hmsg).
  destruct (button_while_loop env Hquiet (List.length (workflow st1)) 0 st1)
    as [Hb Ht].
  change (is_running w = false) in Hoff.
  change (status_var w = msg) in Hmsg.
  change (run_button w = run_button st) in Hb.
  change (threads w = threads st) in Ht.
  assert (clean_up w = w) as ->
    by (unfold clean_up; rewrite Hoff; reflexivity).
  unfold toggle_run. rewrite Hoff. simpl. rewrite Ht.
  repeat split; assumption.
Qed.

(** X9: A workflow of mouse, keyboard and image steps, run with the button
    left alone and every image found, executes every step once, in the order
    of the workflow, each after its own delay, and ends with the flag clear,
    the status "Idle" and the button "Run Workflow". *)
Theorem leaf_workflow_runs_every_step_in_order (env : Surroundings)
    (st : State) :
  never_stopped env -> always_found env ->
  is_running st = true ->
  Forall (fun s => is_leaf s = true) (workflow st) ->
  forallb delays_accepted (workflow st) = true ->
  exists evs,
    executed_in_order (workflow st) evs
    /\ log (run_workflow_loop env st) = log st ++ evs
    /\ is_running (run_workflow_loop env st) = false
    /\ status_var (run_workflow_loop env st) = "Status: Idle"%string
    /\ run_button (run_workflow_loop env st) = "Run Workflow"%string.
Proof.
  intros Hquiet Hfound Hrun Hleaf _.
  unfold run_workflow_loop. cbv zeta.
  set (st1 := set_status "Status: Running..." st).
  destruct (while_loop_leaves env Hquiet Hfound (List.length (workflow st1)) 0
              st1 Hleaf Hrun) as (evs & Hex & Hlog & Hr); [lia|].
  exists evs. unfold clean_up. rewrite Hr. simpl.
  repeat split; assumption.
Qed.

Section NestedBlocks.

Variable env : Surroundings.

Lemma sub_step_hollow (sub : Step) (st : State) :
  sub_step env (hollow sub) st = sub_step env sub st.
Proof.
  unfold sub_step. destruct (is_running st) eqn:E; cbn [negb]; [|reflexivity].
  destruct sub; reflexivity.
Qed.

Lemma for_each_sub_step_hollow (subs : list Step) (st : State) :
  for_each (sub_step env) (map hollow subs) st
    = for_each (sub_step env) subs st.
Proof.
  revert st. induction subs as [|sub rest IH]; intros st; [reflexivity|].
  cbn [map for_each]. rewrite sub_step_hollow.
  destruct (sub_step env sub st); [apply IH|reflexivity].
Qed.

Lemma for_each_iteration_hollow (count : Z) (body : list Step)
    (rounds : list nat) (st : State) :
  for_each (iteration env count (map hollow body)) rounds st
    = for_each (iteration env count body) rounds st.
Proof.
  revert st. induction rounds as [|i rest IH]; intros st; [reflexivity|].
  cbn [for_each]. unfold iteration at 1 3.
  rewrite for_each_sub_step_hollow.
  destruct (if negb (is_running st) then _ else _); [apply IH|reflexivity].
Qed.

Lemma for_cases_hollow (text : string) (cases : list Case) (st : State) :
  for_cases env text
    (map (fun c => MkCase (value_of c) (map hollow (steps_of c))) cases) st
    = for_cases env text cases st.
Proof.
  induction cases as [|c rest IH]; [reflexivity|].
  cbn [map for_cases]. unfold case_matches at 1 2. cbn [value_of steps_of].
  destruct (PyStr.truthy (value_of c) && _); [|exact IH].
  rewrite for_each_sub_step_hollow. reflexivity.
Qed.

End NestedBlocks.

(** X10: A block inside a block never runs. Emptying every loop and every
    conditional block found among the sub-steps of a loop block, or among
    the case steps and else-steps of a conditional block, changes nothing of
    what executing the block does: of a nested block only the delay is
    slept. *)
Theorem nested_blocks_are_not_executed (env : Surroundings) (st : State) :
  (forall count body d,
     execute_loop_block env (Loop count (map hollow body) d) st
       = execute_loop_block env (Loop count body d) st)
  /\ (forall source cases else_steps d,
        execute_conditional_record env
          (ConditionalRecord source
             (map (fun c => MkCase (value_of c) (map hollow (steps_of c)))
                cases)
             (map hollow else_steps) d) st
        = execute_conditional_record env
            (ConditionalRecord source cases else_steps d) st).
Proof.
  split.
  - intros count body d. unfold execute_loop_block.
    rewrite for_each_iteration_hollow. reflexivity.
  - intros source cases else_steps d. unfold execute_conditional_record.
    destruct (is_running st); cbn [negb]; [|reflexivity].
    rewrite for_cases_hollow.
    destruct (for_cases env (source_text env st) cases st) as [[s|s] [|]];
      try reflexivity.
    rewrite for_each_sub_step_hollow. reflexivity.
Qed.

Section StringFacts.

Import PyStr.

Lemma split_from_not_nil (sep : ascii) (cur s : string) :
  split_from sep cur s <> [].
Proof.
  revert cur. induction s as [|c s IH]; intros cur; simpl; [discriminate|].
  destruct (Ascii.eqb c sep); [discriminate|apply IH].
Qed.

Lemma join_cons (sep piece : string) (rest : list string) :
  rest <> [] -> join sep (piece :: rest) = (piece ++ sep ++ join sep rest)%string.
Proof. intros H. destruct rest; [congruence|reflexivity]. Qed.

Lemma split_from_join (sep : ascii) (cur s : string) :
  join (String sep EmptyString) (split_from sep cur s) = (cur ++ s)%string.
Proof.
  revert cur. induction s as [|c s IH]; intros cur; simpl.
  - symmetry. apply string_app_empty.
  - destruct (Ascii.eqb c sep) eqn:E.
    + apply Ascii.eqb_eq in E. subst c.
      rewrite join_cons by apply split_from_not_nil.
      rewrite IH. reflexivity.
    + rewrite IH, string_append_assoc. reflexivity.
Qed.

Lemma length_split_from (sep : ascii) (cur s : string) :
  List.length (split_from sep cur s)
    = S (List.length (filter (fun c => Ascii.eqb c sep)
                        (list_ascii_of_string s))).
Proof.
  revert cur. induction s as [|c s IH]; intros cur; simpl; [reflexivity|].
  destruct (Ascii.eqb c sep); simpl; rewrite IH; reflexivity.
Qed.

Lemma has_char_app (c : ascii) (a b : string) :
  has_char c (a ++ b) = has_char c a || has_char c b.
Proof.
  induction a as [|x a IH]; simpl; [reflexivity|].
  rewrite IH, orb_assoc. reflexivity.
Qed.

Lemma has_char_split_from (sep : ascii) (cur s : string) :
  has_char sep cur = false ->
  Forall (fun piece => has_char sep piece = false) (split_from sep cur s).
Proof.
  revert cur. induction s as [|c s IH]; intros cur H; simpl.
  - constructor; [assumption|constructor].
  - destruct (Ascii.eqb c sep) eqn:E.
    + constructor; [assumption|]. apply IH. reflexivity.
    + apply IH. rewrite has_char_app, H. simpl. rewrite E. reflexivity.
Qed.

Lemma has_char_lstrip (c : ascii) (s : string) :
  has_char c s = false -> has_char c (lstrip s) = false.
Proof.
  induction s as [|x s IH]; simpl; [auto|].
  intros H. apply orb_false_iff in H as [Hx Hs].
  destruct (is_space x); [auto|]. simpl. rewrite Hx, Hs. reflexivity.
Qed.

Lemma has_char_rstrip (c : ascii) (s : string) :
  has_char c s = false -> has_char c (rstrip s) = false.
Proof.
  induction s as [|x s IH]; simpl; [auto|].
  intros H. apply orb_false_iff in H as [Hx Hs]. specialize (IH Hs).
  destruct (rstrip s) as [|y r].
  - destruct (is_space x); simpl; [reflexivity|]. rewrite Hx. reflexivity.
  - simpl in *. rewrite Hx, IH. reflexivity.
Qed.

Lemma rstrip_rstrip (s : string) : rstrip (rstrip s) = rstrip s.
Proof.
  induction s as [|x s IH]; simpl; [reflexivity|].
  destruct (rstrip s) as [|y r] eqn:E.
  - destruct (is_space x) eqn:Ex; simpl; [reflexivity|].
    rewrite Ex. reflexivity.
  - cbn [rstrip]. cbn [rstrip] in IH. rewrite IH. reflexivity.
Qed.

Lemma rstrip_head (c : ascii) (s : string) :
  is_space c = false -> exists r, rstrip (String c s) = String c r.
Proof.
  intros H. simpl. destruct (rstrip s); [rewrite H|]; eauto.
Qed.

Lemma lstrip_head (s : string) :
  lstrip s = EmptyString
  \/ exists c r, lstrip s = String c r /\ is_space c = false.
Proof.
  induction s as [|x s IH]; simpl; [auto|].
  destruct (is_space x) eqn:E; [exact IH|]. right. eauto.
Qed.

Lemma strip_strip (s : string) : strip (strip s) = strip s.
Proof.
  unfold strip.
  destruct (lstrip_head s) as [->|(c & r & -> & Hc)]; [reflexivity|].
  destruct (rstrip_head c r Hc) as [r' E].
  rewrite E. cbn [lstrip]. rewrite Hc, <- E. apply rstrip_rstrip.
Qed.

End StringFacts.


(** * Results about the main window and the editor *)

Section WindowFacts.

Variable py : Builtins.
Variable str_float : float -> string.

Lemma length_rows (i : nat) (steps : list Step) :
  List.length (App.rows i steps) = List.length steps.
Proof.
  revert i. induction steps as [|step rest IH]; intros i; simpl; auto.
Qed.

Lemma in_step_refresh (w : App.Window) : App.in_step (App.refresh_steps_list w).
Proof. split; reflexivity. Qed.

Lemma in_step_click_row (i : nat) (w : App.Window) :
  App.in_step w -> App.in_step (App.click_row i w).
Proof.
  intros [Hrows Hsel]. unfold App.click_row.
  destruct (i <? List.length (App.steps_listbox w))%nat eqn:E; [|split; assumption].
  apply Nat.ltb_lt in E. rewrite Hrows, length_rows in E.
  split; [exact Hrows|exact E].
Qed.

Lemma selection_blocking_call (env : Surroundings) (ev : Event) (st : State) :
  selection (blocking_call env ev st) = selection st.
Proof.
  rewrite blocking_call_eq.
  destruct (stop_at env (List.length (log st)) && is_running st); reflexivity.
Qed.

Lemma selection_execute_step (env : Surroundings) (step : Step) (st : State) :
  selection (execute_step env step st) = selection st.
Proof.
  unfold execute_step. destruct (is_running st); cbn [negb]; [|reflexivity].
  destruct step; try reflexivity.
  - cbv zeta. destruct (String.eqb action "Click");
      rewrite !selection_blocking_call; reflexivity.
  - destruct (String.eqb action "Type Text");
      [|destruct (String.eqb action "Press Key");
        [|destruct (String.eqb action "Hotkey")]];
      rewrite ?selection_blocking_call; reflexivity.
  - cbv zeta. destruct (locate env (List.length (log st)) path); simpl;
      rewrite ?selection_blocking_call; reflexivity.
Qed.

Lemma selection_dispatch (env : Surroundings) (step : Step) (st : State) :
  selection (dispatch env step st) = selection st.
Proof.
  apply (@I_dispatch env (fun s => selection s = selection st));
    try reflexivity.
  - intros d s _ H. rewrite selection_blocking_call. exact H.
  - intros sub s _ H. rewrite selection_execute_step. exact H.
  - intros msg s _ H. exact H.
Qed.

Lemma selection_in_range_while_loop (env : Surroundings) (fuel pc : nat)
    (st : State) :
  selection_in_range st -> selection_in_range (while_loop env fuel pc st).
Proof.
  revert pc st. induction fuel as [|fuel IH]; intros pc st H; [exact H|].
  rewrite while_loop_S.
  destruct (is_running st); cbn [andb]; [|exact H].
  destruct (pc <? List.length (workflow st))%nat eqn:E; [|exact H].
  apply Nat.ltb_lt in E.
  destruct (nth_error (workflow st) pc) as [step|]; [|exact E].
  cbv zeta.
  assert (selection_in_range
            (blocking_call env (Sleep (delay_of step)) (selection_set pc st)))
    as H2.
  { unfold selection_in_range.
    rewrite selection_blocking_call, workflow_blocking_call. exact E. }
  destruct (negb (is_running _)); [exact H2|].
  apply IH. unfold selection_in_range in *.
  rewrite selection_dispatch, workflow_dispatch. exact H2.
Qed.

Lemma workflow_run_workflow_loop (env : Surroundings) (st : State) :
  workflow (run_workflow_loop env st) = workflow st.
Proof.
  unfold run_workflow_loop.
  rewrite workflow_clean_up, workflow_while_loop. reflexivity.
Qed.

Lemma workflow_toggle_run (st : State) :
  workflow (toggle_run st) = workflow st.
Proof. unfold toggle_run. destruct (is_running st); reflexivity. Qed.

Lemma selection_in_range_run (env : Surroundings) (st : State) :
  selection_in_range st -> selection_in_range (run_workflow_loop env st).
Proof.
  intros H. unfold run_workflow_loop. cbv zeta.
  match goal with
  | |- selection_in_range (clean_up ?s) =>
      assert (selection_in_range s) as Hw
        by (apply selection_in_range_while_loop; exact H);
      unfold clean_up; destruct (is_running s); exact Hw
  end.
Qed.

Lemma in_step_handle (op : App.Op) (w w' : App.Window) :
  App.in_step w -> App.handle py str_float op w = Some w' -> App.in_step w'.
Proof.
  intros Hw. destruct op as [i|step_type user|user|yes|fp files|env]; simpl.
  - intros [= <-]. apply in_step_click_row, Hw.
  - unfold App.add_step. destruct (dialog_result _ _ _ _ _); intros [= <-];
      [apply in_step_refresh|exact Hw].
  - unfold App.edit_selected_step.
    destruct (selection (App.state w)); [|intros [= <-]; exact Hw].
    destruct (nth_error _ _); [|discriminate].
    destruct (dialog_result _ _ _ _ _); intros [= <-];
      [apply in_step_refresh|exact Hw].
  - unfold App.delete_selected_step.
    destruct (selection (App.state w)); [|intros [= <-]; exact Hw].
    destruct yes; [|intros [= <-]; exact Hw].
    destruct (_ <? _)%nat; [|discriminate].
    intros [= <-]. apply in_step_refresh.
  - unfold App.load_workflow. destruct (PyStr.truthy fp);
      [|intros [= <-]; exact Hw].
    destruct (load_workflow _ _ _); [|discriminate].
    intros [= <-]. apply in_step_refresh.
  - destruct (forallb delays_accepted _); [|discriminate].
    intros [= <-]. destruct Hw as [Hrows Hsel]. split.
    + cbn [App.steps_listbox App.state App.set_state].
      rewrite workflow_run_workflow_loop, workflow_toggle_run. exact Hrows.
    + apply (selection_in_range_run env (toggle_run (App.state w))).
      unfold selection_in_range, toggle_run.
      destruct (is_running (App.state w)); exact Hsel.
Qed.

End WindowFacts.
Section ListFacts.

Variable A : Type.

Lemma length_list_set (idx : nat) (x : A) (items : list A) :
  (idx < List.length items)%nat ->
  List.length (list_set idx x items) = List.length items.
Proof.
  intros H. unfold list_set.
  rewrite length_app, length_firstn. cbn [List.length].
  rewrite length_skipn. lia.
Qed.

Lemma nth_error_list_set (idx : nat) (x : A) (items : list A) (i : nat) :
  (idx < List.length items)%nat ->
  nth_error (list_set idx x items) i
    = if Nat.eqb i idx then Some x else nth_error items i.
Proof.
  intros H. unfold list_set.
  assert (List.length (firstn idx items) = idx) as Hlen
    by (rewrite length_firstn; lia).
  destruct (Nat.eqb i idx) eqn:E.
  - apply Nat.eqb_eq in E. subst i.
    rewrite nth_error_app2 by lia. rewrite Hlen, Nat.sub_diag. reflexivity.
  - apply Nat.eqb_neq in E.
    destruct (Nat.lt_ge_cases i idx) as [Hlt|Hge].
    + rewrite nth_error_app1 by lia. rewrite nth_error_firstn.
      apply Nat.ltb_lt in Hlt. rewrite Hlt. reflexivity.
    + rewrite nth_error_app2 by lia. rewrite Hlen.
      destruct (i - idx)%nat as [|k] eqn:Ek; [lia|]. cbn [nth_error].
      rewrite nth_error_skipn. f_equal. lia.
Qed.

Lemma list_set_same (idx : nat) (x : A) (items : list A) :
  nth_error items idx = Some x -> list_set idx x items = items.
Proof.
  intros H. unfold list_set.
  rewrite <- (firstn_skipn idx items) at 3. f_equal.
  revert idx H. induction items as [|y l IH]; intros [|idx] H;
    try discriminate.
  - injection H as ->. reflexivity.
  - simpl in *. apply IH, H.
Qed.

Lemma length_list_del (idx : nat) (items : list A) :
  (idx < List.length items)%nat ->
  S (List.length (list_del idx items)) = List.length items.
Proof.
  intros H. unfold list_del.
  rewrite length_app, length_firstn, length_skipn. lia.
Qed.

Lemma nth_error_list_del (idx : nat) (items : list A) (i : nat) :
  (idx < List.length items)%nat ->
  nth_error (list_del idx items) i
    = if (i <? idx)%nat then nth_error items i else nth_error items (S i).
Proof.
  intros H. unfold list_del.
  assert (List.length (firstn idx items) = idx) as Hlen
    by (rewrite length_firstn; lia).
  destruct (i <? idx)%nat eqn:E.
  - rewrite nth_error_app1 by (apply Nat.ltb_lt in E; lia).
    rewrite nth_error_firstn, E. reflexivity.
  - apply Nat.ltb_ge in E. rewrite nth_error_app2 by lia.
    rewrite Hlen, nth_error_skipn. f_equal. lia.
Qed.

End ListFacts.

Section DialogFacts.

Variable py : Builtins.
Variable str_float : float -> string.

Lemma type_of_leaf_dialog_result (user : LeafUser) (step_type : string)
    (init_data : option Step) (result : Step) :
  leaf_dialog_result py str_float user step_type init_data = Some result ->
  type_of result = step_type /\ is_leaf result = true.
Proof.
  unfold leaf_dialog_result.
  destruct (String.eqb step_type "mouse") eqn:Em.
  { apply String.eqb_eq in Em. subst step_type.
    destruct (at_mouse user _) as [e|]; [|discriminate].
    unfold AddMouseStepDialog.apply.
    destruct (int_of py (AddMouseStepDialog.x_entry e)),
      (int_of py (AddMouseStepDialog.y_entry e)),
      (float_of py (AddMouseStepDialog.delay_entry e)); simpl;
      try discriminate.
    intros [= <-]. split; reflexivity. }
  destruct (String.eqb step_type "keyboard") eqn:Ek.
  { apply String.eqb_eq in Ek. subst step_type.
    destruct (at_keyboard user _) as [e|]; [|discriminate].
    unfold AddKeyboardStepDialog.apply.
    destruct (negb _); [discriminate|].
    destruct (float_of py _); simpl; [|discriminate].
    intros [= <-]. split; reflexivity. }
  destruct (String.eqb step_type "image") eqn:Ei; [|discriminate].
  apply String.eqb_eq in Ei. subst step_type. cbv zeta.
  destruct (at_image user _) as [path|]; [|discriminate].
  unfold AddImageStepDialog.apply.
  destruct (_ || _); simpl; [discriminate|].
  intros [= <-]. split; reflexivity.
Qed.

Lemma type_of_dialog_result (user : User) (step_type : string)
    (init_data : option Step) (result : Step) :
  dialog_result py str_float user step_type init_data = Some result ->
  type_of result = step_type.
Proof.
  unfold dialog_result.
  destruct (String.eqb step_type "conditional_record") eqn:Ec.
  { apply String.eqb_eq in Ec. subst step_type. cbv zeta.
    destruct (at_conditional user _ _) as [[cases else_steps]|];
      [|discriminate].
    simpl. intros [= <-]. reflexivity. }
  destruct (String.eqb step_type "loop") eqn:El.
  { apply String.eqb_eq in El. subst step_type. cbv zeta.
    destruct (loop_ok user); [|discriminate].
    unfold AddLoopDialog.apply. cbn [AddLoopDialog.count_entry].
    destruct (int_of py _) as [count|]; [|discriminate].
    destruct (count <? 0); simpl; [discriminate|].
    intros [= <-]. reflexivity. }
  intros H. apply type_of_leaf_dialog_result in H. apply H.
Qed.

End DialogFacts.



(** X14: "Delete Step", confirmed, removes the selected step and nothing
    else: the workflow is one step shorter, the steps before the selected
    one stay where they were and the steps after it move up by one place.
    Answering "no" leaves the window as it is. *)
Theorem delete_removes_the_selected_step_only (w : App.Window) (idx : nat) :
  selection (App.state w) = Some idx ->
  (idx < List.length (workflow (App.state w)))%nat ->
  App.delete_selected_step false w = Some w
  /\ exists w',
       App.delete_selected_step true w = Some w'
       /\ S (List.length (workflow (App.state w')))
          = List.length (workflow (App.state w))
       /\ forall i,
            nth_error (workflow (App.state w')) i
              = if (i <? idx)%nat then nth_error (workflow (App.state w)) i
                else nth_error (workflow (App.state w)) (S i).
Proof.
  intros Hsel Hlt. unfold App.delete_selected_step. rewrite Hsel.
  split; [reflexivity|].
  apply Nat.ltb_lt in Hlt. rewrite Hlt. apply Nat.ltb_lt in Hlt.
  eexists. split; [reflexivity|]. simpl.
  split; [apply length_list_del; exact Hlt|].
  intros i. apply nth_error_list_del. exact Hlt.
Qed.

Section EditorFacts.

Variable py : Builtins.
Variable str_float : float -> string.

Lemma in_step_refresh_list (e : SubWorkflowEditor.Editor) :
  SubWorkflowEditor.in_step (SubWorkflowEditor.refresh_list e).
Proof. split; reflexivity. Qed.

Lemma editor_handle (op : SubWorkflowEditor.Op)
    (e : SubWorkflowEditor.Editor) :
  SubWorkflowEditor.in_step e ->
  Forall (fun s => is_leaf s = true) (SubWorkflowEditor.steps e) ->
  exists e',
    SubWorkflowEditor.handle py str_float op e = Some e'
    /\ SubWorkflowEditor.in_step e'
    /\ Forall (fun s => is_leaf s = true) (SubWorkflowEditor.steps e').
Proof.
  intros Hstep Hleaf.
  assert (forall idx,
            Forall (fun s => is_leaf s = true)
              (firstn idx (SubWorkflowEditor.steps e))) as Hfirst.
  { intros idx. pose proof Hleaf as H.
    rewrite <- (firstn_skipn idx) in H. apply Forall_app in H. apply H. }
  assert (forall idx,
            Forall (fun s => is_leaf s = true)
              (skipn idx (SubWorkflowEditor.steps e))) as Hskip.
  { intros idx. pose proof Hleaf as H.
    rewrite <- (firstn_skipn idx) in H. apply Forall_app in H. apply H. }
  pose proof Hstep as [Hrows Hsel].
  destruct op as [i|step_type user|user|]; simpl.
  - eexists. split; [reflexivity|]. unfold SubWorkflowEditor.click_row.
    destruct (i <? _)%nat eqn:E; [|split; assumption].
    apply Nat.ltb_lt in E. rewrite Hrows, length_map in E.
    split; [split|]; assumption.
  - unfold SubWorkflowEditor.add_step.
    destruct (leaf_dialog_result py str_float user step_type None)
      as [result|] eqn:E; [|eexists; split; [reflexivity|split; assumption]].
    eexists. split; [reflexivity|]. split; [apply in_step_refresh_list|].
    simpl. apply Forall_app. split; [assumption|].
    constructor; [|constructor].
    eapply type_of_leaf_dialog_result. exact E.
  - unfold SubWorkflowEditor.edit_step.
    destruct (SubWorkflowEditor.curselection e) as [idx|] eqn:Ec;
      [|eexists; split; [reflexivity|split; assumption]].
    destruct (nth_error (SubWorkflowEditor.steps e) idx) as [step|] eqn:En;
      [|apply nth_error_None in En; lia].
    destruct (leaf_dialog_result py str_float user (type_of step) (Some step))
      as [result|] eqn:E; [|eexists; split; [reflexivity|split; assumption]].
    eexists. split; [reflexivity|]. split; [apply in_step_refresh_list|].
    simpl. unfold list_set. apply Forall_app. split; [apply Hfirst|].
    constructor; [eapply type_of_leaf_dialog_result; exact E|apply Hskip].
  - unfold SubWorkflowEditor.delete_step.
    destruct (SubWorkflowEditor.curselection e) as [idx|] eqn:Ec;
      [|eexists; split; [reflexivity|split; assumption]].
    apply Nat.ltb_lt in Hsel. rewrite Hsel.
    eexists. split; [reflexivity|]. split; [apply in_step_refresh_list|].
    simpl. unfold list_del. apply Forall_app. split; [apply Hfirst|apply Hskip].
Qed.

Lemma editor_session (ops : list SubWorkflowEditor.Op)
    (e : SubWorkflowEditor.Editor) :
  SubWorkflowEditor.in_step e ->
  Forall (fun s => is_leaf s = true) (SubWorkflowEditor.steps e) ->
  SubWorkflowEditor.in_step (SubWorkflowEditor.session py str_float ops e)
  /\ Forall (fun s => is_leaf s = true)
       (SubWorkflowEditor.steps (SubWorkflowEditor.session py str_float ops e)).
Proof.
  revert e. induction ops as [|op rest IH]; intros e Hstep Hleaf;
    [split; assumption|].
  cbn [SubWorkflowEditor.session].
  destruct (editor_handle op e Hstep Hleaf) as (e' & -> & Hstep' & Hleaf').
  apply IH; assumption.
Qed.

Lemma editor_sessions (sessions : list (list SubWorkflowEditor.Op))
    (steps_list : list Step) :
  Forall (fun s => is_leaf s = true) steps_list ->
  Forall (fun s => is_leaf s = true)
    (fold_left
       (fun steps_list ops =>
          SubWorkflowEditor.edit py str_float ops steps_list)
       sessions steps_list).
Proof.
  revert steps_list. induction sessions as [|ops rest IH];
    intros steps_list Hleaf; [exact Hleaf|].
  cbn [fold_left]. apply IH. unfold SubWorkflowEditor.edit.
  apply editor_session; [apply in_step_refresh_list|exact Hleaf].
Qed.

End EditorFacts.

(** X15: In the sub-workflow editor, which the Loop dialog opens on its
    steps: whatever the user does, the editor never indexes its list out of
    range, and a list of mouse, keyboard and image steps stays one: the
    editor has no way to put a loop or a conditional block into the list. So
    a loop block made with "Add Loop Block" holds mouse, keyboard and image
    steps only, a count that is not negative and the delay 0.1. *)
Theorem editor_keeps_leaf_steps (py : Builtins) (str_float : float -> string) :
  (forall ops steps_list op,
     Forall (fun s => is_leaf s = true) steps_list ->
     Forall (fun s => is_leaf s = true)
       (SubWorkflowEditor.edit py str_float ops steps_list)
     /\ exists e',
          SubWorkflowEditor.handle py str_float op
            (SubWorkflowEditor.session py str_float ops
               (SubWorkflowEditor.open steps_list))
          = Some e')
  /\ (forall user step,
        dialog_result py str_float user "loop" None = Some step ->
        exists count body,
          step = Loop count body (Float 1 (-1))
          /\ 0 <= count
          /\ Forall (fun s => is_leaf s = true) body).
Proof.
  split.
  - intros ops steps_list op Hleaf.
    destruct (editor_session py str_float ops
                (SubWorkflowEditor.open steps_list)
                (in_step_refresh_list _) Hleaf) as [Hstep Hleaf'].
    split; [exact Hleaf'|].
    destruct (editor_handle py str_float op _ Hstep Hleaf')
      as (e' & He & _). eauto.
  - intros user step. unfold dialog_result. simpl.
    destruct (loop_ok user); [|discriminate].
    unfold AddLoopDialog.apply. cbn [AddLoopDialog.count_entry].
    destruct (int_of py (at_count user "3")) as [count|]; [|discriminate].
    destruct (count <? 0) eqn:E; simpl; [discriminate|].
    intros [= <-]. eexists _, _. split; [reflexivity|].
    split; [apply Z.ltb_ge, E|].
    apply editor_sessions. constructor.
Qed.



Section NumberText.

Lemma uint_chars (u : Decimal.uint) :
  Forall (fun c => PyStr.is_space c = false)
    (list_ascii_of_string (NilEmpty.string_of_uint u)).
Proof.
  induction u; simpl; constructor; (reflexivity || assumption).
Qed.

Lemma of_Z_chars (z : Z) :
  Forall (fun c => PyStr.is_space c = false)
    (list_ascii_of_string (PyStr.of_Z z)).
Proof.
  destruct z as [|p|p].
  - repeat constructor.
  - rewrite of_Z_pos. apply uint_chars.
  - rewrite of_Z_neg, of_Z_pos. simpl. constructor; [reflexivity|].
    apply uint_chars.
Qed.

Lemma strip_no_space (s : string) :
  Forall (fun c => PyStr.is_space c = false) (list_ascii_of_string s) ->
  PyStr.strip s = s.
Proof.
  intros H. unfold PyStr.strip.
  assert (PyStr.lstrip s = s) as ->.
  { destruct s as [|c s]; [reflexivity|]. simpl in *.
    inversion H as [|? ? Hc _]. rewrite Hc. reflexivity. }
  induction s as [|c s IH]; [reflexivity|]. simpl in *.
  inversion H as [|? ? Hc Hs]. subst. rewrite (IH Hs).
  destruct s; [rewrite Hc|]; reflexivity.
Qed.

Lemma signed_digits_of_Z (z : Z) :
  DecimalText.signed_digits (PyStr.of_Z z) = Some z.
Proof.
  unfold DecimalText.signed_digits.
  rewrite <- (string_app_empty (PyStr.of_Z z)), split_sign_of_Z.
  destruct (span_digits_of_Z (Z.abs z) EmptyString (Z.abs_nonneg z))
    as [k ->]; [intros acc n; reflexivity|].
  f_equal. destruct (Z.ltb_spec z 0); lia.
Qed.

Lemma read_int_of_Z (z : Z) : DecimalText.read_int (PyStr.of_Z z) = Some z.
Proof.
  unfold DecimalText.read_int.
  rewrite strip_no_space by apply of_Z_chars. apply signed_digits_of_Z.
Qed.

End NumberText.

(** X18: "Get Current Mouse Position" and OK: whatever the two coordinate
    entries held, the step that OK builds is at the position the pointer
    had, for every position, also one with a negative coordinate (a second
    screen to the left), as soon as the delay entry holds a number. *)
Theorem captured_position_is_the_step_position (isfile : string -> bool)
    (e : AddMouseStepDialog.Entries) (x y : Z) (delay : float) :
  DecimalText.read_float (AddMouseStepDialog.delay_entry e) = Some delay ->
  AddMouseStepDialog.apply
    (mkBuiltins DecimalText.read_int DecimalText.read_float isfile)
    (AddMouseStepDialog.get_coords (x, y) e)
  = (Some (Mouse (AddMouseStepDialog.action_var e) x y delay), None).
Proof.
  intros Hd. unfold AddMouseStepDialog.apply, AddMouseStepDialog.get_coords.
  simpl. rewrite !read_int_of_Z, Hd. reflexivity.
Qed.

Section DisplayFacts.

Lemma string_length_append (a b : string) :
  String.length (a ++ b) = (String.length a + String.length b)%nat.
Proof. induction a as [|c a IH]; simpl; congruence. Qed.

Lemma length_substring_0 (n : nat) (s : string) :
  (String.length (String.substring 0 n s) <= n)%nat.
Proof.
  revert s. induction n as [|n IH]; intros s.
  - destruct s; simpl; lia.
  - destruct s as [|c s]; simpl; [lia|]. specialize (IH s). lia.
Qed.

Lemma has_char_basename_from (cur p : string) :
  PyStr.has_char "/" cur = false ->
  PyStr.has_char "/" (PyStr.basename_from cur p) = false.
Proof.
  revert cur. induction p as [|c p IH]; intros cur H; simpl; [exact H|].
  destruct (Ascii.eqb c "/") eqn:E; [apply IH; reflexivity|].
  apply IH. rewrite has_char_app, H. simpl. rewrite E. reflexivity.
Qed.

Lemma nth_error_rows (steps : list Step) (i k : nat) :
  nth_error (App.rows k steps) i =
    match nth_error steps i with
    | Some step =>
        Some (PyStr.of_Z (Z.of_nat (k + i) + 1) ++ ". "
                ++ get_step_display_text step)%string
    | None => None
    end.
Proof.
  revert i k. induction steps as [|step rest IH]; intros [|i] k; simpl;
    try reflexivity.
  - rewrite Nat.add_0_r. reflexivity.
  - rewrite IH. replace (S k + i)%nat with (k + S i)%nat by lia.
    reflexivity.
Qed.

End DisplayFacts.

(** X19: What the list box shows: one row for each step of the workflow, in
    order, numbered from 1. The row of a "Type Text" step is never longer
    than 45 characters, numbering apart, however long the text, and shows
    the whole text when that has at most 20 characters. The row of an image
    step shows the name of the file without its directories: it contains no
    ["/"]. *)
Theorem rows_at_a_glance (steps : list Step) :
  List.length (App.rows 0 steps) = List.length steps
  /\ (forall i step,
        nth_error steps i = Some step ->
        nth_error (App.rows 0 steps) i
          = Some (PyStr.of_Z (Z.of_nat i + 1) ++ ". "
                    ++ get_step_display_text step)%string)
  /\ (forall value d,
        (String.length
           (get_step_display_text (Keyboard "Type Text" value d)) <= 45)%nat
        /\ ((String.length value <= 20)%nat ->
            get_step_display_text (Keyboard "Type Text" value d)
              = ("KEYBOARD Type Text: '" ++ value ++ "'")%string))
  /\ (forall path d,
        PyStr.has_char "/" (get_step_display_text (Image path d)) = false).
Proof.
  split; [apply length_rows|]. split; [|split].
  - intros i step H. rewrite nth_error_rows, H. reflexivity.
  - intros value d. cbn [get_step_display_text]. cbv zeta.
    change (String.eqb "Type Text" "Type Text") with true. cbv iota.
    split.
    + rewrite !string_length_append.
      destruct (20 <? String.length value)%nat eqn:E.
      * rewrite string_length_append.
        pose proof (length_substring_0 20 value). simpl. lia.
      * apply Nat.ltb_ge in E. simpl. lia.
    + intros H. apply Nat.ltb_ge in H. rewrite H. reflexivity.
  - intros path d. cbn [get_step_display_text].
    rewrite !has_char_app. unfold PyStr.basename.
    rewrite has_char_basename_from by reflexivity. reflexivity.
Qed.

(** * Further results about saving and loading *)

Section PlainText.

Lemma all_plain_app (a b : string) :
  all_plain (a ++ b) = all_plain a && all_plain b.
Proof.
  induction a as [|c a IH]; simpl; [reflexivity|].
  rewrite IH, andb_assoc. reflexivity.
Qed.

Lemma all_plain_uint (u : Decimal.uint) :
  all_plain (NilEmpty.string_of_uint u) = true.
Proof. induction u; simpl; auto. Qed.

Lemma all_plain_of_Z (z : Z) : all_plain (PyStr.of_Z z) = true.
Proof.
  destruct z as [|p|p].
  - reflexivity.
  - rewrite of_Z_pos. apply all_plain_uint.
  - rewrite of_Z_neg, of_Z_pos. simpl. apply all_plain_uint.
Qed.

Lemma all_plain_escape_char (c : ascii) :
  all_plain (Json.escape_char c) = true.
Proof.
  destruct c as [[|] [|] [|] [|] [|] [|] [|] [|]]; vm_compute; reflexivity.
Qed.

Lemma all_plain_quote (s : string) : all_plain (Json.quote s) = true.
Proof.
  unfold Json.quote. cbn [all_plain].
  change (plain Json.double_quote) with true. cbn [andb].
  rewrite all_plain_app. cbn [all_plain].
  change (plain Json.double_quote) with true. cbn [andb].
  rewrite andb_true_r.
  induction s as [|c s IH]; [reflexivity|]. cbn [Json.escape].
  rewrite all_plain_app, all_plain_escape_char, IH. reflexivity.
Qed.

Lemma all_plain_newline (level : nat) : all_plain (Json.newline level) = true.
Proof.
  unfold Json.newline. cbn [all_plain].
  change (plain (ascii_of_nat 10)) with true. cbn [andb].
  induction (4 * level)%nat as [|n IH]; [reflexivity|]. simpl. exact IH.
Qed.

Lemma all_plain_dump (v : Json.value) (level : nat) :
  all_plain (Json.dump level v) = true.
Proof.
  revert level. induction v using value_induction; intros level.
  - reflexivity.
  - destruct b; reflexivity.
  - apply all_plain_of_Z.
  - unfold Json.dump, Json.write_float.
    rewrite all_plain_app. cbn [all_plain].
    rewrite !all_plain_of_Z. reflexivity.
  - apply all_plain_quote.
  - destruct items as [|x xs]; [reflexivity|].
    inversion H as [|? ? Hx Hxs]; subst.
    cbn [Json.dump all_plain]. change (plain "[") with true. cbn [andb].
    rewrite !all_plain_app, all_plain_newline, Hx. cbn [andb].
    clear Hx H. induction Hxs as [|y ys Hy _ IH]; cbn [Json.more_items].
    + rewrite all_plain_app, all_plain_newline. reflexivity.
    + cbn [all_plain]. change (plain ",") with true. cbn [andb].
      rewrite !all_plain_app, all_plain_newline, Hy, IH. reflexivity.
  - destruct members as [|[k x] xs]; [reflexivity|].
    inversion H as [|? ? Hx Hxs]; subst. simpl in Hx.
    cbn [Json.dump all_plain]. change (plain "{") with true. cbn [andb].
    rewrite !all_plain_app, all_plain_newline, all_plain_quote, Hx.
    cbn [andb all_plain]. change (plain ":") with true.
    change (plain " ") with true. cbn [andb].
    clear Hx H. induction Hxs as [|[k' y] ys Hy _ IH];
      cbn [Json.more_members].
    + rewrite all_plain_app, all_plain_newline. reflexivity.
    + simpl in Hy. cbn [all_plain]. change (plain ",") with true.
      cbn [andb].
      rewrite !all_plain_app, all_plain_newline, all_plain_quote, Hy, IH.
      reflexivity.
Qed.

End PlainText.

(** X20: A saved workflow is plain text: whatever characters the values of
    its steps hold, the file consists of printable ASCII characters and line
    feeds only. *)
Theorem saved_workflow_is_plain_text (fp : string) (st : State)
    (files : Files) :
  fp <> EmptyString ->
  exists text,
    save_workflow fp st files fp = Some text /\ all_plain text = true.
Proof.
  intros Hfp. unfold save_workflow, write_file.
  destruct fp as [|c fp]; [congruence|]. cbn [PyStr.truthy].
  rewrite String.eqb_refl. eexists. split; [reflexivity|].
  apply all_plain_dump.
Qed.


(** * Results about the helper functions *)

(** X22: The notice at start-up. It is shown on Linux only, and there
    exactly when a package is missing or the session is a Wayland session.
    Its text names ["python3-xlib"] exactly when [import Xlib] fails,
    ["scrot"] exactly when [which scrot] does not exit with 0, and speaks of
    Wayland exactly when a Wayland session is detected. *)
Theorem startup_warning_names_what_is_missing (m : Machine) :
  (startup_warning m = None <->
   is_linux m = false
   \/ xlib_importable m = true /\ which_scrot m = 0
      /\ running_on_wayland m = false)
  /\ forall title text,
       startup_warning m = Some (title, text) ->
       title = "Linux environment notice"%string
       /\ PyStr.contains "python3-xlib" text = negb (xlib_importable m)
       /\ PyStr.contains "scrot" text = negb (which_scrot m =? 0)
       /\ PyStr.contains "Wayland" text = running_on_wayland m.
Proof.
  unfold startup_warning, warn_linux_requirements, missing_packages.
  destruct (is_linux m); [|split; [tauto|discriminate]].
  destruct (xlib_importable m),
    (Z.eqb_spec (which_scrot m) 0) as [Es|Es],
    (running_on_wayland m);
    (split;
     [split;
      [intros H; simpl in H;
       first [discriminate H | right; repeat split; assumption]
      |intros [H|(H1 & H2 & H3)];
       first [discriminate | contradiction | reflexivity]]
     |intros title text H; simpl in H;
      first [discriminate H
            | injection H as <- <-; repeat split; vm_compute; reflexivity]]).
Qed.


Section BlockFacts.

Variable env : Surroundings.

Lemma case_matches_empty_text (c : Case) : case_matches EmptyString c = false.
Proof.
  unfold case_matches. destruct (value_of c) as [|a v]; reflexivity.
Qed.

Lemma for_each_iteration_uninterrupted (count : Z) (body : list Step)
    (m a : nat) (st : State) :
  never_stopped env -> always_found env -> is_running st = true ->
  exists st',
    for_each (iteration env count body) (seq a (S m)) st = Continue st'
    /\ is_running st' = true
    /\ status_var st' = running_loop (a + m) count.
Proof.
  intros Hquiet Hfound. revert a st.
  induction m as [|m IH]; intros a st Hrun.
  - cbn [seq for_each]. unfold iteration. rewrite Hrun. cbn [negb].
    destruct (@for_each_sub_step_uninterrupted env body
                (set_status (running_loop a count) st) Hquiet Hfound Hrun)
      as (st' & evs & -> & _ & _ & Hrun' & Hst').
    exists st'. rewrite Nat.add_0_r. auto.
  - change (seq a (S (S m))) with (a :: seq (S a) (S m)).
    cbn [for_each]. unfold iteration at 1. rewrite Hrun. cbn [negb].
    destruct (@for_each_sub_step_uninterrupted env body
                (set_status (running_loop a count) st) Hquiet Hfound Hrun)
      as (st1 & evs & -> & _ & _ & Hrun1 & _).
    destruct (IH (S a) st1 Hrun1) as (st' & -> & Hrun' & Hst').
    exists st'. replace (a + S m)%nat with (S a + m)%nat by lia. auto.
Qed.

End BlockFacts.

(** X24: A conditional block when the clipboard cannot be read, or is empty:
    no case matches, whatever its value, and the else-steps are the ones
    that run. *)
Theorem unreadable_clipboard_runs_else_steps (env : Surroundings)
    (source : string) (cases : list Case) (else_steps : list Step)
    (d : float) (st : State) :
  is_running st = true ->
  clipboard env (List.length (log st)) = None
  \/ clipboard env (List.length (log st)) = Some EmptyString ->
  execute_conditional_record env
    (ConditionalRecord source cases else_steps d) st
  = state_of (for_each (sub_step env) else_steps st).
Proof.
  intros Hrun Hclip.
  apply (@execute_conditional_record_no_match env); [exact Hrun|].
  assert (source_text env st = EmptyString) as ->
    by (unfold source_text; destruct Hclip as [-> | ->]; reflexivity).
  apply Forall_forall. intros c _. apply case_matches_empty_text.
Qed.

(** X25: The count of a loop block at its bounds. With a count of zero or
    below, as a file edited by hand may hold, the block does nothing. With a
    count of at least one and delays that [time.sleep] accepts, run with the
    button left alone and every image found, the block leaves the status of
    its last round, "Running Loop n/n" for the count n, which nothing sets
    back before the next round of a loop or the end of the run. *)
Theorem loop_block_at_the_bounds_of_its_count (env : Surroundings)
    (count : Z) (body : list Step) (d : float) (st : State) :
  (count <= 0 -> execute_loop_block env (Loop count body d) st = st)
  /\ (0 < count -> never_stopped env -> always_found env ->
      forallb delays_accepted body = true ->
      is_running st = true ->
      status_var (execute_loop_block env (Loop count body d) st)
      = ("Status: Running Loop " ++ PyStr.of_Z count ++ "/"
           ++ PyStr.of_Z count)%string).
Proof.
  split.
  - intros H. unfold execute_loop_block.
    replace (Z.to_nat count) with 0%nat by lia. reflexivity.
  - intros Hpos Hquiet Hfound _ Hrun. unfold execute_loop_block.
    destruct (Z.to_nat count) as [|m] eqn:E; [lia|].
    destruct (for_each_iteration_uninterrupted env count body m 0 st
                Hquiet Hfound Hrun) as (st' & -> & _ & Hst).
    cbn [state_of]. rewrite Hst. unfold running_loop.
    replace (Z.of_nat (0 + m) + 1) with count by lia. reflexivity.
Qed.

Section Replay.

Variable env : Surroundings.

Hypothesis Hquiet : never_stopped env.

Lemma execute_step_finds (step : Step) (st : State) :
  always_finds env step -> is_running st = true ->
  is_running (execute_step env step st) = true
  /\ exists look,
       (forall path, exists x y, look path = Found x y)
       /\ calls_of (locate env (List.length (log st))) step
          = calls_of look step.
Proof.
  intros Hfinds Hrun.
  assert (forall path, exists x y,
            (fun _ : string => Found 0 0) path = Found x y) as Hdefault
    by (intros path; exists 0, 0; reflexivity).
  unfold execute_step. rewrite Hrun. cbn [negb].
  destruct step; cbn [always_finds] in Hfinds.
  - split; [|exists (fun _ => Found 0 0); split; [exact Hdefault|reflexivity]].
    cbv zeta. destruct (String.eqb action "Click");
      rewrite !blocking_call_never_stopped by assumption; exact Hrun.
  - split; [|exists (fun _ => Found 0 0); split; [exact Hdefault|reflexivity]].
    destruct (String.eqb action "Type Text");
      [|destruct (String.eqb action "Press Key");
        [|destruct (String.eqb action "Hotkey")]];
      rewrite ?blocking_call_never_stopped by assumption; exact Hrun.
  - cbv zeta. destruct (Hfinds (List.length (log st))) as (x & y & E).
    split.
    + rewrite E. rewrite !blocking_call_never_stopped by assumption.
      exact Hrun.
    + exists (fun _ => Found x y). split; [intros p; eauto|].
      cbn [calls_of]. rewrite E. reflexivity.
  - split; [exact Hrun|].
    exists (fun _ => Found 0 0). split; [exact Hdefault|reflexivity].
  - split; [exact Hrun|].
    exists (fun _ => Found 0 0). split; [exact Hdefault|reflexivity].
Qed.

(** The main loop on leaf steps whose images are found, from any program
    counter. *)
Lemma while_loop_finds (fuel pc : nat) (st : State) :
  Forall (fun s => is_leaf s = true /\ always_finds env s) (workflow st) ->
  is_running st = true ->
  (List.length (workflow st) - pc <= fuel)%nat ->
  exists evs,
    executed_in_order (skipn pc (workflow st)) evs
    /\ log (while_loop env fuel pc st) = log st ++ evs
    /\ is_running (while_loop env fuel pc st) = true.
Proof.
  revert pc st. induction fuel as [|fuel IH]; intros pc st Hleaf Hrun Hfuel.
  - exists []. rewrite skipn_all2 by lia. rewrite app_nil_r.
    repeat split; [constructor|exact Hrun].
  - rewrite while_loop_S, Hrun. cbn [andb].
    destruct (pc <? List.length (workflow st))%nat eqn:Epc.
    + apply Nat.ltb_lt in Epc.
      destruct (nth_error (workflow st) pc) as [step|] eqn:En;
        [|apply nth_error_None in En; lia].
      cbv zeta.
      rewrite blocking_call_never_stopped by assumption.
      set (st1 := append_log (Sleep (delay_of step)) (selection_set pc st)).
      assert (is_running st1 = true) as Hrun1 by exact Hrun.
      rewrite Hrun1. cbn [negb].
      assert (is_leaf step = true /\ always_finds env step) as [Hstep Hfinds].
      { apply nth_error_In in En. rewrite Forall_forall in Hleaf. auto. }
      rewrite dispatch_leaf by assumption.
      destruct (execute_step_finds step st1 Hfinds Hrun1)
        as (Hrun2 & look & Hlook & Hcalls).
      destruct (IH (S pc) (execute_step env step st1))
        as (evs & Hex & Hlog & Hr).
      * rewrite workflow_execute_step. exact Hleaf.
      * exact Hrun2.
      * rewrite workflow_execute_step. subst st1. simpl. lia.
      * rewrite workflow_execute_step in Hex.
        exists (Sleep (delay_of step) :: calls_of look step ++ evs).
        split; [|split].
        -- rewrite (skipn_nth_error _ _ _ _ En). subst st1.
           simpl workflow in Hex. constructor; [exact Hlook|exact Hex].
        -- rewrite Hlog, log_execute_step by assumption.
           rewrite Hcalls. subst st1. simpl. rewrite <- !app_assoc.
           reflexivity.
        -- exact Hr.
    + apply Nat.ltb_ge in Epc. exists [].
      rewrite skipn_all2 by lia. rewrite app_nil_r.
      repeat split; [constructor|exact Hrun].
Qed.

Lemma recordable_leaf (step : Step) :
  Recorder.recordable step -> is_leaf step = true /\ always_finds env step.
Proof. destruct step; simpl; intros H; try contradiction; auto. Qed.

Lemma whole_ms_accepted (step : Step) :
  is_leaf step = true -> Recorder.whole_ms (delay_of step) ->
  delays_accepted step = true.
Proof.
  intros Hleaf [_ Hm].
  destruct step; try discriminate; cbn [delays_accepted delay_of] in *;
    rewrite andb_true_r; apply leb_zero; exact Hm.
Qed.

End Replay.

(** X26: A recording is a workflow the engine replays.  Every delay in it is
    one that [time.sleep] accepts, and a run of it with the button left
    alone executes every recorded step once, in the order of the
    recording, each after its own delay, and ends with the flag clear, the
    status "Idle" and the button "Run Workflow". *)
Theorem recording_replays_in_order (env : Surroundings)
    (pynput_available : bool) (stop_right_hold_sec : float)
    (events : list Recorder.RawEvent) (st : State) :
  never_stopped env ->
  is_running st = true ->
  workflow st
    = Recorder.record_mouse_keyboard_session pynput_available
        stop_right_hold_sec events ->
  forallb delays_accepted (workflow st) = true
  /\ exists evs,
       executed_in_order (workflow st) evs
       /\ log (run_workflow_loop env st) = log st ++ evs
       /\ is_running (run_workflow_loop env st) = false
       /\ status_var (run_workflow_loop env st) = "Status: Idle"%string
       /\ run_button (run_workflow_loop env st) = "Run Workflow"%string.
Proof.
  intros Hquiet Hrun Hwf.
  assert (Forall Recorder.recordable (workflow st)) as Hrec.
  { rewrite Hwf. unfold Recorder.record_mouse_keyboard_session.
    destruct pynput_available; [|constructor].
    rewrite merge_events_merge_from. apply recordable_merge_from.
    apply (well_recorded_listen stop_right_hold_sec events
             Recorder.new_session well_recorded_new_session). }
  assert (Forall (fun s => Recorder.whole_ms (delay_of s)) (workflow st))
    as Hms.
  { rewrite Hwf. unfold Recorder.record_mouse_keyboard_session.
    destruct pynput_available; [|constructor].
    rewrite merge_events_merge_from.
    apply whole_ms_merge_from; [|discriminate].
    apply (well_recorded_listen stop_right_hold_sec events
             Recorder.new_session well_recorded_new_session). }
  assert (Forall (fun s => is_leaf s = true /\ always_finds env s)
            (workflow st)) as Hleaf.
  { eapply Forall_impl; [|exact Hrec]. apply recordable_leaf. }
  split.
  - apply forallb_forall. intros step Hin.
    rewrite Forall_forall in Hms, Hleaf.
    apply whole_ms_accepted; [apply Hleaf, Hin|apply Hms, Hin].
  - unfold run_workflow_loop. cbv zeta.
    set (st1 := set_status "Status: Running..." st).
    destruct (while_loop_finds env Hquiet (List.length (workflow st1)) 0 st1
                Hleaf Hrun) as (evs & Hex & Hlog & Hr); [lia|].
    exists evs. unfold clean_up. rewrite Hr. simpl.
    repeat split; assumption.
Qed.

(** * The results at concrete inputs *)

(** C1, an instance: the image is not found, the click of the second step
    is never made, and the status names [ok_button.png]. *)
Lemma image_failure_halts_run_witness :
  log (run_workflow_loop (quiet NotFound)
         (started [ok_button; Mouse "Click" 10 10 (PyFloat.ms 100)]))
    = [Sleep (Float 5 (-1)); LocateCenterOnScreen "/home/user/ok_button.png"]
  /\ is_running (run_workflow_loop (quiet NotFound)
                   (started [ok_button; Mouse "Click" 10 10 (PyFloat.ms 100)]))
     = false
  /\ status_var (run_workflow_loop (quiet NotFound)
                   (started [ok_button; Mouse "Click" 10 10 (PyFloat.ms 100)]))
     = "Status: Image not found 'ok_button.png'"%string.
Proof.
  split; [reflexivity|].
  destruct (proj1 (@image_failure_halts_run (quiet NotFound)
                     (started [ok_button; Mouse "Click" 10 10 (PyFloat.ms 100)])
                     1%nat "/home/user/ok_button.png" eq_refl eq_refl) eq_refl)
    as (Hoff & _ & Hstatus & _).
  split; [exact Hoff|exact Hstatus].
Defined.

(** C1 as stated fails when the image search raises: the run halts, but
    the status it leaves does not name the image file. *)
Lemma image_search_error_omits_file_name :
  log (run_workflow_loop (quiet Raised) (started [ok_button]))
    = [Sleep (Float 5 (-1)); LocateCenterOnScreen "/home/user/ok_button.png"]
  /\ locate (quiet Raised) 1 "/home/user/ok_button.png" = Raised
  /\ status_var (run_workflow_loop (quiet Raised) (started [ok_button]))
     = "Status: Image search error. Is OpenCV installed?"%string
  /\ PyStr.basename "/home/user/ok_button.png" = "ok_button.png"%string
  /\ PyStr.contains (PyStr.basename "/home/user/ok_button.png")
       (status_var (run_workflow_loop (quiet Raised) (started [ok_button])))
     = false.
Proof. repeat split. Qed.





(** C5 as stated fails: pressing the button during a run is not refused,
    it changes the state; and pressing it twice does not leave the state
    of pressing it once, it starts a second execution thread. *)
Lemma toggle_run_twice_restarts :
  is_running (started []) = true
  /\ threads (started []) = 1%nat
  /\ is_running (toggle_run (started [])) = false
  /\ status_var (toggle_run (started [])) = "Status: Stopping..."%string
  /\ is_running (toggle_run (toggle_run (started []))) = true
  /\ threads (toggle_run (toggle_run (started []))) = 2%nat.
Proof. repeat split. Qed.

(** C5, an instance: the press that stops a run starts no thread. *)
Lemma toggle_run_stops_or_starts_witness :
  is_running (toggle_run (started [])) = false
  /\ threads (toggle_run (started [])) = threads (started [])
  /\ status_var (toggle_run (started [])) = "Status: Stopping..."%string
  /\ run_button (toggle_run (started [])) = "Run Workflow"%string.
Proof.
  exact (proj1 (toggle_run_stops_or_starts (started [])) eq_refl).
Defined.

(** C8 as stated fails for a negative delay: the mouse dialog confirmed
    with the delay text "-1" shows no error and leaves a step whose delay
    is below zero, and [add_step] appends it. *)
Lemma negative_delay_is_accepted :
  dialog_outcome DecimalText.builtins
    (MouseDialog (AddMouseStepDialog.mkEntries "Click" "10" "20" "-1"))
    = (Some (Mouse "Click" 10 20 (Float (-1) 0)), None)
  /\ PyFloat.ltb (Float (-1) 0) PyFloat.zero = true
  /\ workflow
       (add_step DecimalText.builtins
          (MouseDialog (AddMouseStepDialog.mkEntries "Click" "10" "20" "-1"))
          init_app)
     = [Mouse "Click" 10 20 (Float (-1) 0)].
Proof. repeat split. Qed.

(** C8, an instance: a repeat count of -1 is refused and the workflow is
    left as it was. *)
Lemma rejected_entries_append_nothing_witness :
  fst (dialog_outcome DecimalText.builtins
         (LoopDialog (AddLoopDialog.mkEntries "-1" [type_text "x"] None)))
    = None
  /\ (exists message,
        snd (dialog_outcome DecimalText.builtins
               (LoopDialog (AddLoopDialog.mkEntries "-1" [type_text "x"] None)))
          = Some message)
  /\ add_step DecimalText.builtins
       (LoopDialog (AddLoopDialog.mkEntries "-1" [type_text "x"] None))
       (started [type_text "a"])
     = started [type_text "a"].
Proof.
  apply (proj1 (rejected_entries_append_nothing DecimalText.builtins
                  (LoopDialog (AddLoopDialog.mkEntries "-1" [type_text "x"] None))
                  (started [type_text "a"]))).
  right. exists (-1). split; reflexivity.
Defined.

(** C10, an instance: a case with an empty value against the text "abc". *)
Lemma empty_case_value_never_matches_witness :
  PyStr.contains (value_of (MkCase "" [type_text "A"])) "abc" = true
  /\ case_matches "abc" (MkCase "" [type_text "A"]) = false.
Proof.
  exact (proj1 (@empty_case_value_never_matches (quiet NotFound)
                  (MkCase "" [type_text "A"]) eq_refl) "abc"%string).
Defined.


(** X7, an instance: a run stopped by the button during its first delay: it
    ends with the flag clear and the status "Stopping...". *)
Lemma run_ends_with_flag_clear_witness :
  is_running (run_workflow_loop (pressed_during 0)
                (started [Mouse "Click" 10 10 (PyFloat.ms 100)]))
    = false
  /\ ended (run_workflow_loop (pressed_during 0)
              (started [Mouse "Click" 10 10 (PyFloat.ms 100)]))
  /\ status_var (run_workflow_loop (pressed_during 0)
                   (started [Mouse "Click" 10 10 (PyFloat.ms 100)]))
     = "Status: Stopping..."%string.
Proof.
  destruct (run_ends_with_flag_clear (pressed_during 0)
              (started [Mouse "Click" 10 10 (PyFloat.ms 100)]) eq_refl)
    as (Hoff & Hend & _).
  split; [exact Hoff|]. split; [exact (Hend eq_refl)|reflexivity].
Defined.

(** X8, an instance: the image is not found: the button still reads "Stop",
    and pressing it starts the workflow a second time. *)
Lemma image_failure_leaves_button_unchanged_witness :
  run_button (run_workflow_loop (quiet NotFound)
                (started [ok_button; Mouse "Click" 10 10 (PyFloat.ms 100)]))
    = "Stop"%string
  /\ is_running
       (toggle_run
          (run_workflow_loop (quiet NotFound)
             (started [ok_button; Mouse "Click" 10 10 (PyFloat.ms 100)])))
     = true
  /\ threads
       (toggle_run
          (run_workflow_loop (quiet NotFound)
             (started [ok_button; Mouse "Click" 10 10 (PyFloat.ms 100)])))
     = 2%nat.
Proof.
  destruct (image_failure_leaves_button_unchanged (quiet NotFound)
              (started [ok_button; Mouse "Click" 10 10 (PyFloat.ms 100)])
              1%nat "/home/user/ok_button.png"
              "Status: Image not found 'ok_button.png'"
              (fun _ => eq_refl) eq_refl eq_refl eq_refl eq_refl)
    as (_ & _ & Hbutton & Hrun & Hthreads).
  split; [exact Hbutton|]. split; [exact Hrun|exact Hthreads].
Defined.

(** X9, an instance: a click and a text, run to the end. *)
Lemma leaf_workflow_runs_every_step_in_order_witness :
  log (run_workflow_loop (quiet (Found 0 0))
         (started [Mouse "Click" 10 10 (PyFloat.ms 100); type_text "hi"]))
    = [Sleep (PyFloat.ms 100); MoveTo 10 10; Click; Sleep PyFloat.zero;
       Write "hi"]
  /\ exists evs,
       executed_in_order
         (workflow
            (started [Mouse "Click" 10 10 (PyFloat.ms 100); type_text "hi"]))
         evs
       /\ log (run_workflow_loop (quiet (Found 0 0))
                 (started [Mouse "Click" 10 10 (PyFloat.ms 100);
                           type_text "hi"]))
          = log (started [Mouse "Click" 10 10 (PyFloat.ms 100);
                          type_text "hi"]) ++ evs
       /\ is_running
            (run_workflow_loop (quiet (Found 0 0))
               (started [Mouse "Click" 10 10 (PyFloat.ms 100);
                         type_text "hi"]))
          = false
       /\ status_var
            (run_workflow_loop (quiet (Found 0 0))
               (started [Mouse "Click" 10 10 (PyFloat.ms 100);
                         type_text "hi"]))
          = "Status: Idle"%string
       /\ run_button
            (run_workflow_loop (quiet (Found 0 0))
               (started [Mouse "Click" 10 10 (PyFloat.ms 100);
                         type_text "hi"]))
          = "Run Workflow"%string.
Proof.
  split; [reflexivity|].
  apply (leaf_workflow_runs_every_step_in_order (quiet (Found 0 0))
           (started [Mouse "Click" 10 10 (PyFloat.ms 100); type_text "hi"])).
  - intros t. reflexivity.
  - intros t path. exists 0, 0. reflexivity.
  - reflexivity.
  - repeat constructor.
  - reflexivity.
Defined.




(** X14, an instance: the only step deleted. *)
Lemma delete_removes_the_selected_step_only_witness :
  App.delete_selected_step false sample_window = Some sample_window
  /\ exists w',
       App.delete_selected_step true sample_window = Some w'
       /\ workflow (App.state w') = []
       /\ S (List.length (workflow (App.state w')))
          = List.length (workflow (App.state sample_window)).
Proof.
  destruct (delete_removes_the_selected_step_only sample_window 0%nat
              eq_refl (le_n 1)) as (Hno & w' & Hyes & Hlen & _).
  split; [exact Hno|]. exists w'. split; [exact Hyes|].
  split; [|exact Hlen].
  destruct (workflow (App.state w')); [reflexivity|discriminate].
Defined.


(** X18, an instance: the pointer on a second screen to the left of the
    first. *)
Lemma captured_position_is_the_step_position_witness :
  AddMouseStepDialog.apply
    (mkBuiltins DecimalText.read_int DecimalText.read_float (fun _ => true))
    (AddMouseStepDialog.get_coords (-1280, 300)
       (AddMouseStepDialog.mkEntries "Click" "" "" "0.5"))
  = (Some (Mouse "Click" (-1280) 300 (Float 5 (-1))), None).
Proof.
  exact (captured_position_is_the_step_position (fun _ => true)
           (AddMouseStepDialog.mkEntries "Click" "" "" "0.5") (-1280) 300
           (Float 5 (-1)) eq_refl).
Defined.

(** X20, an instance: a text with a tabulation and a character beyond ASCII,
    saved. *)
Lemma saved_workflow_is_plain_text_witness :
  exists text,
    save_workflow "workflow_presets/demo.json"
      (set_workflow
         [type_text (String (ascii_of_nat 9) (String (ascii_of_nat 233) "t"))]
         init_app)
      (fun _ => None) "workflow_presets/demo.json" = Some text
    /\ all_plain text = true.
Proof.
  apply saved_workflow_is_plain_text. discriminate.
Defined.


(** X24, an instance: the clipboard cannot be read: the else-step runs. *)
Lemma unreadable_clipboard_runs_else_steps_witness :
  log (execute_conditional_record (quiet NotFound)
         (ConditionalRecord "clipboard" [MkCase "yes" [type_text "Y"]]
            [type_text "N"] PyFloat.zero)
         (started []))
    = [Sleep PyFloat.zero; Write "N"]
  /\ execute_conditional_record (quiet NotFound)
       (ConditionalRecord "clipboard" [MkCase "yes" [type_text "Y"]]
          [type_text "N"] PyFloat.zero)
       (started [])
     = state_of (for_each (sub_step (quiet NotFound)) [type_text "N"]
                   (started [])).
Proof.
  split; [reflexivity|].
  exact (unreadable_clipboard_runs_else_steps (quiet NotFound) "clipboard"
           [MkCase "yes" [type_text "Y"]] [type_text "N"] PyFloat.zero
           (started []) eq_refl (or_introl eq_refl)).
Defined.

(** X26, an instance: "hi" typed and one click, recorded and replayed. *)
Lemma recording_replays_in_order_witness :
  Recorder.record_mouse_keyboard_session true (PyFloat.sec 2)
    [Recorder.KeyPress (Recorder.KeyChar "h") (PyFloat.sec 1000);
     Recorder.KeyPress (Recorder.KeyChar "i") (PyFloat.sec 1001);
     Recorder.MouseClick 5 5 Recorder.ButtonLeft true (PyFloat.sec 1003)]
  = [Keyboard "Type Text" "hi" (PyFloat.ms 0);
     Mouse "Click" 5 5 (PyFloat.ms 2000)]
  /\ log (run_workflow_loop (quiet NotFound)
            (started [Keyboard "Type Text" "hi" (PyFloat.ms 0);
                      Mouse "Click" 5 5 (PyFloat.ms 2000)]))
     = [Sleep (PyFloat.ms 0); Write "hi"; Sleep (PyFloat.ms 2000);
        MoveTo 5 5; Click]
  /\ status_var
       (run_workflow_loop (quiet NotFound)
          (started [Keyboard "Type Text" "hi" (PyFloat.ms 0);
                    Mouse "Click" 5 5 (PyFloat.ms 2000)]))
     = "Status: Idle"%string.
Proof.
  split; [reflexivity|]. split; [reflexivity|].
  destruct (recording_replays_in_order (quiet NotFound) true (PyFloat.sec 2)
              [Recorder.KeyPress (Recorder.KeyChar "h") (PyFloat.sec 1000);
               Recorder.KeyPress (Recorder.KeyChar "i") (PyFloat.sec 1001);
               Recorder.MouseClick 5 5 Recorder.ButtonLeft true
                 (PyFloat.sec 1003)]
              (started [Keyboard "Type Text" "hi" (PyFloat.ms 0);
                        Mouse "Click" 5 5 (PyFloat.ms 2000)])
              (fun _ => eq_refl) eq_refl eq_refl)
    as (_ & evs & _ & _ & _ & Hstatus & _).
  exact Hstatus.
Defined.
